(** * Reporter: the periodic telemetry reporter of the UDP traffic generator

    A shallow embedding of [reporter.go] (the current reporter) and of its
    older version (module [Legacy] below), with the properties the
    specification states about them.

    Conventions of the embedding:
    - Go's fixed-width integers are [Z] with the wrap-around written out
      ([int64], [uint32]); [time.Duration] is an [int64] count of
      nanoseconds; [time.Time] is a count of nanoseconds since the zero
      [time.Time].
    - [float64] is the kernel's binary64 ([PrimFloat.float]); the conversion
      of an integer to [float64] rounds to nearest, ties to even.
    - Go maps are [gmap]s.
    - Every effect of a tick (locks, runtime readings, serialization, HTTP,
      log lines) is an [event]; a function with effects returns the list of
      its events in program order. *)

From Stdlib Require Import ZArith List Lia Bool Floats Uint63.
From stdpp Require Import gmap strings.

Open Scope Z_scope.

(** ** Machine integers *)

Definition int64_min : Z := - 2 ^ 63.
Definition int64_max : Z := 2 ^ 63 - 1.

Definition in_int64 (z : Z) : Prop := int64_min <= z <= int64_max.

(** The value an [int64] computation yields for the mathematical result [z]. *)
Definition int64 (z : Z) : Z := (z + 2 ^ 63) mod 2 ^ 64 - 2 ^ 63.

(** Likewise for [uint32]. *)
Definition uint32 (z : Z) : Z := z mod 2 ^ 32.

Definition int64_mul (a b : Z) : Z := int64 (a * b).
Definition uint32_add (a b : Z) : Z := uint32 (a + b).

(** ** Floating point *)

(** [float64(z)] for an integer [z]. *)
Definition float64_of_Z (z : Z) : float :=
  SF2Prim (binary_normalize prec emax z 0 false).

(** The floats that are numbers at or above zero: plus zero, the positive
    finite numbers and plus infinity. *)
Definition nonneg_float (x : spec_float) : Prop :=
  x = S754_zero false \/ (exists m e, x = S754_finite false m e)
  \/ x = S754_infinity false.

(** The floats above zero: the positive finite numbers and plus infinity. *)
Definition positive_float (x : spec_float) : Prop :=
  (exists m e, x = S754_finite false m e) \/ x = S754_infinity false.

(** The floats that carry the minus sign: minus zero, the negative finite
    numbers and minus infinity. *)
Definition negative_float (x : spec_float) : Prop :=
  x = S754_zero true \/ (exists m e, x = S754_finite true m e)
  \/ x = S754_infinity true.

(** The positive finite floats [m * 2^e] whose magnitude, the number of
    binary digits of [m] plus [e], lies between [lo] and [hi]: those in
    the interval from [2^(lo-1)] to [2^hi]. *)
Definition magnitude_in (lo hi : Z) (x : spec_float) : Prop :=
  exists m e,
    x = S754_finite false m e /\ lo <= Z.pos (digits2_pos m) + e <= hi.

(** The floats that are finite numbers at or above zero; [encoding/json]
    refuses a NaN and the infinities. *)
Definition finite_nonneg (x : float) : bool :=
  (0 <=? x)%float && (x <? infinity)%float.

(** ** Time (package [time]) *)

Definition Duration : Type := Z.
Definition Time : Type := Z.

Definition Second : Duration := 1000000000.
Definition Minute : Duration := 60 * Second.

(** [t.Sub(u)]: the difference, saturated to the range of [Duration]. *)
Definition Sub (t u : Time) : Duration :=
  Z.max int64_min (Z.min int64_max (t - u)).

(** [time.Since(t)] when the clock reads [now]. *)
Definition Since (now t : Time) : Duration := Sub now t.

(** [d.Seconds()]: integer division truncates towards zero in Go. *)
Definition Seconds (d : Duration) : float :=
  (float64_of_Z (Z.quot d Second) + float64_of_Z (Z.rem d Second) / 1000000000)%float.

(** ** Configuration *)

(** Modelled from the spec: the configuration tuple
    {interval (seconds), destination URL}. The declaration of type [Report]
    is not among the sources; [config.Interval] is converted with
    [time.Duration(...)], and is taken to be a Go [int] (64 bits). *)
Record Report : Type := mkReport {
  Interval : Z;
  URL : string
}.

(** ** The counter store *)

(** Modelled from the spec: the counter store with total bytes and packets
    sent, a mapping source-IP -> cumulative stats and a mapping
    target-key -> opaque stats. The declarations of [Stats], [SourceStats]
    and [TargetStats] are not among the sources; the fields are the ones
    [generateReport] reads, the counters being [int64]. *)
Record SourceStats : Type := mkSourceStats {
  BytesSent : Z;
  PacketsSent : Z;
  BandwidthMbps : float;
  LastActive : Time
}.

(** A [*TargetStats]: the reporter passes the references on and never looks
    behind them. *)
Definition TargetStatsRef : Type := N.

Record Stats : Type := mkStats {
  bytesSent : Z;
  packetsSent : Z;
  sourceIPStats : gmap string SourceStats;
  targetStats : gmap string TargetStatsRef
}.

(** The anonymous struct of [ReportData.TotalStats]; the fields carry their
    JSON names, which tell them apart from those of [SourceStats]. *)
Record TotalStats : Type := mkTotalStats {
  bytes_sent : Z;
  packets_sent : Z;
  bandwidth_mbps : float;
  uptime_seconds : float
}.

(** ** The Go runtime, as the sampler reads it *)

(** The fields of [runtime.MemStats] that [collectSystemStats] reads.
    [PauseNs] is the [[256]uint64] circular buffer of recent pauses. *)
Record MemStats : Type := mkMemStats {
  Alloc : Z;
  Sys : Z;
  NumGC : Z;
  PauseNs : list Z
}.

Record Runtime : Type := mkRuntime {
  ReadMemStats : MemStats;
  NumCPU : Z;
  NumGoroutine : Z
}.

(** A [MemStats] as the runtime hands it out. *)
Definition wf_MemStats (m : MemStats) : Prop :=
  0 <= NumGC m < 2 ^ 32 /\ length (PauseNs m) = 256%nat.

(** [a[i]] on the pause buffer. *)
Definition index (a : list Z) (i : Z) : Z := nth (Z.to_nat i) a 0.

(** ** Effects *)

Inductive lock : Type :=
| stats_mu          (* r.stats.mu *)
| cpuCacheMutex.    (* r.cpuCacheMutex *)

Inductive level : Type := DebugLevel | InfoLevel | WarnLevel | ErrorLevel.

(** The log lines of the reporter, each with the arguments of its format
    string ([formatBytes] and [formatNumber] only render them). *)
Inductive line : Type :=
| StartedLine (remote : bool)
| StoppedLine
| ReportHeaderLine
| TotalsLine (bytes packets : Z) (bandwidth uptime : float)
| SourceLine (ip : string) (bytes : Z) (bandwidth : float) (packets : Z)
| SystemLine (cpu mem usedMB totalMB : float) (goroutines gc : Z)
| LegacySystemLine (cpus : Z) (usedMB totalMB : float) (goroutines gc : Z)
| MarshalFailedLine
| RequestFailedLine
| SendFailedLine
| SendOKLine (status : Z)
| SendAbnormalLine (status : Z).

(** The effects of a tick; [D] is the type of the report document, which
    stands for its JSON encoding in [Marshal] and [HTTPPost]. *)
Inductive event (D : Type) : Type :=
| RLock (l : lock)
| RUnlock (l : lock)
| Lock (l : lock)
| Unlock (l : lock)
| ReadStats                    (* a read of the counter store *)
| ReadCache                    (* a read of r.lastCPUTime, r.lastCPUStats *)
| WriteCache                   (* the assignment of both *)
| ReadRuntime                  (* runtime.ReadMemStats, NumCPU, NumGoroutine *)
| Marshal (doc : D)
| HTTPPost (url : string) (body : D)
| Log (lv : level) (ln : line).

Arguments RLock {D} l.
Arguments RUnlock {D} l.
Arguments Lock {D} l.
Arguments Unlock {D} l.
Arguments ReadStats {D}.
Arguments ReadCache {D}.
Arguments WriteCache {D}.
Arguments ReadRuntime {D}.
Arguments Marshal {D} doc.
Arguments HTTPPost {D} url body.
Arguments Log {D} lv ln.

(** What [httpClient.Do] and the request construction before it come to. *)
Inductive http_result : Type :=
| RequestError                 (* http.NewRequestWithContext failed *)
| TransportError               (* httpClient.Do returned an error *)
| Response (StatusCode : Z).

(** What a tick reads from its environment: the clock at each place the
    code reads it, the runtime, whether [json.MarshalIndent] encodes the
    document, and the outcome of the HTTP exchange. *)
Record Tick (D : Type) : Type := mkTick {
  clock_uptime : Time;       (* time.Since(r.startTime) *)
  clock_cache : Time;        (* time.Since(r.lastCPUTime) *)
  runtime : Runtime;
  clock_store : Time;        (* r.lastCPUTime = time.Now() *)
  clock_stamp : Time;        (* Timestamp: time.Now() *)
  marshals : D -> bool;
  http : http_result
}.

Arguments mkTick {D}.
Arguments clock_uptime {D}.
Arguments clock_cache {D}.
Arguments runtime {D}.
Arguments clock_store {D}.
Arguments clock_stamp {D}.
Arguments marshals {D}.
Arguments http {D}.

(** The tick [env] with another outcome of the HTTP exchange. *)
Definition with_http {D : Type} (env : Tick D) (res : http_result) : Tick D :=
  {| clock_uptime := clock_uptime env;
     clock_cache := clock_cache env;
     runtime := runtime env;
     clock_store := clock_store env;
     clock_stamp := clock_stamp env;
     marshals := marshals env;
     http := res |}.

(** ** The reporter ([reporter.go]) *)

Record SystemStats : Type := mkSystemStats {
  CPUUsage : float;
  MemoryUsage : float;
  CPUCount : Z;
  MemoryUsageMB : float;
  MemoryTotalMB : float;
  GoroutineCount : Z;
  GCCount : Z;
  GCPauseMs : float
}.

(** [ReportData]; the fields carry their JSON names. *)
Record ReportData : Type := mkReportData {
  timestamp : Time;
  management_ip : string;
  total_stats : TotalStats;
  source_ip_stats : gmap string SourceStats;
  target_stats : gmap string TargetStatsRef;
  system_stats : SystemStats
}.

(** The fields of [Reporter] that hold data. The counter store [stats] is
    shared with the senders and is an argument of [generateReport]; the
    logger and the HTTP client show in the events; [ctx], [cancel] and [wg]
    are the subject of the life cycle further down. *)
Record Reporter : Type := mkReporter {
  interval : Duration;
  startTime : Time;
  reportURL : string;
  managementIP : string;
  lastCPUTime : Time;
  lastCPUStats : SystemStats
}.

(** The zero value of [SystemStats]. *)
Definition zeroSystemStats : SystemStats :=
  mkSystemStats 0 0 0 0 0 0 0 0.

(** [NewReporter(config, stats, logger, managementIP)], the clock reading
    [now]. The cache fields start at their zero values. *)
Definition NewReporter (config : Report) (now : Time) (managementIP : string)
  : Reporter :=
  let interval := int64_mul (Interval config) Second in
  let interval := if interval <=? 0 then int64_mul 10 Minute else interval in
  {| interval := interval;
     startTime := now;
     reportURL := URL config;
     managementIP := managementIP;
     lastCPUTime := 0;
     lastCPUStats := zeroSystemStats |}.

(** The sample that [collectSystemStats] computes when the cache is stale. *)
Definition sampleSystemStats (rt : Runtime) : SystemStats :=
  let memStats := ReadMemStats rt in
  let numCPU := NumCPU rt in
  let numGoroutine := NumGoroutine rt in
  let cpuUsage := (float64_of_Z numGoroutine / float64_of_Z numCPU * 10)%float in
  let cpuUsage := if (100 <? cpuUsage)%float then 100%float else cpuUsage in
  let cpuUsage := if (cpuUsage <? 0)%float then 0%float else cpuUsage in
  let memoryUsageMB := (float64_of_Z (Alloc memStats) / 1024 / 1024)%float in
  let memoryTotalMB := (float64_of_Z (Sys memStats) / 1024 / 1024)%float in
  let memoryUsage := (memoryUsageMB / memoryTotalMB * 100)%float in
  let gcPauseMs :=
    if 0 <? NumGC memStats
    then (float64_of_Z
            (index (PauseNs memStats) (uint32_add (NumGC memStats) 255 mod 256))
          / 1000000)%float
    else 0%float in
  {| CPUUsage := cpuUsage;
     MemoryUsage := memoryUsage;
     CPUCount := numCPU;
     MemoryUsageMB := memoryUsageMB;
     MemoryTotalMB := memoryTotalMB;
     GoroutineCount := numGoroutine;
     GCCount := NumGC memStats;
     GCPauseMs := gcPauseMs |}.

(** [r.collectSystemStats()]: the sample, the reporter with its cache
    fields as the call leaves them, and the events of the call. *)
Definition collectSystemStats {D : Type} (r : Reporter) (env : Tick D)
  : SystemStats * Reporter * list (event D) :=
  if Since (clock_cache env) (lastCPUTime r) <? 30 * Second
  then (lastCPUStats r, r,
        [RLock cpuCacheMutex; ReadCache; RUnlock cpuCacheMutex])
  else
    let stats := sampleSystemStats (runtime env) in
    (stats,
     {| interval := interval r;
        startTime := startTime r;
        reportURL := reportURL r;
        managementIP := managementIP r;
        lastCPUTime := clock_store env;
        lastCPUStats := stats |},
     [RLock cpuCacheMutex; ReadCache; RUnlock cpuCacheMutex; ReadRuntime;
      Lock cpuCacheMutex; WriteCache; Unlock cpuCacheMutex]).

(** [r.sendToRemote(data)]. *)
Definition sendToRemote {D : Type} (r : Reporter) (data : D) (res : http_result)
  : list (event D) :=
  match res with
  | RequestError => [Log ErrorLevel RequestFailedLine]
  | TransportError =>
      [HTTPPost (reportURL r) data; Log ErrorLevel SendFailedLine]
  | Response StatusCode =>
      [HTTPPost (reportURL r) data;
       if (200 <=? StatusCode) && (StatusCode <? 300)
       then Log DebugLevel (SendOKLine StatusCode)
       else Log WarnLevel (SendAbnormalLine StatusCode)]
  end.

(** The loop of [generateReport] that fills the per-source map of the report. *)
Definition copySourceIPStats (uptime : float) (m : gmap string SourceStats)
  : gmap string SourceStats :=
  map_fold
    (fun ip stats sourceIPStats =>
       let ipBandwidth :=
         if (0 <? uptime)%float && (0 <? BytesSent stats)
         then (float64_of_Z (int64_mul (BytesSent stats) 8) / (uptime * 1000000))%float
         else 0%float in
       <[ip := {| BytesSent := BytesSent stats;
                  PacketsSent := PacketsSent stats;
                  BandwidthMbps := ipBandwidth;
                  LastActive := LastActive stats |}]> sourceIPStats)
    ∅ m.

(** The lines that [generateReport] logs once the document is encoded. The
    order of the per-source lines is the order of Go's map iteration,
    which is not specified; here it is the order of [map_to_list]. *)
Definition reportLines (reportData : ReportData) : list line :=
  [ReportHeaderLine;
   TotalsLine (bytes_sent (total_stats reportData))
              (packets_sent (total_stats reportData))
              (bandwidth_mbps (total_stats reportData))
              (uptime_seconds (total_stats reportData))]
  ++ map (fun '(ip, stats) =>
            SourceLine ip (BytesSent stats) (BandwidthMbps stats) (PacketsSent stats))
         (map_to_list (source_ip_stats reportData))
  ++ [SystemLine (CPUUsage (system_stats reportData))
                 (MemoryUsage (system_stats reportData))
                 (MemoryUsageMB (system_stats reportData))
                 (MemoryTotalMB (system_stats reportData))
                 (GoroutineCount (system_stats reportData))
                 (GCCount (system_stats reportData))].

(** [r.generateReport()] on the counter store [st]: the report document it
    builds, the reporter as the call leaves it, and the events of the call.
    The store is read for the total bandwidth before the sample is taken,
    and again for the per-source map, the totals and the target map after
    it. [defer r.stats.mu.RUnlock()] puts the release last on every path. *)
Definition generateReport (r : Reporter) (st : Stats) (env : Tick ReportData)
  : ReportData * Reporter * list (event ReportData) :=
  let uptime := Seconds (Since (clock_uptime env) (startTime r)) in
  let totalBandwidth :=
    if (0 <? uptime)%float
    then (float64_of_Z (int64_mul (bytesSent st) 8) / (uptime * 1000000))%float
    else 0%float in
  let '(systemStats, r', sampling) := collectSystemStats r env in
  let sourceIPStats := copySourceIPStats uptime (sourceIPStats st) in
  let reportData :=
    {| timestamp := clock_stamp env;
       management_ip := managementIP r;
       total_stats :=
         {| bytes_sent := bytesSent st;
            packets_sent := packetsSent st;
            bandwidth_mbps := totalBandwidth;
            uptime_seconds := uptime |};
       source_ip_stats := sourceIPStats;
       target_stats := targetStats st;
       system_stats := systemStats |} in
  let rest :=
    if marshals env reportData
    then (if String.eqb (reportURL r) EmptyString then []
          else sendToRemote r reportData (http env))
         ++ map (Log InfoLevel) (reportLines reportData)
    else [Log ErrorLevel MarshalFailedLine] in
  (reportData, r',
   [RLock stats_mu; ReadStats] ++ sampling ++ [ReadStats; Marshal reportData]
   ++ rest ++ [RUnlock stats_mu]).

(** ** The older reporter (the second source file)

    The same file before the management IP, the CPU and memory percentages,
    the sample cache and the guard on the pause buffer were added. *)

Module Legacy.

Record SystemStats : Type := mkSystemStats {
  CPUCount : Z;
  MemoryUsageMB : float;
  MemoryTotalMB : float;
  GoroutineCount : Z;
  GCCount : Z;
  GCPauseMs : float
}.

Record ReportData : Type := mkReportData {
  timestamp : Time;
  total_stats : TotalStats;
  source_ip_stats : gmap string SourceStats;
  target_stats : gmap string TargetStatsRef;
  system_stats : SystemStats
}.

Record Reporter : Type := mkReporter {
  interval : Duration;
  startTime : Time;
  reportURL : string
}.

Definition NewReporter (config : Report) (now : Time) : Reporter :=
  let interval := int64_mul (Interval config) Second in
  let interval := if interval <=? 0 then int64_mul 10 Minute else interval in
  {| interval := interval;
     startTime := now;
     reportURL := URL config |}.

(** [r.collectSystemStats()]: no cache, and the pause buffer is read at
    [NumGC % 256] whatever [NumGC] is. *)
Definition collectSystemStats (rt : Runtime) : SystemStats :=
  let memStats := ReadMemStats rt in
  {| CPUCount := NumCPU rt;
     MemoryUsageMB := (float64_of_Z (Alloc memStats) / 1024 / 1024)%float;
     MemoryTotalMB := (float64_of_Z (Sys memStats) / 1024 / 1024)%float;
     GoroutineCount := NumGoroutine rt;
     GCCount := NumGC memStats;
     GCPauseMs :=
       (float64_of_Z (index (PauseNs memStats) (NumGC memStats mod 256))
        / 1000000)%float |}.

Definition sendToRemote {D : Type} (r : Reporter) (data : D) (res : http_result)
  : list (event D) :=
  match res with
  | RequestError => [Log ErrorLevel RequestFailedLine]
  | TransportError =>
      [HTTPPost (reportURL r) data; Log ErrorLevel SendFailedLine]
  | Response StatusCode =>
      [HTTPPost (reportURL r) data;
       if (200 <=? StatusCode) && (StatusCode <? 300)
       then Log DebugLevel (SendOKLine StatusCode)
       else Log WarnLevel (SendAbnormalLine StatusCode)]
  end.

Definition copySourceIPStats (uptime : float) (m : gmap string SourceStats)
  : gmap string SourceStats :=
  map_fold
    (fun ip stats sourceIPStats =>
       let ipBandwidth :=
         if (0 <? uptime)%float && (0 <? BytesSent stats)
         then (float64_of_Z (int64_mul (BytesSent stats) 8) / (uptime * 1000000))%float
         else 0%float in
       <[ip := {| BytesSent := BytesSent stats;
                  PacketsSent := PacketsSent stats;
                  BandwidthMbps := ipBandwidth;
                  LastActive := LastActive stats |}]> sourceIPStats)
    ∅ m.

Definition reportLines (reportData : ReportData) : list line :=
  [ReportHeaderLine;
   TotalsLine (bytes_sent (total_stats reportData))
              (packets_sent (total_stats reportData))
              (bandwidth_mbps (total_stats reportData))
              (uptime_seconds (total_stats reportData))]
  ++ map (fun '(ip, stats) =>
            SourceLine ip (BytesSent stats) (BandwidthMbps stats) (PacketsSent stats))
         (map_to_list (source_ip_stats reportData))
  ++ [LegacySystemLine (CPUCount (system_stats reportData))
                       (MemoryUsageMB (system_stats reportData))
                       (MemoryTotalMB (system_stats reportData))
                       (GoroutineCount (system_stats reportData))
                       (GCCount (system_stats reportData))].

Definition generateReport (r : Reporter) (st : Stats) (env : Tick ReportData)
  : ReportData * list (event ReportData) :=
  let uptime := Seconds (Since (clock_uptime env) (startTime r)) in
  let totalBandwidth :=
    if (0 <? uptime)%float
    then (float64_of_Z (int64_mul (bytesSent st) 8) / (uptime * 1000000))%float
    else 0%float in
  let systemStats := collectSystemStats (runtime env) in
  let sourceIPStats := copySourceIPStats uptime (sourceIPStats st) in
  let reportData :=
    {| timestamp := clock_stamp env;
       total_stats :=
         {| bytes_sent := bytesSent st;
            packets_sent := packetsSent st;
            bandwidth_mbps := totalBandwidth;
            uptime_seconds := uptime |};
       source_ip_stats := sourceIPStats;
       target_stats := targetStats st;
       system_stats := systemStats |} in
  let rest :=
    if marshals env reportData
    then (if String.eqb (reportURL r) EmptyString then []
          else sendToRemote r reportData (http env))
         ++ map (Log InfoLevel) (reportLines reportData)
    else [Log ErrorLevel MarshalFailedLine] in
  (reportData,
   [RLock stats_mu; ReadStats; ReadRuntime; ReadStats; Marshal reportData]
   ++ rest ++ [RUnlock stats_mu]).

End Legacy.

(** ** Locks along a list of events *)

Definition lock_eqb (a b : lock) : bool :=
  match a, b with
  | stats_mu, stats_mu | cpuCacheMutex, cpuCacheMutex => true
  | _, _ => false
  end.

(** Whether [e] takes or releases the shared mode of [l]. *)
Definition rlock_op {D : Type} (l : lock) (e : event D) : bool :=
  match e with
  | RLock l' | RUnlock l' => lock_eqb l l'
  | _ => false
  end.

(** Whether the shared mode of [l] is held after [e], when [held] says
    whether it was before. *)
Definition rheld_after {D : Type} (l : lock) (held : bool) (e : event D) : bool :=
  match e with
  | RLock l' => if lock_eqb l l' then true else held
  | RUnlock l' => if lock_eqb l l' then false else held
  | _ => held
  end.

(** The events of [tr] that happen while the shared mode of [l] is held. *)
Fixpoint during_rlock {D : Type} (l : lock) (held : bool) (tr : list (event D))
  : list (event D) :=
  match tr with
  | [] => []
  | e :: tr' =>
      if held && negb (rlock_op l e)
      then e :: during_rlock l (rheld_after l held e) tr'
      else during_rlock l (rheld_after l held e) tr'
  end.

(** The events of [tr] between [Lock l] and [Unlock l]. *)
Fixpoint during_lock {D : Type} (l : lock) (held : bool) (tr : list (event D))
  : list (event D) :=
  match tr with
  | [] => []
  | Lock l' :: tr' =>
      if lock_eqb l l' then during_lock l true tr'
      else if held then Lock l' :: during_lock l held tr' else during_lock l held tr'
  | Unlock l' :: tr' =>
      if lock_eqb l l' then during_lock l false tr'
      else if held then Unlock l' :: during_lock l held tr' else during_lock l held tr'
  | e :: tr' =>
      if held then e :: during_lock l held tr' else during_lock l held tr'
  end.

(** Serialization, delivery and log emission: what the specification wants
    outside the counter store's lock. *)
Definition is_output {D : Type} (e : event D) : bool :=
  match e with
  | Marshal _ | HTTPPost _ _ | Log _ _ => true
  | _ => false
  end.

Definition is_post {D : Type} (e : event D) : bool :=
  match e with
  | HTTPPost _ _ => true
  | _ => false
  end.

Definition level_eqb (a b : level) : bool :=
  match a, b with
  | DebugLevel, DebugLevel | InfoLevel, InfoLevel
  | WarnLevel, WarnLevel | ErrorLevel, ErrorLevel => true
  | _, _ => false
  end.

(** The lines logged at level [lv], in order. *)
Definition logged {D : Type} (lv : level) (tr : list (event D)) : list line :=
  omap (fun e => match e with
                 | Log lv' ln => if level_eqb lv lv' then Some ln else None
                 | _ => None
                 end) tr.

(** The documents posted, in order. *)
Definition posted {D : Type} (tr : list (event D)) : list D :=
  omap (fun e => match e with HTTPPost _ body => Some body | _ => None end) tr.

(** ** Lock discipline

    What one goroutine may do with the two locks of the reporter, both
    [sync.RWMutex]: take a lock it does not hold (a second [RLock] or a
    [Lock] on a lock it already holds can block for ever), release a lock
    only in the mode in which it holds it (anything else is a fatal error
    of the Go runtime), read the counter store only while [stats.mu] is
    held, read the sample cache only while [cpuCacheMutex] is held and
    write it only while [cpuCacheMutex] is held exclusively. *)

Inductive mode : Type := Free | Shared | Exclusive.

Record held : Type := mkHeld {
  held_stats_mu : mode;
  held_cpuCacheMutex : mode
}.







(** ** The life cycle: [Start], [Stop] and [reportLoop]

    The caller runs [r.Start(); r.Stop()]; [Start] spawns the goroutine of
    [reportLoop]. A [world] is the state both see; an [action] is one step
    of the caller, of the goroutine or of the ticker, and [exec] is its
    effect, [None] when the step cannot be taken in that state (a
    goroutine that is elsewhere, [wg.Wait()] while the counter is not
    zero, a receive from an empty channel). The interleavings of the
    program are the lists of actions that [run] accepts. *)

Inductive caller_pc : Type :=
| BeforeStart
| InStart        (* after [go r.reportLoop()], before the log line of Start *)
| Started        (* Start has returned *)
| InWait         (* in Stop, after [r.cancel()], at [r.wg.Wait()] *)
| AfterWait      (* in Stop, [r.wg.Wait()] has returned *)
| Stopped.       (* Stop has returned *)

Inductive loop_pc : Type :=
| NoGoroutine
| Entered        (* before [time.NewTicker] *)
| AtSelect
| InReport       (* [case <-ticker.C] taken, in [r.generateReport()] *)
| Returned.      (* the deferred [ticker.Stop()] and [r.wg.Done()] have run *)

Record world : Type := mkWorld {
  caller : caller_pc;
  loop : loop_pc;
  cancelled : bool;          (* r.ctx is done *)
  wg : Z;                    (* the counter of r.wg *)
  ticking : bool;            (* the ticker runs *)
  tick_ready : bool;         (* ticker.C, a channel of capacity 1, is full *)
  reporter : Reporter;
  output : list (event ReportData)
}.

Inductive action : Type :=
| CallStart                  (* Start: r.wg.Add(1); go r.reportLoop() *)
| LogStarted                 (* Start: r.logger.Infof *)
| CallCancel                 (* Stop: r.cancel() *)
| WaitReturns                (* Stop: r.wg.Wait() returns *)
| LogStopped                 (* Stop: r.logger.Info *)
| NewTicker                  (* reportLoop: time.NewTicker(r.interval) *)
| TickArrives                (* the ticker sends on ticker.C *)
| SelectDone                 (* reportLoop: case <-r.ctx.Done(): return *)
| SelectTick                 (* reportLoop: case <-ticker.C *)
| GenerateReport (st : Stats) (env : Tick ReportData).   (* r.generateReport() *)

Definition caller_pc_eqb (a b : caller_pc) : bool :=
  match a, b with
  | BeforeStart, BeforeStart | InStart, InStart | Started, Started
  | InWait, InWait | AfterWait, AfterWait | Stopped, Stopped => true
  | _, _ => false
  end.

Definition loop_pc_eqb (a b : loop_pc) : bool :=
  match a, b with
  | NoGoroutine, NoGoroutine | Entered, Entered | AtSelect, AtSelect
  | InReport, InReport | Returned, Returned => true
  | _, _ => false
  end.

Definition with_caller (w : world) (pc : caller_pc) : world :=
  mkWorld pc (loop w) (cancelled w) (wg w) (ticking w) (tick_ready w)
          (reporter w) (output w).

Definition with_loop (w : world) (pc : loop_pc) : world :=
  mkWorld (caller w) pc (cancelled w) (wg w) (ticking w) (tick_ready w)
          (reporter w) (output w).

Definition exec (w : world) (a : action) : option world :=
  match a with
  | CallStart =>
      if caller_pc_eqb (caller w) BeforeStart
      then Some (mkWorld InStart Entered (cancelled w) (wg w + 1) (ticking w)
                         (tick_ready w) (reporter w) (output w))
      else None
  | LogStarted =>
      if caller_pc_eqb (caller w) InStart
      then Some (mkWorld Started (loop w) (cancelled w) (wg w) (ticking w)
                         (tick_ready w) (reporter w)
                         (output w ++ [Log InfoLevel
                            (StartedLine
                               (negb (String.eqb (reportURL (reporter w)) EmptyString)))]))
      else None
  | CallCancel =>
      if caller_pc_eqb (caller w) Started
      then Some (mkWorld InWait (loop w) true (wg w) (ticking w)
                         (tick_ready w) (reporter w) (output w))
      else None
  | WaitReturns =>
      if caller_pc_eqb (caller w) InWait && (wg w =? 0)
      then Some (with_caller w AfterWait)
      else None
  | LogStopped =>
      if caller_pc_eqb (caller w) AfterWait
      then Some (mkWorld Stopped (loop w) (cancelled w) (wg w) (ticking w)
                         (tick_ready w) (reporter w)
                         (output w ++ [Log InfoLevel StoppedLine]))
      else None
  | NewTicker =>
      if loop_pc_eqb (loop w) Entered
      then Some (mkWorld (caller w) AtSelect (cancelled w) (wg w) true
                         (tick_ready w) (reporter w) (output w))
      else None
  | TickArrives =>
      if ticking w && negb (tick_ready w)
      then Some (mkWorld (caller w) (loop w) (cancelled w) (wg w) (ticking w)
                         true (reporter w) (output w))
      else None
  | SelectDone =>
      if loop_pc_eqb (loop w) AtSelect && cancelled w
      then Some (mkWorld (caller w) Returned (cancelled w) (wg w - 1) false
                         (tick_ready w) (reporter w) (output w))
      else None
  | SelectTick =>
      if loop_pc_eqb (loop w) AtSelect && tick_ready w
      then Some (mkWorld (caller w) InReport (cancelled w) (wg w) (ticking w)
                         false (reporter w) (output w))
      else None
  | GenerateReport st env =>
      if loop_pc_eqb (loop w) InReport
      then Some (mkWorld (caller w) AtSelect (cancelled w) (wg w) (ticking w)
                         (tick_ready w)
                         (generateReport (reporter w) st env).1.2
                         (output w ++ (generateReport (reporter w) st env).2))
      else None
  end.

Fixpoint run (w : world) (acts : list action) : option world :=
  match acts with
  | [] => Some w
  | a :: acts' =>
      match exec w a with
      | Some w' => run w' acts'
      | None => None
      end
  end.

(** The world in which the caller holds a fresh reporter. *)
Definition boot (r : Reporter) : world :=
  mkWorld BeforeStart NoGoroutine false 0 false false r [].

Definition is_tick (a : action) : bool :=
  match a with
  | TickArrives => true
  | _ => false
  end.

(** What holds of every world the program reaches: where the caller is
    tells where the goroutine can be and whether the context is cancelled;
    the counter of [wg] is 1 exactly while the goroutine lives; the ticker
    runs exactly between [time.NewTicker] and the deferred [ticker.Stop()]. *)
Definition well_formed (w : world) : Prop :=
  match caller w with
  | BeforeStart => loop w = NoGoroutine /\ cancelled w = false
  | InStart | Started =>
      (loop w = Entered \/ loop w = AtSelect \/ loop w = InReport)
      /\ cancelled w = false
  | InWait => loop w <> NoGoroutine /\ cancelled w = true
  | AfterWait | Stopped => loop w = Returned /\ cancelled w = true
  end
  /\ wg w = match loop w with NoGoroutine | Returned => 0 | _ => 1 end
  /\ ticking w = match loop w with AtSelect | InReport => true | _ => false end
  /\ match loop w with
     | NoGoroutine | Entered => tick_ready w = false
     | _ => True
     end.

(** The events that only [generateReport] produces. *)
Definition is_report_event {D : Type} (e : event D) : bool :=
  match e with
  | Log _ (StartedLine _) | Log _ StoppedLine => false
  | _ => true
  end.

(** ** Ticks and reports *)

Definition is_marshal {D : Type} (e : event D) : bool :=
  match e with
  | Marshal _ => true
  | _ => false
  end.

Definition is_report (a : action) : bool :=
  match a with
  | GenerateReport _ _ => true
  | _ => false
  end.

(** The ticks that have arrived and are not reported yet: one in the
    channel of the ticker, one that [select] has taken. *)
Definition pending (w : world) : nat :=
  ((if tick_ready w then 1 else 0)
   + (if loop_pc_eqb (loop w) InReport then 1 else 0))%nat.

(** The fields of the reporter that are set once, by [NewReporter]. *)
Definition same_config (r r' : Reporter) : Prop :=
  interval r' = interval r
  /\ startTime r' = startTime r
  /\ reportURL r' = reportURL r
  /\ managementIP r' = managementIP r.

Definition nat_of_bool (b : bool) : nat := if b then 1%nat else 0%nat.

(** The lines of [Start] and [Stop] that the program has logged when the
    caller is at [pc]. *)
Definition life_cycle_lines (r : Reporter) (pc : caller_pc)
  : list (event ReportData) :=
  match pc with
  | BeforeStart | InStart => []
  | Started | InWait | AfterWait =>
      [Log InfoLevel (StartedLine (negb (String.eqb (reportURL r) EmptyString)))]
  | Stopped =>
      [Log InfoLevel (StartedLine (negb (String.eqb (reportURL r) EmptyString)));
       Log InfoLevel StoppedLine]
  end.

(** ** Samples that can be encoded *)

(** A sample all of whose floats are finite numbers at or above zero. *)
Definition finite_sample (s : SystemStats) : Prop :=
  finite_nonneg (CPUUsage s) = true
  /\ finite_nonneg (MemoryUsage s) = true
  /\ finite_nonneg (MemoryUsageMB s) = true
  /\ finite_nonneg (MemoryTotalMB s) = true
  /\ finite_nonneg (GCPauseMs s) = true.

(** ** The specification's own definitions *)

(** [clamp(x, lo, hi)] as the specification uses it for the CPU estimate:
    [lo] for a value below [lo], [hi] for a value above [hi], the value
    itself in between. *)
Definition clamp (x lo hi : float) : float :=
  if (x <? lo)%float then lo
  else if (hi <? x)%float then hi
  else x.

(** cpuUsageEstimate = clamp(concurrentTaskCount / coreCount x 10.0, 0, 100). *)
Definition cpuUsageEstimate (concurrentTaskCount coreCount : Z) : float :=
  clamp (float64_of_Z concurrentTaskCount / float64_of_Z coreCount * 10)%float 0 100.

(** ** The pause buffer *)

(** The slots of the pause buffer that a collection has written. The
    specification has the buffer "indexed modulo capacity by cycle count",
    and the documentation of [runtime.MemStats] has the most recent pause
    at [PauseNs[(NumGC+255)%256]]: cycle [k] (counted from 1) writes slot
    [(k-1) mod 256], so after [numGC] cycles the slots written are those
    below [min numGC 256]. *)
Definition initialized (numGC i : Z) : bool :=
  (0 <=? i) && (i <? Z.min numGC 256).

(** A sample that reports no pause when it reports no collection. *)
Definition gc_consistent (s : SystemStats) : Prop :=
  GCCount s = 0 -> GCPauseMs s = 0%float.

(** ** Runs without a tick *)

(** A world in which no tick has arrived and no report was made. *)
Definition quiet (w : world) : Prop :=
  tick_ready w = false
  /\ loop w <> InReport
  /\ List.filter is_report_event (output w) = [].

(** The steps that the caller and the goroutine still have to take when no
    tick arrives. *)
Definition remaining (w : world) : nat :=
  match caller w with
  | BeforeStart => 5
  | InStart => 4
  | Started => 3
  | InWait => 2
  | AfterWait => 1
  | Stopped => 0
  end
  + match loop w with
    | NoGoroutine | Entered => 2
    | AtSelect | InReport => 1
    | Returned => 0
    end.

Definition no_tick (acts : list action) : bool :=
  forallb (fun a => negb (is_tick a)) acts.

(** ** Inputs for the examples

    A clock reading of 1 January 2026 (in nanoseconds since the zero
    [time.Time]), a runtime with 4 cores, 8 goroutines and no collection
    yet, and ticks that read the clock [dt] nanoseconds later. *)

Definition year2026 : Time := 63902822400 * Second.

Definition idleMemStats : MemStats :=
  mkMemStats 1048576 4194304 0 (repeat 0 256).

Definition idleRuntime : Runtime := mkRuntime idleMemStats 4 8.

Definition tickAt (dt : Z) (rt : Runtime) (res : http_result) : Tick ReportData :=
  mkTick (year2026 + dt) (year2026 + dt) rt (year2026 + dt) (year2026 + dt)
         (fun _ => true) res.

(** The runtime later on: 16 goroutines, 3 collections, the last of which
    paused for 2500000 ns. *)
Definition busyMemStats : MemStats :=
  mkMemStats 2097152 4194304 3 ([1000000; 1500000; 2500000] ++ repeat 0 253).

Definition busyRuntime : Runtime := mkRuntime busyMemStats 4 16.

(** A tick on which [json.MarshalIndent] returns an error ([encoding/json]
    rejects a NaN or an infinity, for instance one behind the opaque
    target stats). *)
Definition unencodableTick (dt : Z) (rt : Runtime) : Tick ReportData :=
  mkTick (year2026 + dt) (year2026 + dt) rt (year2026 + dt) (year2026 + dt)
         (fun _ => false) (Response 200).

(** A reporter that logs only, and one that also posts to a collector. *)
Definition localReporter : Reporter :=
  NewReporter (mkReport 1 "") year2026 "10.0.0.1".

Definition remoteReporter : Reporter :=
  NewReporter (mkReport 1 "http://collector/report") year2026 "10.0.0.1".

(** The logging reporter after a first tick at the very start, which
    filled the sample cache from the idle runtime. *)
Definition sampledReporter : Reporter :=
  (collectSystemStats localReporter (tickAt 0 idleRuntime (Response 200))).1.2.

(** The same for the older reporter. *)
Definition legacyReporter : Legacy.Reporter :=
  Legacy.NewReporter (mkReport 1 "") year2026.

Definition legacyTickAt (dt : Z) (rt : Runtime) (res : http_result)
  : Tick Legacy.ReportData :=
  mkTick (year2026 + dt) (year2026 + dt) rt (year2026 + dt) (year2026 + dt)
         (fun _ => true) res.

(** [Start] at once followed by [Stop], in one of its interleavings with
    the goroutine, and the world it ends in. *)
Definition startThenStop : list action :=
  [CallStart; LogStarted; NewTicker; CallCancel; SelectDone; WaitReturns;
   LogStopped].

Definition stoppedWorld : world :=
  mkWorld Stopped Returned true 0 false false localReporter
          [Log InfoLevel (StartedLine false); Log InfoLevel StoppedLine].

(** The store of the specification's scenario: 125000 bytes in 100
    packets, all from one source; a second source has sent nothing yet. *)
Definition scenarioStats : Stats :=
  mkStats 125000 100
    (<["10.0.0.2" := mkSourceStats 125000 100 0 year2026]>
       (<["10.0.0.3" := mkSourceStats 0 0 0 0]> ∅))
    ∅.

(** A store whose byte counter has reached 2^60. *)
Definition exbibyteStats : Stats := mkStats (2 ^ 60) 1 ∅ ∅.

(** A run in which a tick arrives just before [Stop] cancels, and the
    world it ends in. *)
Definition lastTickRun : list action :=
  [CallStart; LogStarted; NewTicker; TickArrives; CallCancel; SelectTick;
   GenerateReport scenarioStats (tickAt Second idleRuntime (Response 200));
   SelectDone; WaitReturns; LogStopped].

Definition lastTickWorld : world :=
  match run (boot remoteReporter) lastTickRun with
  | Some w => w
  | None => boot remoteReporter
  end.

(** * Properties *)

(** ** Machine integers *)

Lemma int64_id (z : Z) : in_int64 z -> int64 z = z.
Proof.
  unfold in_int64, int64, int64_min, int64_max. intros Hz.
  rewrite Z.mod_small by lia. lia.
Qed.

Lemma int64_range (z : Z) : in_int64 (int64 z).
Proof.
  unfold in_int64, int64, int64_min, int64_max.
  pose proof (Z.mod_pos_bound (z + 2 ^ 63) (2 ^ 64) ltac:(lia)). lia.
Qed.

Lemma uint32_mod_256 (z : Z) : uint32 z mod 256 = z mod 256.
Proof.
  unfold uint32. apply Z.mod_mod_divide.
  exists 16777216. reflexivity.
Qed.

(** ** Construction *)

Lemma NewReporter_interval (config : Report) (now : Time) (mip : string) :
  interval (NewReporter config now mip) =
  if int64_mul (Interval config) Second <=? 0 then 10 * Minute
  else int64_mul (Interval config) Second.
Proof. reflexivity. Qed.

(** X21: where the guard of [NewReporter] works. A non-positive
    configured interval whose count of nanoseconds is still an [int64]
    (every interval down to -9223372036 seconds) makes the effective
    interval the default of 10 minutes. Nothing tells of the correction:
    [NewReporter] has no error to return and no line to log, and the
    reporter it returns is otherwise the configured one. *)
Theorem NewReporter_nonpositive_interval
  (config : Report) (now : Time) (mip : string) :
  -9223372036 <= Interval config <= 0 ->
  interval (NewReporter config now mip) = 10 * Minute
  /\ reportURL (NewReporter config now mip) = URL config
  /\ managementIP (NewReporter config now mip) = mip
  /\ startTime (NewReporter config now mip) = now.
Proof.
  intros Hn. split; [|repeat split].
  rewrite NewReporter_interval.
  unfold int64_mul. rewrite int64_id.
  - destruct (Z.leb_spec (Interval config * Second) 0) as [_|Hpos]; [reflexivity|].
    unfold Second in Hpos. lia.
  - unfold in_int64, int64_min, int64_max, Second. lia.
Qed.

Lemma NewReporter_nonpositive_interval_witness :
  let r := NewReporter (mkReport (-5) "http://collector/report") 1000 "10.0.0.1" in
  interval r = 10 * Minute
  /\ reportURL r = "http://collector/report"
  /\ managementIP r = "10.0.0.1"
  /\ startTime r = 1000.
Proof.
  cbv zeta.
  apply (NewReporter_nonpositive_interval
           (mkReport (-5) "http://collector/report") 1000 "10.0.0.1").
  simpl. lia.
Defined.

(** C7: the guard [interval <= 0] of [NewReporter] comes after the
    multiplication by [time.Second], and misses a non-positive interval
    whose product wraps around: -9223372037 seconds, a value of a 64-bit
    [int], become a positive interval of some 292 years, which is kept
    instead of the default of 10 minutes. *)
Lemma NewReporter_interval_wraps :
  Interval (mkReport (-9223372037) "") <= 0
  /\ in_int64 (Interval (mkReport (-9223372037) ""))
  /\ interval (NewReporter (mkReport (-9223372037) "") 0 "") = 9223372036709551616
  /\ interval (NewReporter (mkReport (-9223372037) "") 0 "") <> 10 * Minute.
Proof.
  split; [simpl; lia|].
  split; [unfold in_int64, int64_min, int64_max; simpl; lia|].
  split; [reflexivity|].
  vm_compute. discriminate.
Qed.

(** A positive interval that fits is kept, in nanoseconds. *)
Lemma NewReporter_positive_interval
  (config : Report) (now : Time) (mip : string) :
  0 < Interval config <= 9223372036 ->
  interval (NewReporter config now mip) = Interval config * Second.
Proof.
  intros Hn. rewrite NewReporter_interval.
  unfold int64_mul. rewrite int64_id.
  - destruct (Z.leb_spec (Interval config * Second) 0) as [Hle|_]; [|reflexivity].
    unfold Second in Hle. lia.
  - unfold in_int64, int64_min, int64_max, Second. lia.
Qed.

(** Whatever the configuration, the interval is positive: [time.NewTicker]
    in [reportLoop] does not panic. *)
Lemma NewReporter_interval_positive
  (config : Report) (now : Time) (mip : string) :
  0 < interval (NewReporter config now mip).
Proof.
  rewrite NewReporter_interval.
  destruct (Z.leb_spec (int64_mul (Interval config) Second) 0) as [_|Hpos];
    [reflexivity|exact Hpos].
Qed.

(** On a platform whose [int] has 32 bits no interval wraps. *)
Lemma NewReporter_nonpositive_interval_int32
  (config : Report) (now : Time) (mip : string) :
  - 2 ^ 31 <= Interval config <= 0 ->
  interval (NewReporter config now mip) = 10 * Minute.
Proof.
  intros Hn. rewrite NewReporter_interval.
  unfold int64_mul. rewrite int64_id.
  - destruct (Z.leb_spec (Interval config * Second) 0) as [_|Hpos]; [reflexivity|].
    unfold Second in Hpos. lia.
  - unfold in_int64, int64_min, int64_max, Second. lia.
Qed.

(** The older constructor sets the interval the same way. *)
Lemma Legacy_NewReporter_interval (config : Report) (now : Time) (mip : string) :
  Legacy.interval (Legacy.NewReporter config now) =
  interval (NewReporter config now mip).
Proof. reflexivity. Qed.

(** ** Floating point: what rounding cannot do

    The product of a positive [float64] and 1000000 is positive (finite or
    infinite): it is never zero and never a NaN. With it, a zero byte count
    divided by [uptime * 1000000] is the zero that the guard of the
    per-source loop writes. *)

Lemma digits2_pos_bounds (p : positive) :
  2 ^ (Z.pos (digits2_pos p) - 1) <= Z.pos p < 2 ^ Z.pos (digits2_pos p).
Proof.
  induction p as [p IH|p IH|]; cbn [digits2_pos].
  - rewrite Pos2Z.inj_succ.
    replace (Z.succ (Z.pos (digits2_pos p)) - 1)
      with (Z.succ (Z.pos (digits2_pos p) - 1)) by lia.
    rewrite !Z.pow_succ_r by lia. lia.
  - rewrite Pos2Z.inj_succ.
    replace (Z.succ (Z.pos (digits2_pos p)) - 1)
      with (Z.succ (Z.pos (digits2_pos p) - 1)) by lia.
    rewrite !Z.pow_succ_r by lia. lia.
  - cbn. lia.
Qed.

Lemma shr_1_m (mrs : shr_record) :
  0 <= shr_m mrs -> shr_m (shr_1 mrs) = shr_m mrs / 2.
Proof.
  destruct mrs as [m r s]; cbn [shr_m shr_1]. intros Hm.
  destruct m as [|[p|p|]|p]; cbn [shr_m]; try lia.
  - reflexivity.
  - rewrite Pos2Z.inj_xI. apply Z.div_unique with 1; lia.
  - rewrite Pos2Z.inj_xO. apply Z.div_unique with 0; lia.
  - reflexivity.
Qed.

Lemma iter_pos_shr_1_m (p : positive) (mrs : shr_record) :
  0 <= shr_m mrs ->
  shr_m (SpecFloat.iter_pos shr_1 p mrs) = shr_m mrs / 2 ^ Z.pos p.
Proof.
  revert mrs.
  induction p as [p IH|p IH|]; intros mrs Hm; cbn [SpecFloat.iter_pos].
  - assert (H1 : 0 <= shr_m (shr_1 mrs))
      by (rewrite shr_1_m by lia; apply Z.div_pos; lia).
    assert (H2 : 0 <= shr_m (SpecFloat.iter_pos shr_1 p (shr_1 mrs)))
      by (rewrite IH by lia; apply Z.div_pos; lia).
    rewrite IH, IH, shr_1_m by lia.
    rewrite !Z.div_div by lia.
    f_equal. rewrite <- Z.pow_add_r by lia.
    rewrite <- Z.pow_succ_r by lia. f_equal. lia.
  - assert (H2 : 0 <= shr_m (SpecFloat.iter_pos shr_1 p mrs))
      by (rewrite IH by lia; apply Z.div_pos; lia).
    rewrite IH, IH by lia.
    rewrite !Z.div_div by lia.
    f_equal. rewrite <- Z.pow_add_r by lia. f_equal. lia.
  - rewrite shr_1_m by lia. reflexivity.
Qed.

Lemma shr_record_of_loc_m (m : Z) (l : location) :
  shr_m (shr_record_of_loc m l) = m.
Proof. destruct l as [|[]]; reflexivity. Qed.

(** Shifting a positive mantissa to its format exponent leaves it positive,
    as long as the number is above the smallest subnormal's exponent. *)
Lemma shr_fexp_pos (mx : positive) (ex : Z) (lx : location) :
  emin < Z.pos (digits2_pos mx) + ex ->
  1 <= shr_m (fst (shr_fexp prec emax (Z.pos mx) ex lx))
  /\ emin <= snd (shr_fexp prec emax (Z.pos mx) ex lx).
Proof.
  intros Hd. unfold shr_fexp, shr, fexp. cbn [Zdigits2].
  pose proof (digits2_pos_bounds mx) as [Hlo _].
  set (d := Z.pos (digits2_pos mx)) in *.
  destruct (Z.max (d + ex - prec) emin - ex) as [|n|n] eqn:Hn; cbn [fst snd].
  - rewrite shr_record_of_loc_m. lia.
  - rewrite iter_pos_shr_1_m by (rewrite shr_record_of_loc_m; lia).
    rewrite shr_record_of_loc_m. split.
    + apply Z.div_le_lower_bound; [lia|].
      rewrite Z.mul_1_r.
      apply Z.le_trans with (2 ^ (d - 1)); [|exact Hlo].
      apply Z.pow_le_mono_r; [lia|]. unfold prec in *. lia.
    + lia.
  - rewrite shr_record_of_loc_m. lia.
Qed.

Lemma round_nearest_even_ge (m : Z) (l : location) :
  m <= round_nearest_even m l.
Proof.
  unfold round_nearest_even. destruct l as [|[]]; try lia.
  destruct (Z.even m); lia.
Qed.

(** Rounding a positive mantissa gives a finite number or an infinity of
    the same sign. *)
Lemma binary_round_aux_pos (s : bool) (mx : positive) (ex : Z) (lx : location) :
  emin < Z.pos (digits2_pos mx) + ex ->
  (exists m e, binary_round_aux prec emax s (Z.pos mx) ex lx = S754_finite s m e)
  \/ binary_round_aux prec emax s (Z.pos mx) ex lx = S754_infinity s.
Proof.
  intros Hd. unfold binary_round_aux.
  pose proof (shr_fexp_pos mx ex lx Hd) as [Hm He].
  destruct (shr_fexp prec emax (Z.pos mx) ex lx) as [mrs' e']. cbn [fst snd] in *.
  pose proof (round_nearest_even_ge (shr_m mrs') (loc_of_shr_record mrs')) as Hr.
  destruct (round_nearest_even (shr_m mrs') (loc_of_shr_record mrs'))
    as [|m2|m2] eqn:Hm2; try lia.
  assert (Hd2 : emin < Z.pos (digits2_pos m2) + e') by lia.
  pose proof (shr_fexp_pos m2 e' loc_Exact Hd2) as [Hm3 _].
  destruct (shr_fexp prec emax (Z.pos m2) e' loc_Exact) as [mrs'' e''].
  cbn [fst snd] in *.
  destruct (shr_m mrs'') as [|m3|m3]; try lia.
  destruct (e'' <=? emax - prec); eauto.
Qed.

(** A float above zero is a positive finite number or plus infinity. *)
Lemma ltb_0_inv (u : float) :
  (0 <? u)%float = true ->
  (exists m e, Prim2SF u = S754_finite false m e /\ emin <= e)
  \/ Prim2SF u = S754_infinity false.
Proof.
  rewrite FloatAxioms.ltb_spec. change (Prim2SF 0) with (S754_zero false).
  pose proof (Prim2SF_valid u) as Hv.
  destruct (Prim2SF u) as [s|s| |s m e]; cbn; try discriminate.
  - destruct s; [discriminate|]. auto.
  - destruct s; [discriminate|]. intros _. left. exists m, e. split; [reflexivity|].
    cbn in Hv. unfold bounded, canonical_mantissa, fexp in Hv.
    apply andb_prop in Hv as [Hc _]. apply Z.eqb_eq in Hc. lia.
Qed.

Lemma mul_1000000_pos (u : float) :
  (0 <? u)%float = true ->
  (exists m e, Prim2SF (u * 1000000) = S754_finite false m e)
  \/ Prim2SF (u * 1000000) = S754_infinity false.
Proof.
  intros Hu. rewrite FloatAxioms.mul_spec.
  change (Prim2SF 1000000) with (S754_finite false 8589934592000000 (-33)).
  destruct (ltb_0_inv u Hu) as [(m & e & -> & He)| ->]; [|right; reflexivity].
  cbn [SF64mul SFmul xorb].
  apply binary_round_aux_pos.
  pose proof (digits2_pos_bounds (m * 8589934592000000)) as [_ Hhi].
  assert (H52 : 2 ^ 52 < 2 ^ Z.pos (digits2_pos (m * 8589934592000000))).
  { eapply Z.le_lt_trans; [|exact Hhi]. rewrite Pos2Z.inj_mul. lia. }
  apply Z.pow_lt_mono_r_iff in H52; [|lia|lia].
  change emin with (-1074) in *. lia.
Qed.

(** Zero bytes over a positive uptime are a rate of zero. *)
Lemma zero_bytes_rate (u : float) :
  (0 <? u)%float = true ->
  (float64_of_Z (int64_mul 0 8) / (u * 1000000))%float = 0%float.
Proof.
  intros Hu. apply Prim2SF_inj. rewrite FloatAxioms.div_spec.
  change (Prim2SF (float64_of_Z (int64_mul 0 8))) with (S754_zero false).
  change (Prim2SF 0) with (S754_zero false).
  destruct (mul_1000000_pos u Hu) as [(m & e & ->)| ->]; reflexivity.
Qed.

(** At or below zero is not above zero. *)
Lemma leb_0_not_ltb (u : float) :
  (u <=? 0)%float = true -> (0 <? u)%float = false.
Proof.
  rewrite FloatAxioms.leb_spec, FloatAxioms.ltb_spec. change (Prim2SF 0) with (S754_zero false).
  destruct (Prim2SF u) as [s|s| |s m e]; cbn; try reflexivity; try discriminate.
  - destruct s; [reflexivity|discriminate].
  - destruct s; [reflexivity|discriminate].
Qed.

(** ** Floating point: conversions, quotients and products that are numbers

    A non-negative [int64] converts to plus zero or to a positive finite
    float; the quotient of such a float by a positive finite one, and ten
    times that, is a number at or above zero, never a NaN. *)

(** [float64(z)] of a non-negative [int64] is what the specification of
    the conversion says. *)
Lemma float64_of_Z_spec (z : Z) :
  0 <= z < 2 ^ 63 ->
  Prim2SF (float64_of_Z z) = binary_normalize prec emax z 0 false.
Proof.
  intros Hz. unfold float64_of_Z.
  pose proof (FloatAxioms.of_uint63_spec (Uint63.of_Z z)) as Hspec.
  rewrite Uint63.of_Z_spec in Hspec.
  rewrite Z.mod_small in Hspec by (change wB with (2 ^ 63); lia).
  rewrite <- Hspec, SF2Prim_Prim2SF. reflexivity.
Qed.

Lemma shr_fexp_exp (mx : positive) (ex : Z) (lx : location) :
  snd (shr_fexp prec emax (Z.pos mx) ex lx) =
  Z.max ex (fexp prec emax (Z.pos (digits2_pos mx) + ex)).
Proof.
  unfold shr_fexp, shr. cbn [Zdigits2].
  destruct (fexp prec emax (Z.pos (digits2_pos mx) + ex) - ex) as [|n|n] eqn:Hn;
    cbn [snd]; lia.
Qed.

Lemma shr_fexp_m_le (mx : positive) (ex : Z) (lx : location) :
  shr_m (fst (shr_fexp prec emax (Z.pos mx) ex lx)) <= Z.pos mx.
Proof.
  unfold shr_fexp, shr. cbn [Zdigits2].
  destruct (fexp prec emax (Z.pos (digits2_pos mx) + ex) - ex) as [|n|n];
    cbn [fst]; try (rewrite shr_record_of_loc_m; lia).
  rewrite iter_pos_shr_1_m by (rewrite shr_record_of_loc_m; lia).
  rewrite shr_record_of_loc_m.
  apply Z.div_le_upper_bound; [lia|].
  assert (1 <= 2 ^ Z.pos n) by (apply (Z.pow_le_mono_r 2 0); lia). nia.
Qed.

Lemma digits2_pos_mono (a b : positive) :
  Z.pos a <= Z.pos b -> Z.pos (digits2_pos a) <= Z.pos (digits2_pos b).
Proof.
  intros Hab.
  pose proof (digits2_pos_bounds a) as [Ha _].
  pose proof (digits2_pos_bounds b) as [_ Hb].
  assert (H : 2 ^ (Z.pos (digits2_pos a) - 1) < 2 ^ Z.pos (digits2_pos b)) by lia.
  apply Z.pow_lt_mono_r_iff in H; lia.
Qed.

Lemma digits2_pos_le (a : positive) (k : Z) :
  0 <= k -> Z.pos a < 2 ^ k -> Z.pos (digits2_pos a) <= k.
Proof.
  intros Hk Ha.
  pose proof (digits2_pos_bounds a) as [Hlo _].
  assert (H : 2 ^ (Z.pos (digits2_pos a) - 1) < 2 ^ k) by lia.
  apply Z.pow_lt_mono_r_iff in H; lia.
Qed.

Lemma round_nearest_even_le (m : Z) (l : location) :
  round_nearest_even m l <= m + 1.
Proof.
  unfold round_nearest_even. destruct l as [|[]]; try lia.
  destruct (Z.even m); lia.
Qed.

(** Rounding a positive mantissa of at most 63 digits at a non-positive
    exponent gives a finite number. *)
Lemma binary_round_aux_finite (s : bool) (mx : positive) (ex : Z) (lx : location) :
  emin < Z.pos (digits2_pos mx) + ex ->
  ex <= 0 ->
  Z.pos (digits2_pos mx) <= 63 ->
  exists m e, binary_round_aux prec emax s (Z.pos mx) ex lx = S754_finite s m e.
Proof.
  intros Hd Hex Hdig. unfold binary_round_aux.
  pose proof (shr_fexp_pos mx ex lx Hd) as [Hm He].
  pose proof (shr_fexp_exp mx ex lx) as Hee.
  pose proof (shr_fexp_m_le mx ex lx) as Hmle.
  destruct (shr_fexp prec emax (Z.pos mx) ex lx) as [mrs' e']. cbn [fst snd] in *.
  pose proof (round_nearest_even_ge (shr_m mrs') (loc_of_shr_record mrs')) as Hr.
  pose proof (round_nearest_even_le (shr_m mrs') (loc_of_shr_record mrs')) as Hr'.
  destruct (round_nearest_even (shr_m mrs') (loc_of_shr_record mrs'))
    as [|m2|m2] eqn:Hm2; try lia.
  assert (Hd2 : emin < Z.pos (digits2_pos m2) + e') by lia.
  pose proof (shr_fexp_pos m2 e' loc_Exact Hd2) as [Hm3 _].
  pose proof (shr_fexp_exp m2 e' loc_Exact) as Hee2.
  assert (Hdig2 : Z.pos (digits2_pos m2) <= 64).
  { apply digits2_pos_le; [lia|].
    pose proof (digits2_pos_bounds mx) as [_ Hhi].
    assert (2 ^ Z.pos (digits2_pos mx) <= 2 ^ 63)
      by (apply Z.pow_le_mono_r; lia).
    change (2 ^ 64) with (2 * 2 ^ 63). lia. }
  destruct (shr_fexp prec emax (Z.pos m2) e' loc_Exact) as [mrs'' e''].
  cbn [fst snd] in *.
  destruct (shr_m mrs'') as [|m3|m3]; try lia.
  assert (He'' : e'' <= emax - prec).
  { unfold fexp in *. change emin with (-1074) in *.
    change prec with 53 in *. change emax with 1024 in *. lia. }
  apply Z.leb_le in He''. rewrite He''. eauto.
Qed.

Lemma iter_xO_mul (m d : positive) :
  Z.pos (Pos.iter xO m d) = Z.pos m * 2 ^ Z.pos d.
Proof.
  induction d as [|d IH] using Pos.peano_ind.
  - cbn. lia.
  - rewrite Pos.iter_succ, Pos2Z.inj_xO, IH, Pos2Z.inj_succ, Z.pow_succ_r by lia.
    lia.
Qed.

(** A positive [int64] converts to a positive finite float. *)
Lemma binary_normalize_pos (z : Z) :
  0 < z < 2 ^ 63 ->
  exists m e, binary_normalize prec emax z 0 false = S754_finite false m e.
Proof.
  intros Hz. destruct z as [|p|p]; try lia.
  cbn [binary_normalize]. unfold binary_round, shl_align.
  pose proof (digits2_pos_bounds p) as [Hlo Hhi].
  assert (Hdp : Z.pos (digits2_pos p) <= 63) by (apply digits2_pos_le; lia).
  destruct (fexp prec emax (Z.pos (digits2_pos p) + 0) - 0) as [|d|d] eqn:Hd.
  - apply binary_round_aux_finite.
    + change emin with (-1074). lia.
    + lia.
    + lia.
  - apply binary_round_aux_finite.
    + change emin with (-1074). lia.
    + lia.
    + lia.
  - apply binary_round_aux_finite.
    + unfold fexp in *. change emin with (-1074) in *. lia.
    + unfold fexp in *. change emin with (-1074) in *. lia.
    + apply digits2_pos_le; [lia|]. rewrite iter_xO_mul.
      unfold fexp in Hd. change emin with (-1074) in Hd. change prec with 53 in Hd.
      assert (Hpd : 2 ^ Z.pos (digits2_pos p) * 2 ^ Z.pos d <= 2 ^ 63).
      { rewrite <- Z.pow_add_r by lia. apply Z.pow_le_mono_r; lia. }
      assert (0 < 2 ^ Z.pos d) by (apply Z.pow_pos_nonneg; lia). nia.
Qed.

Lemma float64_of_Z_pos (z : Z) :
  0 < z < 2 ^ 63 ->
  exists m e, Prim2SF (float64_of_Z z) = S754_finite false m e.
Proof.
  intros Hz. rewrite float64_of_Z_spec by lia. apply binary_normalize_pos. exact Hz.
Qed.

Lemma float64_of_Z_nonneg (z : Z) :
  0 <= z < 2 ^ 63 ->
  Prim2SF (float64_of_Z z) = S754_zero false
  \/ exists m e, Prim2SF (float64_of_Z z) = S754_finite false m e.
Proof.
  intros Hz. destruct (Z.eq_dec z 0) as [->|Hne].
  - left. reflexivity.
  - right. apply float64_of_Z_pos. lia.
Qed.

Lemma shr_fexp_nonneg (mx ex : Z) (lx : location) :
  0 <= mx -> 0 <= shr_m (fst (shr_fexp prec emax mx ex lx)).
Proof.
  intros Hm. unfold shr_fexp, shr.
  destruct (fexp prec emax (Zdigits2 mx + ex) - ex) as [|n|n];
    cbn [fst]; try (rewrite shr_record_of_loc_m; lia).
  rewrite iter_pos_shr_1_m by (rewrite shr_record_of_loc_m; lia).
  rewrite shr_record_of_loc_m. apply Z.div_pos; lia.
Qed.

(** Rounding a mantissa that is not negative never gives a NaN and keeps
    the sign. *)
Lemma binary_round_aux_nonneg (mx ex : Z) (lx : location) :
  0 <= mx -> nonneg_float (binary_round_aux prec emax false mx ex lx).
Proof.
  intros Hm. unfold binary_round_aux, nonneg_float.
  pose proof (shr_fexp_nonneg mx ex lx Hm) as Hm1.
  destruct (shr_fexp prec emax mx ex lx) as [mrs' e']. cbn [fst] in Hm1.
  pose proof (round_nearest_even_ge (shr_m mrs') (loc_of_shr_record mrs')) as Hr.
  pose proof (shr_fexp_nonneg
                (round_nearest_even (shr_m mrs') (loc_of_shr_record mrs'))
                e' loc_Exact ltac:(lia)) as Hm2.
  destruct (shr_fexp prec emax
              (round_nearest_even (shr_m mrs') (loc_of_shr_record mrs'))
              e' loc_Exact) as [mrs'' e'']. cbn [fst] in Hm2.
  destruct (shr_m mrs'') as [|m3|m3]; try lia; [auto|].
  destruct (e'' <=? emax - prec); eauto.
Qed.

(** A number at or above zero over a positive finite number. *)
Lemma SF64div_nonneg (x : spec_float) (m2 : positive) (e2 : Z) :
  x = S754_zero false \/ (exists m e, x = S754_finite false m e) ->
  nonneg_float (SF64div x (S754_finite false m2 e2)).
Proof.
  intros [->|(m1 & e1 & ->)]; [left; reflexivity|].
  cbn [SF64div SFdiv xorb]. unfold SFdiv_core_binary.
  set (e' := Z.min _ _).
  set (m' := match e1 - e2 - e' with
             | 0 => Z.pos m1
             | Z.pos _ => Z.shiftl (Z.pos m1) (e1 - e2 - e')
             | Z.neg _ => 0
             end).
  assert (Hm' : 0 <= m').
  { subst m'. destruct (e1 - e2 - e'); try lia. apply Z.shiftl_nonneg. lia. }
  destruct (Z.div_eucl m' (Z.pos m2)) as [q r] eqn:Hqr.
  assert (Hq : q = m' / Z.pos m2) by (unfold Z.div; rewrite Hqr; reflexivity).
  apply binary_round_aux_nonneg. rewrite Hq. apply Z.div_pos; lia.
Qed.

(** ... times ten. *)
Lemma SF64mul_10_nonneg (x : spec_float) :
  nonneg_float x -> nonneg_float (SF64mul x (Prim2SF 10)).
Proof.
  change (Prim2SF 10) with (S754_finite false 5629499534213120 (-49)).
  intros [->|[(m & e & ->)| ->]].
  - left. reflexivity.
  - cbn [SF64mul SFmul xorb]. apply binary_round_aux_nonneg. lia.
  - right. right. reflexivity.
Qed.

Lemma eqb_refl_nonneg (x : float) :
  nonneg_float (Prim2SF x) -> (x =? x)%float = true.
Proof.
  rewrite FloatAxioms.eqb_spec.
  intros [->|[(m & e & ->)| ->]]; cbv [SFeqb SFcompare]; try reflexivity.
  rewrite Z.compare_refl, Pos.compare_cont_refl. reflexivity.
Qed.

(** ** The snapshot: totals and per-source entries *)

Lemma copySourceIPStats_fmap (uptime : float) (m : gmap string SourceStats) :
  copySourceIPStats uptime m =
  (fun stats =>
     {| BytesSent := BytesSent stats;
        PacketsSent := PacketsSent stats;
        BandwidthMbps :=
          if (0 <? uptime)%float && (0 <? BytesSent stats)
          then (float64_of_Z (int64_mul (BytesSent stats) 8) / (uptime * 1000000))%float
          else 0%float;
        LastActive := LastActive stats |}) <$> m.
Proof.
  unfold copySourceIPStats.
  induction m as [|ip stats m Hip Hfold IH] using map_first_key_ind.
  - rewrite map_fold_empty, fmap_empty. reflexivity.
  - rewrite map_fold_insert_first_key by assumption.
    rewrite IH, fmap_insert. reflexivity.
Qed.

(** The report has an entry for a source exactly when the store has one. *)
Lemma copySourceIPStats_lookup
  (uptime : float) (m : gmap string SourceStats) (ip : string) :
  copySourceIPStats uptime m !! ip =
  (fun stats =>
     {| BytesSent := BytesSent stats;
        PacketsSent := PacketsSent stats;
        BandwidthMbps :=
          if (0 <? uptime)%float && (0 <? BytesSent stats)
          then (float64_of_Z (int64_mul (BytesSent stats) 8) / (uptime * 1000000))%float
          else 0%float;
        LastActive := LastActive stats |}) <$> (m !! ip).
Proof. rewrite copySourceIPStats_fmap. apply lookup_fmap. Qed.

Lemma copySourceIPStats_dom (uptime : float) (m : gmap string SourceStats) :
  dom (copySourceIPStats uptime m) = dom m.
Proof. rewrite copySourceIPStats_fmap. apply dom_fmap_L. Qed.

Lemma generateReport_total_stats
  (r : Reporter) (st : Stats) (env : Tick ReportData) :
  total_stats (generateReport r st env).1.1 =
  let uptime := Seconds (Since (clock_uptime env) (startTime r)) in
  {| bytes_sent := bytesSent st;
     packets_sent := packetsSent st;
     bandwidth_mbps :=
       if (0 <? uptime)%float
       then (float64_of_Z (int64_mul (bytesSent st) 8) / (uptime * 1000000))%float
       else 0%float;
     uptime_seconds := uptime |}.
Proof.
  unfold generateReport.
  destruct (collectSystemStats r env) as [[systemStats r'] sampling].
  reflexivity.
Qed.

Lemma generateReport_source_ip_stats
  (r : Reporter) (st : Stats) (env : Tick ReportData) :
  source_ip_stats (generateReport r st env).1.1 =
  copySourceIPStats (Seconds (Since (clock_uptime env) (startTime r)))
                    (sourceIPStats st).
Proof.
  unfold generateReport.
  destruct (collectSystemStats r env) as [[systemStats r'] sampling].
  reflexivity.
Qed.

Lemma int64_mul_8 (bytes : Z) :
  0 <= bytes < 2 ^ 60 -> int64_mul bytes 8 = bytes * 8.
Proof.
  intros Hb. apply int64_id. unfold in_int64, int64_min, int64_max. lia.
Qed.

(** X20: what [generateReport] does wherever [bytes*8] does not wrap.
    With [doc] the document of a tick and [uptime] its uptime: when
    [uptime > 0], the total bandwidth and the bandwidth of every
    per-source entry are [float64(bytes*8) / (uptime*1e6)] for every byte
    count from 0 up to 2^60 - 1, the counts whose product with 8 is an
    [int64]; when [uptime <= 0] every bandwidth field is exactly 0; and a
    source with 0 bytes has its entry, with bandwidth 0. *)
Theorem generateReport_bandwidth
  (r : Reporter) (st : Stats) (env : Tick ReportData) :
  let doc := (generateReport r st env).1.1 in
  let uptime := uptime_seconds (total_stats doc) in
  uptime = Seconds (Since (clock_uptime env) (startTime r))
  /\ ((0 <? uptime)%float = true ->
      (0 <= bytesSent st < 2 ^ 60 ->
       bandwidth_mbps (total_stats doc) =
       (float64_of_Z (bytesSent st * 8) / (uptime * 1000000))%float)
      /\ (forall ip stats,
            sourceIPStats st !! ip = Some stats ->
            0 <= BytesSent stats < 2 ^ 60 ->
            exists entry,
              source_ip_stats doc !! ip = Some entry
              /\ BytesSent entry = BytesSent stats
              /\ BandwidthMbps entry =
                 (float64_of_Z (BytesSent stats * 8) / (uptime * 1000000))%float))
  /\ ((uptime <=? 0)%float = true ->
      bandwidth_mbps (total_stats doc) = 0%float
      /\ (forall ip entry,
            source_ip_stats doc !! ip = Some entry ->
            BandwidthMbps entry = 0%float))
  /\ (forall ip stats,
        sourceIPStats st !! ip = Some stats ->
        BytesSent stats = 0 ->
        exists entry,
          source_ip_stats doc !! ip = Some entry
          /\ BytesSent entry = 0
          /\ BandwidthMbps entry = 0%float)
  /\ dom (source_ip_stats doc) = dom (sourceIPStats st).
Proof.
  cbv zeta.
  rewrite generateReport_total_stats, generateReport_source_ip_stats.
  cbv zeta. cbn [uptime_seconds bandwidth_mbps].
  set (uptime := Seconds (Since (clock_uptime env) (startTime r))).
  split; [reflexivity|].
  split; [|split; [|split]].
  - intros Hup. rewrite Hup. split.
    + intros Hb. rewrite int64_mul_8 by assumption. reflexivity.
    + intros ip stats Hip Hb.
      rewrite copySourceIPStats_lookup, Hip. cbn [fmap option_fmap option_map].
      eexists. split; [reflexivity|]. split; [reflexivity|].
      cbn [BandwidthMbps]. rewrite Hup. cbn [andb].
      destruct (Z.ltb_spec 0 (BytesSent stats)) as [Hpos|Hzero].
      * rewrite int64_mul_8 by assumption. reflexivity.
      * assert (Hz : BytesSent stats = 0) by lia. rewrite Hz.
        symmetry. apply (zero_bytes_rate uptime Hup).
  - intros Hle. rewrite (leb_0_not_ltb uptime Hle). split; [reflexivity|].
    intros ip entry. rewrite copySourceIPStats_lookup.
    destruct (sourceIPStats st !! ip) as [stats|]; [|discriminate].
    cbn [fmap option_fmap option_map]. intros [= <-].
    cbn [BandwidthMbps]. rewrite (leb_0_not_ltb uptime Hle). reflexivity.
  - intros ip stats Hip Hz.
    rewrite copySourceIPStats_lookup, Hip. cbn [fmap option_fmap option_map].
    eexists. split; [reflexivity|]. split; [exact Hz|].
    cbn [BandwidthMbps]. rewrite Hz. change (0 <? 0) with false.
    rewrite andb_false_r. reflexivity.
  - apply copySourceIPStats_dom.
Qed.

(** The scenario of the specification: 125000 bytes after one second of
    uptime are 1.0 Mbps, for the totals and for the source that sent them,
    and the silent source is listed with a rate of zero. *)
Example scenario_report :
  let doc := (generateReport localReporter scenarioStats
                (tickAt Second idleRuntime (Response 200))).1.1 in
  total_stats doc = mkTotalStats 125000 100 1 1
  /\ source_ip_stats doc !! "10.0.0.2" = Some (mkSourceStats 125000 100 1 year2026)
  /\ source_ip_stats doc !! "10.0.0.3" = Some (mkSourceStats 0 0 0 0).
Proof. vm_compute. auto. Qed.

(** C1: the code misses the formula of the specification ("for every
    bytes-sent value >= 0") once the [int64] product [bytesSent*8] wraps
    around. At 2^60 bytes and an uptime of one second, with the uptime
    above zero as the formula asks, the reported total bandwidth is
    negative and is not [float64(bytes*8) / (uptime*1e6)] for the
    product taken in the integers. *)
Lemma generateReport_bandwidth_wraps :
  let doc := (generateReport localReporter exbibyteStats
                (tickAt Second idleRuntime (Response 200))).1.1 in
  let uptime := uptime_seconds (total_stats doc) in
  0 <= bytesSent exbibyteStats
  /\ (0 <? uptime)%float = true
  /\ (bandwidth_mbps (total_stats doc) <? 0)%float = true
  /\ bandwidth_mbps (total_stats doc) <>
     (float64_of_Z (bytesSent exbibyteStats * 8) / (uptime * 1000000))%float.
Proof.
  cbv zeta. split; [vm_compute; discriminate|].
  split; [vm_compute; reflexivity|].
  split; [vm_compute; reflexivity|].
  intros H. apply (f_equal Prim2SF) in H. vm_compute in H. discriminate.
Qed.

(** ** The older and the newer report generator *)

Lemma Legacy_copySourceIPStats (uptime : float) (m : gmap string SourceStats) :
  Legacy.copySourceIPStats uptime m = copySourceIPStats uptime m.
Proof. reflexivity. Qed.

(** C10: on the same counter store and with the same uptime, the older
    and the newer [generateReport] put the same [total_stats] (bytes sent,
    packets sent, bandwidth, uptime) and the same [source_ip_stats] map in
    the report document. *)
Theorem generateReport_agrees_with_Legacy
  (old : Legacy.Reporter) (new : Reporter) (st : Stats)
  (envOld : Tick Legacy.ReportData) (envNew : Tick ReportData) :
  Seconds (Since (clock_uptime envOld) (Legacy.startTime old)) =
  Seconds (Since (clock_uptime envNew) (startTime new)) ->
  Legacy.total_stats (Legacy.generateReport old st envOld).1 =
  total_stats (generateReport new st envNew).1.1
  /\ Legacy.source_ip_stats (Legacy.generateReport old st envOld).1 =
     source_ip_stats (generateReport new st envNew).1.1.
Proof.
  intros Huptime.
  rewrite generateReport_total_stats, generateReport_source_ip_stats.
  unfold Legacy.generateReport.
  cbn [fst Legacy.total_stats Legacy.source_ip_stats].
  rewrite Huptime, Legacy_copySourceIPStats. split; reflexivity.
Qed.

Lemma generateReport_agrees_with_Legacy_witness :
  Legacy.total_stats
    (Legacy.generateReport legacyReporter scenarioStats
       (legacyTickAt Second idleRuntime (Response 200))).1 =
  total_stats
    (generateReport localReporter scenarioStats
       (tickAt Second idleRuntime (Response 200))).1.1
  /\ Legacy.source_ip_stats
       (Legacy.generateReport legacyReporter scenarioStats
          (legacyTickAt Second idleRuntime (Response 200))).1 =
     source_ip_stats
       (generateReport localReporter scenarioStats
          (tickAt Second idleRuntime (Response 200))).1.1.
Proof.
  apply generateReport_agrees_with_Legacy. reflexivity.
Defined.

(** ** The system sampler: a fresh sample *)

Lemma collectSystemStats_stale {D : Type} (r : Reporter) (env : Tick D) :
  30 * Second <= Since (clock_cache env) (lastCPUTime r) ->
  collectSystemStats r env =
  (sampleSystemStats (runtime env),
   {| interval := interval r;
      startTime := startTime r;
      reportURL := reportURL r;
      managementIP := managementIP r;
      lastCPUTime := clock_store env;
      lastCPUStats := sampleSystemStats (runtime env) |},
   [RLock cpuCacheMutex; ReadCache; RUnlock cpuCacheMutex; ReadRuntime;
    Lock cpuCacheMutex; WriteCache; Unlock cpuCacheMutex]).
Proof.
  intros Hstale. unfold collectSystemStats.
  destruct (Z.ltb_spec (Since (clock_cache env) (lastCPUTime r)) (30 * Second));
    [lia|reflexivity].
Qed.

Lemma collectSystemStats_cached {D : Type} (r : Reporter) (env : Tick D) :
  Since (clock_cache env) (lastCPUTime r) < 30 * Second ->
  collectSystemStats r env =
  (lastCPUStats r, r, [RLock cpuCacheMutex; ReadCache; RUnlock cpuCacheMutex]).
Proof.
  intros Hfresh. unfold collectSystemStats.
  destruct (Z.ltb_spec (Since (clock_cache env) (lastCPUTime r)) (30 * Second));
    [reflexivity|lia].
Qed.

(** The slot that the sampler reads: [(NumGC+255)%256] in [uint32]. *)
Lemma pause_slot (numGC : Z) :
  uint32_add numGC 255 mod 256 = (numGC - 1) mod 256.
Proof.
  unfold uint32_add. rewrite uint32_mod_256.
  replace (numGC + 255) with (numGC - 1 + 1 * 256) by lia.
  apply Z.mod_add. lia.
Qed.

Lemma pause_slot_initialized (numGC : Z) :
  1 <= numGC -> initialized numGC ((numGC - 1) mod 256) = true.
Proof.
  intros Hn. unfold initialized.
  pose proof (Z.mod_pos_bound (numGC - 1) 256 ltac:(lia)) as Hb.
  apply andb_true_intro. split; [apply Z.leb_le; lia|].
  apply Z.ltb_lt. destruct (Z.le_gt_cases numGC 256) as [Hle|Hgt].
  - rewrite Z.mod_small by lia. lia.
  - lia.
Qed.

(** The cache starts with the zero sample, and every sample computed keeps
    the pause at 0 while no collection has run. *)
Lemma NewReporter_gc_consistent (config : Report) (now : Time) (mip : string) :
  gc_consistent (lastCPUStats (NewReporter config now mip)).
Proof. intros _. reflexivity. Qed.

Lemma sampleSystemStats_gc_consistent (rt : Runtime) :
  gc_consistent (sampleSystemStats rt).
Proof.
  unfold gc_consistent, sampleSystemStats. cbn [GCCount GCPauseMs].
  intros ->. reflexivity.
Qed.

(** C2: whatever sample the sampler returns, cached or fresh, its
    [gcPauseMs] is 0 when its [gcCount] is 0 (the cache never holds anything
    else); and on a fresh sample with [gcCount >= 1] the [gcPauseMs] is the
    duration, in milliseconds, stored at index [(gcCount - 1) mod 256] of
    the pause buffer: an index inside the 256 slots, of a slot that a
    collection has written. *)
Theorem collectSystemStats_GCPauseMs {D : Type} (r : Reporter) (env : Tick D) :
  wf_MemStats (ReadMemStats (runtime env)) ->
  gc_consistent (lastCPUStats r) ->
  let memStats := ReadMemStats (runtime env) in
  let sample := (collectSystemStats r env).1.1 in
  (GCCount sample = 0 -> GCPauseMs sample = 0%float)
  /\ gc_consistent (lastCPUStats (collectSystemStats r env).1.2)
  /\ (30 * Second <= Since (clock_cache env) (lastCPUTime r) ->
      GCCount sample = NumGC memStats
      /\ (1 <= NumGC memStats ->
          0 <= (NumGC memStats - 1) mod 256 < 256
          /\ initialized (NumGC memStats) ((NumGC memStats - 1) mod 256) = true
          /\ exists ns,
               PauseNs memStats !! Z.to_nat ((NumGC memStats - 1) mod 256) = Some ns
               /\ GCPauseMs sample = (float64_of_Z ns / 1000000)%float)).
Proof.
  intros [Hgc Hlen] Hcache. cbv zeta.
  destruct (Z.lt_ge_cases (Since (clock_cache env) (lastCPUTime r)) (30 * Second))
    as [Hhit|Hstale].
  - rewrite (collectSystemStats_cached r env Hhit). cbn [fst snd].
    split; [exact Hcache|]. split; [exact Hcache|]. lia.
  - rewrite (collectSystemStats_stale r env Hstale). cbn [fst snd lastCPUStats].
    split; [apply sampleSystemStats_gc_consistent|].
    split; [apply sampleSystemStats_gc_consistent|].
    intros _. unfold sampleSystemStats. cbn [GCCount GCPauseMs].
    split; [reflexivity|]. intros Hpos.
    pose proof (Z.mod_pos_bound (NumGC (ReadMemStats (runtime env)) - 1) 256
                  ltac:(lia)) as Hb.
    split; [exact Hb|]. split; [apply pause_slot_initialized; exact Hpos|].
    destruct (Z.ltb_spec 0 (NumGC (ReadMemStats (runtime env)))) as [_|]; [|lia].
    rewrite pause_slot. unfold index.
    destruct (lookup_lt_is_Some_2 (PauseNs (ReadMemStats (runtime env)))
                (Z.to_nat ((NumGC (ReadMemStats (runtime env)) - 1) mod 256)))
      as [ns Hns]; [rewrite Hlen; lia|].
    exists ns. split; [exact Hns|].
    rewrite (nth_lookup_Some _ _ 0 ns Hns). reflexivity.
Qed.

Lemma collectSystemStats_GCPauseMs_witness :
  let env := tickAt Second busyRuntime (Response 200) in
  let sample := (collectSystemStats localReporter env).1.1 in
  (GCCount sample = 0 -> GCPauseMs sample = 0%float)
  /\ gc_consistent (lastCPUStats (collectSystemStats localReporter env).1.2)
  /\ (30 * Second <= Since (clock_cache env) (lastCPUTime localReporter) ->
      GCCount sample = 3
      /\ (1 <= 3 ->
          0 <= (3 - 1) mod 256 < 256
          /\ initialized 3 ((3 - 1) mod 256) = true
          /\ exists ns,
               PauseNs busyMemStats !! Z.to_nat ((3 - 1) mod 256) = Some ns
               /\ GCPauseMs sample = (float64_of_Z ns / 1000000)%float)).
Proof.
  cbv zeta.
  apply (collectSystemStats_GCPauseMs localReporter
           (tickAt Second busyRuntime (Response 200))).
  - split; [simpl; lia | reflexivity].
  - apply NewReporter_gc_consistent.
Defined.

(** After three collections the last pause, 2500000 ns, is reported as 2.5 ms;
    before the first one the report is 0. *)
Example GCPauseMs_busy :
  GCPauseMs (sampleSystemStats busyRuntime) = 2.5%float
  /\ GCPauseMs (sampleSystemStats idleRuntime) = 0%float.
Proof. vm_compute. auto. Qed.

(** The older sampler reads slot [NumGC mod 256], the one the next
    collection will write: during the first 255 collections a slot that
    no collection has written yet. *)
Lemma Legacy_pause_slot_not_initialized (rt : Runtime) :
  0 <= NumGC (ReadMemStats rt) < 256 ->
  Legacy.GCPauseMs (Legacy.collectSystemStats rt) =
  (float64_of_Z (index (PauseNs (ReadMemStats rt)) (NumGC (ReadMemStats rt)))
   / 1000000)%float
  /\ initialized (NumGC (ReadMemStats rt)) (NumGC (ReadMemStats rt) mod 256) = false.
Proof.
  intros Hn. unfold Legacy.collectSystemStats. cbn [Legacy.GCPauseMs].
  rewrite Z.mod_small by lia. split; [reflexivity|].
  unfold initialized. apply andb_false_intro2. apply Z.ltb_ge. lia.
Qed.

Example Legacy_GCPauseMs_busy :
  Legacy.GCPauseMs (Legacy.collectSystemStats busyRuntime) = 0%float.
Proof. vm_compute. reflexivity. Qed.

(** ** The CPU estimate *)

(** Above 100 is not below 0. *)
Lemma ltb_100_not_neg (x : float) :
  (100 <? x)%float = true -> (x <? 0)%float = false.
Proof.
  rewrite !FloatAxioms.ltb_spec.
  change (Prim2SF 100) with (S754_finite false 7036874417766400 (-46)).
  change (Prim2SF 0) with (S754_zero false).
  destruct (Prim2SF x) as [s|s| |s m e]; cbv [SFltb SFcompare];
    try reflexivity; try discriminate.
  - destruct s; [discriminate|reflexivity].
  - destruct s; [discriminate|reflexivity].
Qed.

(** The two tests of the code, the upper bound first, are the clamp. *)
Lemma clamp_0_100 (x : float) :
  (let cpuUsage := if (100 <? x)%float then 100%float else x in
   if (cpuUsage <? 0)%float then 0%float else cpuUsage) = clamp x 0 100.
Proof.
  cbv zeta. unfold clamp. destruct (100 <? x)%float eqn:H100.
  - rewrite (ltb_100_not_neg x H100). reflexivity.
  - reflexivity.
Qed.

(** A clamped value that is a number lies between the bounds. *)
Lemma clamp_0_100_range (x : float) :
  (clamp x 0 100 =? clamp x 0 100)%float = true ->
  (0 <=? clamp x 0 100)%float = true /\ (clamp x 0 100 <=? 100)%float = true.
Proof.
  unfold clamp. destruct (x <? 0)%float eqn:Hneg; [split; reflexivity|].
  destruct (100 <? x)%float eqn:H100; [split; reflexivity|].
  revert Hneg H100.
  rewrite !FloatAxioms.ltb_spec, FloatAxioms.eqb_spec, !FloatAxioms.leb_spec.
  change (Prim2SF 100) with (S754_finite false 7036874417766400 (-46)).
  change (Prim2SF 0) with (S754_zero false).
  destruct (Prim2SF x) as [s|s| |s m e].
  - intros; split; reflexivity.
  - destruct s; cbv [SFltb SFcompare]; discriminate.
  - cbv [SFeqb SFcompare]. discriminate.
  - destruct s; [cbv [SFltb SFcompare]; discriminate|].
    cbv [SFltb SFleb SFeqb SFcompare]. intros _.
    rewrite (Z.compare_antisym e (-46)).
    destruct (e ?= -46); cbn [CompOpp]; try discriminate; auto.
    change (Pos.compare_cont Eq 7036874417766400 m)
      with (Pos.compare_cont (CompOpp Eq) 7036874417766400 m).
    rewrite <- (Pos.compare_cont_antisym m 7036874417766400 Eq).
    destruct (Pos.compare_cont Eq m 7036874417766400); cbn [CompOpp];
      try discriminate; auto.
Qed.

(** With at least one core the estimate is a number between 0 and 100. *)
Lemma cpuUsageEstimate_range (tasks cores : Z) :
  0 <= tasks < 2 ^ 63 -> 1 <= cores < 2 ^ 63 ->
  (0 <=? cpuUsageEstimate tasks cores)%float = true
  /\ (cpuUsageEstimate tasks cores <=? 100)%float = true.
Proof.
  intros Htasks Hcores. unfold cpuUsageEstimate.
  set (x := (float64_of_Z tasks / float64_of_Z cores * 10)%float).
  assert (Hx : nonneg_float (Prim2SF x)).
  { subst x. rewrite FloatAxioms.mul_spec, FloatAxioms.div_spec.
    destruct (float64_of_Z_pos cores ltac:(lia)) as (m2 & e2 & ->).
    apply SF64mul_10_nonneg, SF64div_nonneg, float64_of_Z_nonneg. exact Htasks. }
  apply clamp_0_100_range. unfold clamp.
  destruct (x <? 0)%float; [reflexivity|].
  destruct (100 <? x)%float; [reflexivity|].
  apply eqb_refl_nonneg. exact Hx.
Qed.

(** C9: on every fresh sample [cpuUsageEstimate] is the goroutine count over
    the core count, times 10.0, clamped into [0, 100]: the value of the
    specification's formula, which lies between 0 and 100 whenever the
    runtime reports at least one core (and is a NaN only for no goroutine
    on no core). *)
Theorem collectSystemStats_CPUUsage {D : Type} (r : Reporter) (env : Tick D) :
  30 * Second <= Since (clock_cache env) (lastCPUTime r) ->
  let sample := (collectSystemStats r env).1.1 in
  CPUUsage sample =
  cpuUsageEstimate (NumGoroutine (runtime env)) (NumCPU (runtime env))
  /\ GoroutineCount sample = NumGoroutine (runtime env)
  /\ CPUCount sample = NumCPU (runtime env)
  /\ (0 <= NumGoroutine (runtime env) < 2 ^ 63 ->
      1 <= NumCPU (runtime env) < 2 ^ 63 ->
      (0 <=? CPUUsage sample)%float = true
      /\ (CPUUsage sample <=? 100)%float = true)
  /\ ((CPUUsage sample =? CPUUsage sample)%float = true ->
      (0 <=? CPUUsage sample)%float = true
      /\ (CPUUsage sample <=? 100)%float = true).
Proof.
  intros Hstale. cbv zeta.
  rewrite (collectSystemStats_stale r env Hstale). cbn [fst].
  assert (Hcpu : CPUUsage (sampleSystemStats (runtime env)) =
                 cpuUsageEstimate (NumGoroutine (runtime env)) (NumCPU (runtime env))).
  { unfold sampleSystemStats, cpuUsageEstimate. cbn [CPUUsage].
    apply clamp_0_100. }
  split; [exact Hcpu|]. split; [reflexivity|]. split; [reflexivity|].
  rewrite Hcpu. split.
  - intros Htasks Hcores. apply cpuUsageEstimate_range; assumption.
  - unfold cpuUsageEstimate. apply clamp_0_100_range.
Qed.

Lemma collectSystemStats_CPUUsage_witness :
  let sample := (collectSystemStats localReporter
                   (tickAt Second busyRuntime (Response 200))).1.1 in
  CPUUsage sample = cpuUsageEstimate 16 4
  /\ GoroutineCount sample = 16
  /\ CPUCount sample = 4
  /\ (0 <= 16 < 2 ^ 63 ->
      1 <= 4 < 2 ^ 63 ->
      (0 <=? CPUUsage sample)%float = true
      /\ (CPUUsage sample <=? 100)%float = true)
  /\ ((CPUUsage sample =? CPUUsage sample)%float = true ->
      (0 <=? CPUUsage sample)%float = true
      /\ (CPUUsage sample <=? 100)%float = true).
Proof.
  apply (collectSystemStats_CPUUsage localReporter
           (tickAt Second busyRuntime (Response 200))).
  vm_compute. discriminate.
Defined.

(** 16 goroutines on 4 cores are 40; 400 goroutines on 4 cores are cut to
    100. *)
Example cpuUsageEstimate_values :
  cpuUsageEstimate 16 4 = 40%float /\ cpuUsageEstimate 400 4 = 100%float.
Proof. vm_compute. auto. Qed.

(** ** The system sampler: the cache *)

(** The sampler never touches the counter store's lock. *)
Lemma collectSystemStats_own_lock {D : Type} (r : Reporter) (env : Tick D) :
  Forall (fun e => rlock_op stats_mu e = false /\ e <> Lock stats_mu
                   /\ e <> Unlock stats_mu)
         (collectSystemStats r env).2.
Proof.
  unfold collectSystemStats.
  destruct (Since (clock_cache env) (lastCPUTime r) <? 30 * Second); cbn [snd];
    repeat constructor; discriminate.
Qed.

(** C3, as the code has it. A call made less than 30 seconds after the
    last sample time returns the cached sample, without reading the
    runtime and without touching the cache, so that two calls which are
    both within 30 seconds of that sample time return identical values. A
    call 30 seconds or more after the last sample time reads the runtime
    anew, returns the new sample and stores it with the time of the store,
    the assignment lying between [Lock] and [Unlock] of the sampler's own
    mutex; calls within 30 seconds of that store then return this sample. *)
Theorem collectSystemStats_cache {D : Type} (r : Reporter) (env : Tick D) :
  (Since (clock_cache env) (lastCPUTime r) < 30 * Second ->
   collectSystemStats r env =
   (lastCPUStats r, r, [RLock cpuCacheMutex; ReadCache; RUnlock cpuCacheMutex])
   /\ forall env' : Tick D,
        Since (clock_cache env') (lastCPUTime r) < 30 * Second ->
        (collectSystemStats (collectSystemStats r env).1.2 env').1.1 =
        (collectSystemStats r env).1.1)
  /\ (30 * Second <= Since (clock_cache env) (lastCPUTime r) ->
      (collectSystemStats r env).1.1 = sampleSystemStats (runtime env)
      /\ lastCPUStats (collectSystemStats r env).1.2 = sampleSystemStats (runtime env)
      /\ lastCPUTime (collectSystemStats r env).1.2 = clock_store env
      /\ In ReadRuntime (collectSystemStats r env).2
      /\ during_lock cpuCacheMutex false (collectSystemStats r env).2 = [WriteCache]
      /\ forall env' : Tick D,
           Since (clock_cache env') (clock_store env) < 30 * Second ->
           (collectSystemStats (collectSystemStats r env).1.2 env').1.1 =
           (collectSystemStats r env).1.1).
Proof.
  split.
  - intros Hhit. rewrite (collectSystemStats_cached r env Hhit).
    split; [reflexivity|]. intros env' Hhit'. cbn [fst snd].
    rewrite (collectSystemStats_cached r env' Hhit'). reflexivity.
  - intros Hmiss. rewrite (collectSystemStats_stale r env Hmiss). cbn [fst snd].
    split; [reflexivity|]. split; [reflexivity|]. split; [reflexivity|].
    split; [right; right; right; left; reflexivity|].
    split; [reflexivity|].
    intros env' Hhit'.
    rewrite collectSystemStats_cached by exact Hhit'. reflexivity.
Qed.

(** A sampled reporter 29 seconds later: the cached sample of the idle
    runtime, although the runtime is busy by now. *)
Example collectSystemStats_hit :
  (collectSystemStats sampledReporter
     (tickAt (29 * Second) busyRuntime (Response 200))).1.1
  = sampleSystemStats idleRuntime.
Proof. vm_compute. reflexivity. Qed.

(** C3, as the specification words it ("two calls less than 30 seconds
    apart return identical values"), fails: a hit does not renew the sample
    time. The cache was filled at second 0; the call at second 29 returns
    the cached sample, the call at second 31, two seconds later, a new one. *)
Lemma collectSystemStats_two_calls_differ :
  let first := collectSystemStats sampledReporter
                 (tickAt (29 * Second) busyRuntime (Response 200)) in
  let second := collectSystemStats first.1.2
                  (tickAt (31 * Second) busyRuntime (Response 200)) in
  (year2026 + 31 * Second) - (year2026 + 29 * Second) < 30 * Second
  /\ GoroutineCount first.1.1 = 8
  /\ GoroutineCount second.1.1 = 16
  /\ first.1.1 <> second.1.1.
Proof.
  cbv zeta. split; [vm_compute; reflexivity|].
  split; [vm_compute; reflexivity|].
  split; [vm_compute; reflexivity|].
  intros H. apply (f_equal GoroutineCount) in H. vm_compute in H. discriminate.
Qed.

(** ** The events of a tick *)

Lemma generateReport_reporter
  (r : Reporter) (st : Stats) (env : Tick ReportData) :
  (generateReport r st env).1.2 = (collectSystemStats r env).1.2.
Proof.
  unfold generateReport.
  destruct (collectSystemStats r env) as [[systemStats r'] sampling].
  reflexivity.
Qed.

Lemma generateReport_events
  (r : Reporter) (st : Stats) (env : Tick ReportData) :
  (generateReport r st env).2 =
  let reportData := (generateReport r st env).1.1 in
  [RLock stats_mu; ReadStats] ++ (collectSystemStats r env).2
  ++ [ReadStats; Marshal reportData]
  ++ (if marshals env reportData
      then (if String.eqb (reportURL r) EmptyString then []
            else sendToRemote r reportData (http env))
           ++ map (Log InfoLevel) (reportLines reportData)
      else [Log ErrorLevel MarshalFailedLine])
  ++ [RUnlock stats_mu].
Proof.
  unfold generateReport.
  destruct (collectSystemStats r env) as [[systemStats r'] sampling].
  reflexivity.
Qed.

(** Events that leave the shared mode of [l] alone are all seen while it
    is held. *)
Lemma during_rlock_app {D : Type} (l : lock) (body rest : list (event D)) :
  Forall (fun e => rlock_op l e = false) body ->
  during_rlock l true (body ++ rest) = body ++ during_rlock l true rest.
Proof.
  induction 1 as [|e body He Hbody IH]; [reflexivity|].
  cbn [app during_rlock]. rewrite He. cbn [andb negb].
  assert (Hheld : rheld_after l true e = true).
  { destruct e; cbn in He |- *; try reflexivity; rewrite He; reflexivity. }
  rewrite Hheld, IH. reflexivity.
Qed.

Lemma during_rlock_bracket {D : Type} (l : lock) (body : list (event D)) :
  Forall (fun e => rlock_op l e = false) body ->
  during_rlock l false (RLock l :: body ++ [RUnlock l]) = body.
Proof.
  intros Hbody. cbn [during_rlock andb rheld_after].
  assert (Hl : lock_eqb l l = true) by (destruct l; reflexivity).
  rewrite Hl. rewrite (during_rlock_app l body [RUnlock l] Hbody).
  cbn [during_rlock rlock_op rheld_after]. rewrite Hl. cbn [negb andb].
  apply app_nil_r.
Qed.

Lemma sendToRemote_no_lock {D : Type} (l : lock) (r : Reporter) (data : D)
  (res : http_result) :
  Forall (fun e => rlock_op l e = false) (sendToRemote r data res).
Proof.
  destruct res as [| |StatusCode]; cbn [sendToRemote]; repeat constructor.
  destruct ((200 <=? StatusCode) && (StatusCode <? 300)); reflexivity.
Qed.

Lemma Log_no_lock {D : Type} (l : lock) (lv : level) (lines : list line) :
  Forall (fun e : event D => rlock_op l e = false) (map (Log lv) lines).
Proof. induction lines; constructor; auto. Qed.

(** C4, as the code has it: the shared lock of the counter store is taken
    first and, the release being deferred, given back last; everything
    else the tick does lies in between and happens while the lock is held:
    both reads of the store, the sampling, the serialization of the
    document, the HTTP delivery when there is one, and every log line. *)
Theorem generateReport_holds_stats_mu
  (r : Reporter) (st : Stats) (env : Tick ReportData) :
  let tr := (generateReport r st env).2 in
  exists body,
    tr = RLock stats_mu :: body ++ [RUnlock stats_mu]
    /\ Forall (fun e => rlock_op stats_mu e = false) body
    /\ during_rlock stats_mu false tr = body
    /\ List.filter is_output (during_rlock stats_mu false tr) = List.filter is_output tr
    /\ In (Marshal (generateReport r st env).1.1) (during_rlock stats_mu false tr).
Proof.
  cbv zeta. rewrite generateReport_events. cbv zeta.
  set (doc := (generateReport r st env).1.1).
  set (rest := if marshals env doc
               then (if String.eqb (reportURL r) EmptyString then []
                     else sendToRemote r doc (http env))
                    ++ map (Log InfoLevel) (reportLines doc)
               else [Log ErrorLevel MarshalFailedLine]).
  set (body := [ReadStats] ++ (collectSystemStats r env).2
               ++ [ReadStats; Marshal doc] ++ rest).
  assert (Hbody : Forall (fun e : event ReportData => rlock_op stats_mu e = false)
                    body).
  { apply Forall_app. split; [repeat constructor|].
    apply Forall_app. split.
    - eapply Forall_impl; [apply collectSystemStats_own_lock|].
      intros e (He & _); exact He.
    - apply Forall_app. split; [repeat constructor|].
      subst rest. destruct (marshals env doc); [|repeat constructor].
      apply Forall_app. split; [|apply Log_no_lock].
      destruct (String.eqb (reportURL r) EmptyString);
        [constructor|apply sendToRemote_no_lock]. }
  assert (Hin : In (Marshal doc) body).
  { apply in_or_app. right. apply in_or_app. right.
    apply in_or_app. left. right. left. reflexivity. }
  assert (Htr : [RLock stats_mu; ReadStats] ++ (collectSystemStats r env).2
                ++ [ReadStats; Marshal doc] ++ rest ++ [RUnlock stats_mu]
                = RLock stats_mu :: body ++ [RUnlock stats_mu]).
  { subst body. cbn [app]. rewrite <- !app_assoc. reflexivity. }
  rewrite Htr. clearbody body. exists body.
  rewrite (during_rlock_bracket stats_mu body Hbody).
  split; [reflexivity|]. split; [exact Hbody|]. split; [reflexivity|].
  split; [|exact Hin].
  cbn [List.filter is_output]. rewrite List.filter_app.
  cbn [List.filter is_output]. rewrite app_nil_r. reflexivity.
Qed.

(** C4, as the specification words it, fails on every tick: with a
    collector configured, the serialization, the POST and all the log lines
    of the tick happen while the counter store's lock is held. *)
Lemma generateReport_delivers_under_lock :
  let result := generateReport remoteReporter scenarioStats
                  (tickAt Second idleRuntime (Response 200)) in
  let doc := result.1.1 in
  List.filter is_output (during_rlock stats_mu false result.2) =
  [Marshal doc; HTTPPost "http://collector/report" doc;
   Log DebugLevel (SendOKLine 200)]
  ++ map (Log InfoLevel) (reportLines doc)
  /\ forallb (fun e => negb (is_output e)) (during_rlock stats_mu false result.2)
     = false.
Proof. vm_compute. auto. Qed.

(** ** Delivery and the log *)

Lemma logged_app {D : Type} (lv : level) (a b : list (event D)) :
  logged lv (a ++ b) = logged lv a ++ logged lv b.
Proof. apply omap_app. Qed.

Lemma posted_app {D : Type} (a b : list (event D)) :
  posted (a ++ b) = posted a ++ posted b.
Proof. apply omap_app. Qed.

Lemma logged_Log {D : Type} (lv lv' : level) (lines : list line) :
  logged (D:=D) lv (map (Log lv') lines) =
  if level_eqb lv lv' then lines else [].
Proof.
  induction lines as [|ln lines IH]; [destruct (level_eqb lv lv'); reflexivity|].
  cbn [map]. unfold logged in *. cbn [omap list_omap]. rewrite IH.
  destruct (level_eqb lv lv'); reflexivity.
Qed.

Lemma posted_Log {D : Type} (lv : level) (lines : list line) :
  posted (D:=D) (map (Log lv) lines) = [].
Proof. induction lines as [|ln lines IH]; [reflexivity|exact IH]. Qed.

(** The sampler logs nothing and posts nothing. *)
Lemma collectSystemStats_silent {D : Type} (r : Reporter) (env : Tick D) :
  (forall lv, logged lv (collectSystemStats r env).2 = [])
  /\ posted (collectSystemStats r env).2 = [].
Proof.
  unfold collectSystemStats.
  destruct (Since (clock_cache env) (lastCPUTime r) <? 30 * Second);
    split; reflexivity.
Qed.

(** The sampler does not look at the HTTP outcome. *)
Lemma collectSystemStats_with_http {D : Type} (r : Reporter) (env : Tick D)
  (res : http_result) :
  collectSystemStats r (with_http env res) = collectSystemStats r env.
Proof. reflexivity. Qed.

(** What a tick logs and posts, by the outcome of the serialization. *)
Lemma generateReport_logged_posted
  (r : Reporter) (st : Stats) (env : Tick ReportData) :
  let doc := (generateReport r st env).1.1 in
  let tr := (generateReport r st env).2 in
  let sent := if String.eqb (reportURL r) EmptyString then []
              else sendToRemote r doc (http env) in
  (marshals env doc = true ->
   posted tr = posted sent
   /\ forall lv, logged lv tr =
                 logged lv sent ++ (if level_eqb lv InfoLevel then reportLines doc else []))
  /\ (marshals env doc = false ->
      posted tr = []
      /\ forall lv, logged lv tr =
                    if level_eqb lv ErrorLevel then [MarshalFailedLine] else []).
Proof.
  cbv zeta. rewrite generateReport_events. cbv zeta.
  set (doc := (generateReport r st env).1.1).
  destruct (collectSystemStats_silent r env) as [Hlog Hpost].
  split; intros Hm; rewrite Hm.
  - split.
    + rewrite !posted_app, Hpost, posted_Log. cbn [posted omap list_omap app].
      rewrite !app_nil_r. reflexivity.
    + intros lv. rewrite !logged_app, Hlog, logged_Log.
      cbn [logged omap list_omap app]. rewrite app_nil_r. reflexivity.
  - split.
    + rewrite !posted_app, Hpost. reflexivity.
    + intros lv. rewrite !logged_app, Hlog. cbn [logged omap list_omap app].
      destruct (level_eqb lv ErrorLevel); reflexivity.
Qed.

(** The report lines: a header, the totals, one line for each source of
    the store, and the resource sample. *)
Lemma reportLines_sources
  (r : Reporter) (st : Stats) (env : Tick ReportData) :
  let doc := (generateReport r st env).1.1 in
  length (reportLines doc) = (3 + size (sourceIPStats st))%nat
  /\ forall ip stats,
       sourceIPStats st !! ip = Some stats ->
       exists bandwidth,
         In (SourceLine ip (BytesSent stats) bandwidth (PacketsSent stats))
            (reportLines doc).
Proof.
  cbv zeta. unfold reportLines. rewrite generateReport_source_ip_stats.
  set (uptime := Seconds (Since (clock_uptime env) (startTime r))).
  split.
  - cbn [app length]. rewrite length_app, length_map, length_map_to_list.
    rewrite copySourceIPStats_fmap, map_size_fmap. cbn [length]. lia.
  - intros ip stats Hip.
    pose proof (copySourceIPStats_lookup uptime (sourceIPStats st) ip) as Hl.
    rewrite Hip in Hl. cbn [fmap option_fmap option_map] in Hl.
    apply elem_of_map_to_list in Hl. apply list_elem_of_In in Hl.
    eexists. apply in_or_app. right. apply in_or_app. left.
    apply in_map_iff. eexists. split; [|exact Hl]. reflexivity.
Qed.

(** C8: without a destination URL no tick makes a network call,
    whatever else happens in it; nothing is logged as a warning or an
    error on that account; and the report lines (header, totals, one line
    per source, resource sample) are logged on every tick whose document
    is encoded. A tick whose document cannot be encoded, the
    serialization failure that the specification sets apart, logs the
    encoding error instead, with or without a destination. *)
Theorem generateReport_local_only
  (r : Reporter) (st : Stats) (env : Tick ReportData) :
  reportURL r = EmptyString ->
  let doc := (generateReport r st env).1.1 in
  let tr := (generateReport r st env).2 in
  posted tr = []
  /\ (marshals env doc = true ->
      logged InfoLevel tr = reportLines doc
      /\ logged WarnLevel tr = []
      /\ logged ErrorLevel tr = [])
  /\ (marshals env doc = false ->
      logged InfoLevel tr = []
      /\ logged ErrorLevel tr = [MarshalFailedLine])
  /\ length (reportLines doc) = (3 + size (sourceIPStats st))%nat.
Proof.
  intros Hurl. cbv zeta.
  destruct (generateReport_logged_posted r st env) as [Hok Hfail].
  cbv zeta in Hok, Hfail. rewrite Hurl in Hok. cbn [String.eqb] in Hok.
  split.
  - destruct (marshals env (generateReport r st env).1.1) eqn:Hm.
    + destruct (Hok eq_refl) as [Hp _]. exact Hp.
    + destruct (Hfail eq_refl) as [Hp _]. exact Hp.
  - split; [|split].
    + intros Hm. destruct (Hok Hm) as [_ Hl].
      rewrite !Hl. repeat split; reflexivity.
    + intros Hm. destruct (Hfail Hm) as [_ Hl].
      rewrite !Hl. split; reflexivity.
    + apply (reportLines_sources r st env).
Qed.

Lemma generateReport_local_only_witness :
  let result := generateReport localReporter scenarioStats
                  (tickAt Second idleRuntime (Response 200)) in
  posted result.2 = []
  /\ (true = true ->
      logged InfoLevel result.2 = reportLines result.1.1
      /\ logged WarnLevel result.2 = []
      /\ logged ErrorLevel result.2 = [])
  /\ (true = false ->
      logged InfoLevel result.2 = []
      /\ logged ErrorLevel result.2 = [MarshalFailedLine])
  /\ length (reportLines result.1.1) = (3 + size (sourceIPStats scenarioStats))%nat.
Proof.
  apply (generateReport_local_only localReporter scenarioStats
           (tickAt Second idleRuntime (Response 200))).
  reflexivity.
Defined.

(** The log of the scenario when no destination is configured. *)
Example local_only_log :
  logged InfoLevel
    (generateReport localReporter scenarioStats
       (tickAt Second idleRuntime (Response 200))).2
  = [ReportHeaderLine;
     TotalsLine 125000 100 1 1;
     SourceLine "10.0.0.3" 0 0 0;
     SourceLine "10.0.0.2" 125000 1 100;
     SystemLine 20 25 1 4 8 0].
Proof. vm_compute. reflexivity. Qed.

(** The older reporter behaves the same way without a destination. *)
Lemma Legacy_generateReport_local_only
  (r : Legacy.Reporter) (st : Stats) (env : Tick Legacy.ReportData) :
  Legacy.reportURL r = EmptyString ->
  let doc := (Legacy.generateReport r st env).1 in
  let tr := (Legacy.generateReport r st env).2 in
  posted tr = []
  /\ (marshals env doc = true ->
      logged InfoLevel tr = Legacy.reportLines doc
      /\ logged WarnLevel tr = []
      /\ logged ErrorLevel tr = [])
  /\ (marshals env doc = false ->
      logged InfoLevel tr = []
      /\ logged ErrorLevel tr = [MarshalFailedLine]).
Proof.
  intros Hurl. cbv zeta. unfold Legacy.generateReport. cbn [fst snd].
  rewrite Hurl. cbn [String.eqb].
  set (doc := Legacy.mkReportData _ _ _ _ _).
  destruct (marshals env doc).
  - rewrite !posted_app, !logged_app, posted_Log, !logged_Log.
    cbn [posted logged omap list_omap app level_eqb].
    rewrite app_nil_r. repeat split; try reflexivity; discriminate.
  - repeat split; try reflexivity; discriminate.
Qed.

(** What the tick leaves in the reporter does not depend on the delivery. *)
Lemma generateReport_reporter_with_http
  (r : Reporter) (st : Stats) (env : Tick ReportData) (res : http_result) :
  (generateReport r st (with_http env res)).1.2 = (generateReport r st env).1.2.
Proof. rewrite !generateReport_reporter. reflexivity. Qed.

Lemma generateReport_last_event
  (r : Reporter) (st : Stats) (env : Tick ReportData) :
  last (generateReport r st env).2 = Some (RUnlock stats_mu).
Proof.
  rewrite generateReport_events. cbv zeta.
  rewrite !app_assoc. apply last_snoc.
Qed.

(** In the loop, [generateReport] always comes back to the [select], and
    while the ticker runs the next tick can be taken and reported. *)
Lemma exec_GenerateReport (w : world) (st : Stats) (env : Tick ReportData) :
  loop w = InReport ->
  exists w',
    exec w (GenerateReport st env) = Some w'
    /\ loop w' = AtSelect
    /\ caller w' = caller w
    /\ ticking w' = ticking w
    /\ reporter w' = (generateReport (reporter w) st env).1.2
    /\ output w' = output w ++ (generateReport (reporter w) st env).2
    /\ (ticking w = true ->
        forall st' env',
        exists acts w'',
          run w' acts = Some w''
          /\ output w'' = output w' ++ (generateReport (reporter w') st' env').2).
Proof.
  intros Hloop. unfold exec. rewrite Hloop. cbn [loop_pc_eqb].
  eexists. split; [reflexivity|]. cbn [loop caller ticking reporter output].
  repeat (split; [reflexivity|]).
  intros Hticking st' env'.
  destruct (tick_ready w) eqn:Hready.
  - exists [SelectTick; GenerateReport st' env']. eexists.
    cbn [run exec loop tick_ready loop_pc_eqb andb reporter output].
    split; reflexivity.
  - exists [TickArrives; SelectTick; GenerateReport st' env']. eexists.
    cbn [run exec loop ticking tick_ready loop_pc_eqb andb negb reporter output].
    rewrite Hticking. cbn [andb negb loop_pc_eqb].
    split; reflexivity.
Qed.

(** C6: when a delivery attempt ends in a transport error or in a response
    outside 2xx, the failure is logged (an error for the transport, a
    warning for the status) and that is all: the document was posted once
    and is not posted again, the tick goes on to log its report and to
    release the lock, the reporter is left exactly as a delivered report
    leaves it, and the loop is back at its [select], where the next tick
    is taken and reported as usual. *)
Theorem sendToRemote_failure_not_fatal
  (r : Reporter) (st : Stats) (env : Tick ReportData) :
  reportURL r <> EmptyString ->
  marshals env (generateReport r st env).1.1 = true ->
  (http env = TransportError
   \/ exists StatusCode,
        http env = Response StatusCode /\ ~ (200 <= StatusCode < 300)) ->
  let doc := (generateReport r st env).1.1 in
  let tr := (generateReport r st env).2 in
  posted tr = [doc]
  /\ logged ErrorLevel tr =
     match http env with TransportError => [SendFailedLine] | _ => [] end
  /\ logged WarnLevel tr =
     match http env with
     | Response StatusCode => [SendAbnormalLine StatusCode]
     | _ => []
     end
  /\ logged InfoLevel tr = reportLines doc
  /\ last tr = Some (RUnlock stats_mu)
  /\ (forall res,
        (generateReport r st (with_http env res)).1.2 = (generateReport r st env).1.2)
  /\ (forall w,
        loop w = InReport -> reporter w = r -> ticking w = true ->
        exists w',
          exec w (GenerateReport st env) = Some w'
          /\ loop w' = AtSelect
          /\ ticking w' = true
          /\ output w' = output w ++ (generateReport r st env).2
          /\ forall st' env',
             exists acts w'',
               run w' acts = Some w''
               /\ output w'' = output w' ++ (generateReport (reporter w') st' env').2).
Proof.
  intros Hurl Hm Hfail. cbv zeta.
  destruct (generateReport_logged_posted r st env) as [Hok _].
  cbv zeta in Hok. destruct (Hok Hm) as [Hposted Hlogged]. clear Hok.
  assert (Hne : String.eqb (reportURL r) EmptyString = false)
    by (apply String.eqb_neq; exact Hurl).
  rewrite Hne in Hposted, Hlogged.
  assert (Hsent :
    posted (sendToRemote r (generateReport r st env).1.1 (http env))
    = [(generateReport r st env).1.1]
    /\ forall lv,
         logged lv (sendToRemote r (generateReport r st env).1.1 (http env)) =
         match http env with
         | TransportError => if level_eqb lv ErrorLevel then [SendFailedLine] else []
         | Response StatusCode =>
             if level_eqb lv WarnLevel then [SendAbnormalLine StatusCode] else []
         | RequestError => if level_eqb lv ErrorLevel then [RequestFailedLine] else []
         end).
  { destruct Hfail as [-> | (StatusCode & -> & Hbad)].
    - split; [reflexivity|]. intros lv. destruct lv; reflexivity.
    - cbn [sendToRemote].
      assert (H2xx : (200 <=? StatusCode) && (StatusCode <? 300) = false).
      { apply andb_false_iff.
        destruct (Z.leb_spec 200 StatusCode); [|left; reflexivity].
        destruct (Z.ltb_spec StatusCode 300); [lia|right; reflexivity]. }
      rewrite H2xx. split; [reflexivity|]. intros lv. destruct lv; reflexivity. }
  destruct Hsent as [Hsp Hsl].
  split; [rewrite Hposted; exact Hsp|].
  rewrite !Hlogged, !Hsl.
  split; [destruct Hfail as [-> | (StatusCode & -> & _)]; reflexivity|].
  split; [destruct Hfail as [-> | (StatusCode & -> & _)]; reflexivity|].
  split; [destruct Hfail as [-> | (StatusCode & -> & _)]; reflexivity|].
  split; [apply generateReport_last_event|].
  split; [intros res; apply generateReport_reporter_with_http|].
  intros w Hloop Hr Hticking.
  destruct (exec_GenerateReport w st env Hloop)
    as (w' & Hexec & Hloop' & _ & Hticking' & _ & Hout & Hnext).
  exists w'. split; [exact Hexec|]. split; [exact Hloop'|].
  split; [rewrite Hticking'; exact Hticking|].
  split; [rewrite Hout, Hr; reflexivity|].
  exact (Hnext Hticking).
Qed.

Lemma sendToRemote_failure_not_fatal_witness :
  let r := remoteReporter in
  let st := scenarioStats in
  let env := tickAt Second idleRuntime (Response 500) in
  let doc := (generateReport r st env).1.1 in
  let tr := (generateReport r st env).2 in
  posted tr = [doc]
  /\ logged ErrorLevel tr =
     match http env with TransportError => [SendFailedLine] | _ => [] end
  /\ logged WarnLevel tr =
     match http env with
     | Response StatusCode => [SendAbnormalLine StatusCode]
     | _ => []
     end
  /\ logged InfoLevel tr = reportLines doc
  /\ last tr = Some (RUnlock stats_mu)
  /\ (forall res,
        (generateReport r st (with_http env res)).1.2 = (generateReport r st env).1.2)
  /\ (forall w,
        loop w = InReport -> reporter w = r -> ticking w = true ->
        exists w',
          exec w (GenerateReport st env) = Some w'
          /\ loop w' = AtSelect
          /\ ticking w' = true
          /\ output w' = output w ++ (generateReport r st env).2
          /\ forall st' env',
             exists acts w'',
               run w' acts = Some w''
               /\ output w'' = output w' ++ (generateReport (reporter w') st' env').2).
Proof.
  cbv zeta.
  apply (sendToRemote_failure_not_fatal remoteReporter scenarioStats
           (tickAt Second idleRuntime (Response 500))).
  - discriminate.
  - reflexivity.
  - right. exists 500. split; [reflexivity|]. lia.
Defined.

(** The scenario of the specification: the collector answers 500; a
    warning is logged, nothing at error level, and the report lines follow. *)
Example collector_answers_500 :
  let tr := (generateReport remoteReporter scenarioStats
               (tickAt Second idleRuntime (Response 500))).2 in
  logged WarnLevel tr = [SendAbnormalLine 500]
  /\ logged ErrorLevel tr = []
  /\ length (posted tr) = 1%nat
  /\ length (logged InfoLevel tr) = 5%nat.
Proof. vm_compute. auto. Qed.

(** ** The life cycle *)

Lemma caller_pc_eqb_eq (a b : caller_pc) : caller_pc_eqb a b = true -> a = b.
Proof. destruct a, b; (reflexivity || discriminate). Qed.

Lemma loop_pc_eqb_eq (a b : loop_pc) : loop_pc_eqb a b = true -> a = b.
Proof. destruct a, b; (reflexivity || discriminate). Qed.

(** Reads off what the guard of an [exec] that succeeded says. *)
Ltac exec_guard H :=
  match type of H with
  | (if ?b then _ else _) = Some _ =>
      let G := fresh "Hguard" in
      destruct b eqn:G; [|discriminate H];
      repeat match type of G with
             | _ && _ = true =>
                 let G' := fresh "Hguard" in
                 apply andb_prop in G; destruct G as [G G']
             end;
      injection H as <-
  end.

Ltac pc_facts :=
  repeat match goal with
         | H : caller_pc_eqb _ _ = true |- _ => apply caller_pc_eqb_eq in H
         | H : loop_pc_eqb _ _ = true |- _ => apply loop_pc_eqb_eq in H
         | H : (_ =? _) = true |- _ => apply Z.eqb_eq in H
         | H : negb _ = true |- _ => apply negb_true_iff in H
         end.

Lemma exec_well_formed (w w' : world) (a : action) :
  well_formed w -> exec w a = Some w' -> well_formed w'.
Proof.
  unfold well_formed.
  destruct w as [c l cancel n tk rdy r out].
  intros (Hc & Hn & Htk & Hrdy) Hexec.
  cbn [caller loop cancelled wg ticking tick_ready] in Hc, Hn, Htk, Hrdy.
  destruct a; cbn [exec with_caller caller loop cancelled wg ticking tick_ready
                     reporter output] in Hexec;
    exec_guard Hexec; pc_facts; subst;
    cbn [caller loop cancelled wg ticking tick_ready].
  - destruct Hc as [-> ->]. repeat split; auto; lia.
  - destruct Hc as [Hl ->]. repeat split; auto.
  - destruct Hc as [Hl ->]. repeat split; auto.
    destruct Hl as [->|[->| ->]]; discriminate.
  - destruct Hc as [Hl ->]. split; [|auto].
    split; [|reflexivity]. destruct l; try reflexivity; try discriminate; congruence.
  - repeat split; tauto.
  - repeat split; auto.
    destruct c; intuition (try discriminate; auto).
  - repeat split; auto. destruct l; try discriminate; auto.
  - repeat split; auto; try lia.
    destruct c; intuition (try discriminate; auto).
  - repeat split; auto.
    destruct c; intuition (try discriminate; auto).
  - repeat split; auto.
    destruct c; intuition (try discriminate; auto).
Qed.

Lemma run_well_formed (acts : list action) (w w' : world) :
  well_formed w -> run w acts = Some w' -> well_formed w'.
Proof.
  revert w. induction acts as [|a acts IH]; intros w Hw Hrun; cbn [run] in Hrun.
  - injection Hrun as <-. exact Hw.
  - destruct (exec w a) as [w1|] eqn:Hexec; [|discriminate].
    exact (IH w1 (exec_well_formed w w1 a Hw Hexec) Hrun).
Qed.

Lemma run_app (acts acts' : list action) (w : world) :
  run w (acts ++ acts') =
  match run w acts with
  | Some w' => run w' acts'
  | None => None
  end.
Proof.
  revert w. induction acts as [|a acts IH]; intros w; cbn [app run]; [reflexivity|].
  destruct (exec w a); [apply IH|reflexivity].
Qed.

Lemma boot_well_formed (r : Reporter) : well_formed (boot r).
Proof. unfold well_formed, boot. cbn. auto. Qed.

Lemma boot_quiet (r : Reporter) : quiet (boot r).
Proof. unfold quiet, boot. cbn. repeat split; auto; discriminate. Qed.

(** Once [Stop] has returned nothing can happen any more. *)
Lemma exec_Stopped (w : world) (a : action) :
  well_formed w -> caller w = Stopped -> exec w a = None.
Proof.
  unfold well_formed.
  destruct w as [c l cancel n tk rdy r out].
  cbn [caller loop cancelled wg ticking tick_ready].
  intros (Hc & Hn & Htk & _) ->. destruct Hc as [-> ->].
  subst. destruct a; reflexivity.
Qed.

Lemma filter_report_event_snoc {D : Type} (out : list (event D)) (ln : line) :
  is_report_event (D:=D) (Log InfoLevel ln) = false ->
  List.filter is_report_event out = [] ->
  List.filter is_report_event (out ++ [Log InfoLevel ln]) = [].
Proof.
  intros Hln Hout. rewrite List.filter_app, Hout. cbn [List.filter app].
  rewrite Hln. reflexivity.
Qed.

(** A step other than the arrival of a tick keeps a quiet world quiet and
    is one of the [remaining] steps. *)
Lemma exec_quiet (w w' : world) (a : action) :
  well_formed w -> quiet w -> is_tick a = false -> exec w a = Some w' ->
  quiet w' /\ remaining w = S (remaining w').
Proof.
  unfold well_formed, quiet, remaining.
  destruct w as [c l cancel n tk rdy r out].
  cbn [caller loop cancelled wg ticking tick_ready output].
  intros (Hc & Hn & Htk & Hrdy) (-> & Hl & Hout) Ha Hexec.
  destruct a; try discriminate Ha;
    cbn [exec with_caller caller loop cancelled wg ticking tick_ready
           reporter output] in Hexec;
    exec_guard Hexec; pc_facts;
    cbn [caller loop cancelled wg ticking tick_ready output];
    try discriminate; try congruence.
  - rewrite Hguard in Hc. destruct Hc as [-> _].
    rewrite Hguard. repeat split; auto; discriminate.
  - rewrite Hguard. split; [|reflexivity].
    repeat split; auto. apply filter_report_event_snoc; auto.
  - rewrite Hguard. repeat split; auto.
  - rewrite Hguard. repeat split; auto.
  - rewrite Hguard. split; [|reflexivity].
    repeat split; auto. apply filter_report_event_snoc; auto.
  - rewrite Hguard. repeat split; auto; try discriminate;
      destruct c; reflexivity.
  - rewrite Hguard. repeat split; auto; try discriminate;
      destruct c; reflexivity.
Qed.

Lemma run_quiet (acts : list action) (w w' : world) :
  well_formed w -> quiet w -> no_tick acts = true -> run w acts = Some w' ->
  quiet w' /\ remaining w = (length acts + remaining w')%nat.
Proof.
  revert w. induction acts as [|a acts IH]; intros w Hw Hq Hacts Hrun;
    cbn [run] in Hrun.
  - injection Hrun as <-. split; [exact Hq|reflexivity].
  - cbn [no_tick forallb] in Hacts. apply andb_prop in Hacts as [Ha Hacts].
    apply negb_true_iff in Ha.
    destruct (exec w a) as [w1|] eqn:Hexec; [|discriminate].
    destruct (exec_quiet w w1 a Hw Hq Ha Hexec) as [Hq1 Hrem].
    destruct (IH w1 (exec_well_formed w w1 a Hw Hexec) Hq1 Hacts Hrun)
      as [Hq' Hrem'].
    split; [exact Hq'|]. cbn [length]. lia.
Qed.

(** Until [Stop] has returned some step of the caller or of the goroutine
    can be taken: nobody waits for a tick. *)
Lemma exec_progress (w : world) :
  well_formed w -> caller w <> Stopped ->
  exists a w', is_tick a = false /\ exec w a = Some w'.
Proof.
  unfold well_formed.
  destruct w as [c l cancel n tk rdy r out].
  cbn [caller loop cancelled wg ticking tick_ready].
  intros (Hc & Hn & Htk & Hrdy) Hstop.
  destruct c; try congruence.
  - exists CallStart. eexists. split; reflexivity.
  - exists LogStarted. eexists. split; reflexivity.
  - exists CallCancel. eexists. split; reflexivity.
  - destruct Hc as [Hl ->]. destruct l; try congruence.
    + exists NewTicker. eexists. split; reflexivity.
    + exists SelectDone. eexists. split; reflexivity.
    + exists (GenerateReport scenarioStats (tickAt 0 idleRuntime (Response 200))).
      eexists. split; reflexivity.
    + exists WaitReturns. eexists. subst. split; reflexivity.
  - exists LogStopped. eexists. split; reflexivity.
Qed.

(** From a quiet world the program runs to the end of [Stop] without any
    tick and without a report. *)
Lemma quiet_run_completes (k : nat) (w : world) :
  well_formed w -> quiet w -> remaining w = k ->
  exists acts w',
    no_tick acts = true /\ run w acts = Some w'
    /\ caller w' = Stopped /\ quiet w'.
Proof.
  revert w. induction k as [|k IH]; intros w Hw Hq Hk.
  - exists [], w. split; [reflexivity|]. split; [reflexivity|].
    split; [|exact Hq].
    unfold remaining in Hk. destruct (caller w); try reflexivity; discriminate.
  - destruct (caller_pc_eqb (caller w) Stopped) eqn:Hs.
    + apply caller_pc_eqb_eq in Hs.
      exists [], w. repeat split; auto; apply Hq.
    + assert (Hns : caller w <> Stopped).
      { intros Heq. rewrite Heq in Hs. discriminate. }
      destruct (exec_progress w Hw Hns) as (a & w1 & Ha & Hexec).
      destruct (exec_quiet w w1 a Hw Hq Ha Hexec) as [Hq1 Hrem].
      destruct (IH w1 (exec_well_formed w w1 a Hw Hexec) Hq1 ltac:(lia))
        as (acts & w' & Hacts & Hrun & Hstop & Hq').
      exists (a :: acts), w'. cbn [no_tick forallb run]. rewrite Ha, Hexec.
      repeat split; auto; apply Hq'.
Qed.

(** C5: [Stop] returns only after the goroutine of [reportLoop] has seen
    the cancellation and returned ([wg.Wait()] lets the caller pass only
    then); once [Stop] has returned no step is left to anybody, so nothing
    is reported or delivered any more; until then some step can always be
    taken without waiting for a tick. When no tick arrives between [Start]
    and the end of [Stop], the run makes no report, has at most 7 steps,
    and can always be continued, still without a tick or a report, until
    [Stop] has returned. *)
Theorem Stop_joins_reportLoop (r : Reporter) (acts : list action) (w : world) :
  run (boot r) acts = Some w ->
  ((caller w = AfterWait \/ caller w = Stopped) ->
   loop w = Returned /\ cancelled w = true /\ ticking w = false /\ wg w = 0)
  /\ (caller w = Stopped ->
      (forall a, exec w a = None)
      /\ forall acts' w', run w acts' = Some w' -> output w' = output w)
  /\ (caller w <> Stopped ->
      exists a w', is_tick a = false /\ exec w a = Some w')
  /\ (no_tick acts = true ->
      List.filter is_report_event (output w) = []
      /\ (length acts <= 7)%nat
      /\ exists acts' w',
           no_tick acts' = true
           /\ run w acts' = Some w'
           /\ caller w' = Stopped
           /\ List.filter is_report_event (output w') = []).
Proof.
  intros Hrun.
  pose proof (run_well_formed acts (boot r) w (boot_well_formed r) Hrun) as Hw.
  split; [|split; [|split]].
  - intros Hc. destruct Hw as (Hpc & Hn & Htk & _).
    assert (Hl : loop w = Returned /\ cancelled w = true)
      by (destruct Hc as [Hc|Hc]; rewrite Hc in Hpc; exact Hpc).
    destruct Hl as [Hl Hcancel]. rewrite Hl in Hn, Htk. auto.
  - intros Hc.
    assert (Hnone : forall a, exec w a = None)
      by (intros a; apply exec_Stopped; assumption).
    split; [exact Hnone|].
    intros [|a acts'] w' Hrun'; cbn [run] in Hrun'.
    + injection Hrun' as <-. reflexivity.
    + rewrite Hnone in Hrun'. discriminate.
  - apply exec_progress. exact Hw.
  - intros Hacts.
    destruct (run_quiet acts (boot r) w (boot_well_formed r) (boot_quiet r)
                Hacts Hrun) as [Hq Hrem].
    split; [apply Hq|]. split; [cbn in Hrem; lia|].
    destruct (quiet_run_completes (remaining w) w Hw Hq eq_refl)
      as (acts' & w' & Hacts' & Hrun' & Hstop & Hq').
    exists acts', w'. repeat split; auto. apply Hq'.
Qed.

Lemma Stop_joins_reportLoop_witness :
  let w := stoppedWorld in
  ((caller w = AfterWait \/ caller w = Stopped) ->
   loop w = Returned /\ cancelled w = true /\ ticking w = false /\ wg w = 0)
  /\ (caller w = Stopped ->
      (forall a, exec w a = None)
      /\ forall acts' w', run w acts' = Some w' -> output w' = output w)
  /\ (caller w <> Stopped ->
      exists a w', is_tick a = false /\ exec w a = Some w')
  /\ (no_tick startThenStop = true ->
      List.filter is_report_event (output w) = []
      /\ (length startThenStop <= 7)%nat
      /\ exists acts' w',
           no_tick acts' = true
           /\ run w acts' = Some w'
           /\ caller w' = Stopped
           /\ List.filter is_report_event (output w') = []).
Proof.
  cbv zeta.
  apply (Stop_joins_reportLoop localReporter startThenStop stoppedWorld).
  reflexivity.
Defined.

(** A tick that arrives between the cancellation and the [select] may
    still be taken: one last report, and [Stop] waits for it. *)
Example tick_races_cancel :
  option_map
    (fun w => (caller w, length (List.filter is_report_event (output w)),
               last (output w)))
    (run (boot localReporter)
       [CallStart; LogStarted; NewTicker; TickArrives; CallCancel; SelectTick;
        GenerateReport scenarioStats (tickAt Second idleRuntime (Response 200));
        SelectDone; WaitReturns; LogStopped])
  = Some (Stopped, 17%nat, Some (Log InfoLevel StoppedLine)).
Proof. vm_compute. reflexivity. Qed.

(** * Beyond the specification

    Properties of the same code that the specification does not state:
    the paths it leaves out, the floats of the document, the discipline
    of the locks, and invariants of the life cycle. *)

(** ** Construction and the first sample *)

(** X1: whatever [config.Interval] is, the interval of a new reporter is
    positive and fits an [int64], so [time.NewTicker] (which panics on an
    interval that is not positive) accepts it; it is either ten minutes or
    the (wrapped) product of [config.Interval] and a second; the sample
    cache starts at its zero values. *)
Theorem NewReporter_interval_fits_ticker
  (config : Report) (now : Time) (mip : string) :
  let r := NewReporter config now mip in
  0 < interval r <= int64_max
  /\ (interval r = 10 * Minute
      \/ interval r = int64_mul (Interval config) Second)
  /\ lastCPUTime r = 0
  /\ lastCPUStats r = zeroSystemStats.
Proof.
  cbv zeta. split; [|split; [|split; reflexivity]].
  - rewrite NewReporter_interval.
    pose proof (int64_range (Interval config * Second)) as Hr.
    unfold int64_mul, in_int64 in *.
    destruct (int64 (Interval config * Second) <=? 0) eqn:Hle.
    + unfold int64_max, Minute, Second. lia.
    + apply Z.leb_gt in Hle. lia.
  - rewrite NewReporter_interval.
    destruct (int64_mul (Interval config) Second <=? 0); auto.
Qed.

(** X2: the first call of [collectSystemStats] on a new reporter, at any
    clock reading of 30 seconds or more after the zero [time.Time], does
    not serve the zero-valued cache: it reads the runtime, returns that
    sample and stores it with the clock reading. *)
Theorem NewReporter_first_sample_fresh {D : Type}
  (config : Report) (now : Time) (mip : string) (env : Tick D) :
  30 * Second <= clock_cache env ->
  let r := NewReporter config now mip in
  (collectSystemStats r env).1.1 = sampleSystemStats (runtime env)
  /\ lastCPUTime (collectSystemStats r env).1.2 = clock_store env
  /\ lastCPUStats (collectSystemStats r env).1.2 = sampleSystemStats (runtime env)
  /\ In ReadRuntime (collectSystemStats r env).2.
Proof.
  intros Hclock. cbv zeta.
  rewrite collectSystemStats_stale.
  - cbn. repeat split; auto 10.
  - cbn [NewReporter lastCPUTime]. unfold Since, Sub, int64_min, int64_max in *.
    unfold Second in *. lia.
Qed.

Lemma NewReporter_first_sample_fresh_witness :
  let r := NewReporter (mkReport 1 "http://collector/report") year2026 "10.0.0.1" in
  let env := tickAt Second busyRuntime (Response 200) in
  (collectSystemStats r env).1.1 = sampleSystemStats busyRuntime
  /\ lastCPUTime (collectSystemStats r env).1.2 = year2026 + Second
  /\ lastCPUStats (collectSystemStats r env).1.2 = sampleSystemStats busyRuntime
  /\ In ReadRuntime (collectSystemStats r env).2.
Proof.
  cbv zeta.
  apply (NewReporter_first_sample_fresh
           (mkReport 1 "http://collector/report") year2026 "10.0.0.1"
           (tickAt Second busyRuntime (Response 200))).
  vm_compute. discriminate.
Defined.

(** ** The fields of the document *)

(** X3: the fields of the report document. The timestamp is the clock
    reading, the management IP is the reporter's, the target map is the
    store's own map, the system statistics are what [collectSystemStats]
    returned, the totals carry the store's counters; the per-source map
    has an entry exactly for the sources of the store, and an entry
    carries its source's byte count, packet count and time of last
    activity. *)
Theorem generateReport_document (r : Reporter) (st : Stats) (env : Tick ReportData) :
  let doc := (generateReport r st env).1.1 in
  timestamp doc = clock_stamp env
  /\ management_ip doc = managementIP r
  /\ target_stats doc = targetStats st
  /\ system_stats doc = (collectSystemStats r env).1.1
  /\ bytes_sent (total_stats doc) = bytesSent st
  /\ packets_sent (total_stats doc) = packetsSent st
  /\ forall ip,
       match source_ip_stats doc !! ip, sourceIPStats st !! ip with
       | Some entry, Some stats =>
           BytesSent entry = BytesSent stats
           /\ PacketsSent entry = PacketsSent stats
           /\ LastActive entry = LastActive stats
       | None, None => True
       | _, _ => False
       end.
Proof.
  cbv zeta. unfold generateReport.
  destruct (collectSystemStats r env) as [[systemStats r'] sampling].
  cbn [fst snd timestamp management_ip target_stats system_stats total_stats
       bytes_sent packets_sent source_ip_stats].
  repeat (split; [reflexivity|]).
  intros ip. rewrite copySourceIPStats_lookup.
  destruct (sourceIPStats st !! ip) as [stats|]; cbn; auto.
Qed.

(** ** Serialization and delivery on every path *)

Lemma filter_Log {D : Type} (f : event D -> bool) (lv : level) (lines : list line) :
  (forall ln, f (Log lv ln) = false) ->
  List.filter f (map (Log lv) lines) = [].
Proof.
  intros Hf. induction lines as [|ln lines IH]; cbn [map List.filter]; [reflexivity|].
  rewrite Hf. exact IH.
Qed.

Lemma collectSystemStats_filter {D : Type} (f : event D -> bool)
  (r : Reporter) (env : Tick D) :
  f (RLock cpuCacheMutex) = false -> f ReadCache = false ->
  f (RUnlock cpuCacheMutex) = false -> f ReadRuntime = false ->
  f (Lock cpuCacheMutex) = false -> f WriteCache = false ->
  f (Unlock cpuCacheMutex) = false ->
  List.filter f (collectSystemStats r env).2 = [].
Proof.
  intros H1 H2 H3 H4 H5 H6 H7. unfold collectSystemStats.
  destruct (Since (clock_cache env) (lastCPUTime r) <? 30 * Second);
    cbn [snd List.filter]; rewrite ?H1, ?H2, ?H3, ?H4, ?H5, ?H6, ?H7; reflexivity.
Qed.

(** X4: on every path [generateReport] serializes the document exactly
    once, and the only HTTP request it can make comes after that, goes to
    the reporter's URL and carries that document; the request is made
    exactly when the serialization succeeded, a URL is configured and the
    request could be built. *)
Theorem generateReport_serializes_once_posts_at_most_once
  (r : Reporter) (st : Stats) (env : Tick ReportData) :
  let doc := (generateReport r st env).1.1 in
  let tr := (generateReport r st env).2 in
  List.filter (fun e => is_marshal e || is_post e) tr =
  Marshal doc ::
  (if marshals env doc && negb (String.eqb (reportURL r) EmptyString)
      && match http env with RequestError => false | _ => true end
   then [HTTPPost (reportURL r) doc]
   else []).
Proof.
  cbv zeta. rewrite generateReport_events. cbv zeta.
  set (doc := (generateReport r st env).1.1).
  rewrite !List.filter_app.
  rewrite collectSystemStats_filter by reflexivity.
  cbn [List.filter is_marshal is_post orb app]. f_equal.
  rewrite app_nil_r.
  destruct (marshals env doc); cbn [andb]; [|reflexivity].
  rewrite List.filter_app, filter_Log, app_nil_r by reflexivity.
  destruct (String.eqb (reportURL r) EmptyString); cbn [negb andb]; [reflexivity|].
  destruct (http env) as [| |c]; cbn; try reflexivity.
  destruct ((200 <=? c) && (c <? 300)); reflexivity.
Qed.

(** X5: when [json.MarshalIndent] fails, with or without a URL configured,
    nothing is posted, the only log line is the error, no report line is
    logged, the lock on the counter store is released last, and the
    sample cache is left as [collectSystemStats] updated it. *)
Theorem generateReport_marshal_failure
  (r : Reporter) (st : Stats) (env : Tick ReportData) :
  marshals env (generateReport r st env).1.1 = false ->
  let tr := (generateReport r st env).2 in
  posted tr = []
  /\ logged ErrorLevel tr = [MarshalFailedLine]
  /\ logged WarnLevel tr = []
  /\ logged InfoLevel tr = []
  /\ logged DebugLevel tr = []
  /\ last tr = Some (RUnlock stats_mu)
  /\ (generateReport r st env).1.2 = (collectSystemStats r env).1.2.
Proof.
  intros Hfail. cbv zeta.
  destruct (generateReport_logged_posted r st env) as [_ Herr].
  destruct (Herr Hfail) as [Hposted Hlogged].
  rewrite Hposted, !Hlogged. cbn [level_eqb].
  repeat split; auto using generateReport_last_event, generateReport_reporter.
Qed.

Lemma generateReport_marshal_failure_witness :
  let tr := (generateReport remoteReporter scenarioStats
               (unencodableTick Second idleRuntime)).2 in
  posted tr = []
  /\ logged ErrorLevel tr = [MarshalFailedLine]
  /\ logged WarnLevel tr = []
  /\ logged InfoLevel tr = []
  /\ logged DebugLevel tr = []
  /\ last tr = Some (RUnlock stats_mu)
  /\ (generateReport remoteReporter scenarioStats
        (unencodableTick Second idleRuntime)).1.2 =
     (collectSystemStats remoteReporter (unencodableTick Second idleRuntime)).1.2.
Proof.
  cbv zeta.
  apply (generateReport_marshal_failure remoteReporter scenarioStats
           (unencodableTick Second idleRuntime)).
  reflexivity.
Defined.

(** X6: with a URL configured and the document serialized, the report
    lines are logged whatever becomes of the delivery; a response with a
    2xx status is logged at debug level only; a request that could not be
    built is logged as an error and nothing is posted. *)
Theorem generateReport_remote_outcomes
  (r : Reporter) (st : Stats) (env : Tick ReportData) :
  reportURL r <> EmptyString ->
  marshals env (generateReport r st env).1.1 = true ->
  let doc := (generateReport r st env).1.1 in
  let tr := (generateReport r st env).2 in
  logged InfoLevel tr = reportLines doc
  /\ (forall StatusCode,
        http env = Response StatusCode -> 200 <= StatusCode < 300 ->
        posted tr = [doc]
        /\ logged DebugLevel tr = [SendOKLine StatusCode]
        /\ logged WarnLevel tr = []
        /\ logged ErrorLevel tr = [])
  /\ (http env = RequestError ->
      posted tr = []
      /\ logged ErrorLevel tr = [RequestFailedLine]
      /\ logged WarnLevel tr = []
      /\ logged DebugLevel tr = []).
Proof.
  intros Hurl Hok. cbv zeta.
  destruct (generateReport_logged_posted r st env) as [Hsent _].
  destruct (Hsent Hok) as [Hposted Hlogged]. clear Hsent.
  rewrite Hposted, !Hlogged. cbn [level_eqb].
  apply String.eqb_neq in Hurl. rewrite Hurl.
  split; [|split].
  - destruct (http env) as [| |c]; cbn; try reflexivity.
    destruct ((200 <=? c) && (c <? 300)); reflexivity.
  - intros c -> Hc. cbn.
    replace ((200 <=? c) && (c <? 300)) with true
      by (symmetry; apply andb_true_iff; split; [apply Z.leb_le|apply Z.ltb_lt]; lia).
    cbn. auto.
  - intros ->. cbn. auto.
Qed.

Lemma generateReport_remote_outcomes_witness :
  let r := remoteReporter in
  let st := scenarioStats in
  let env := tickAt Second idleRuntime (Response 204) in
  let doc := (generateReport r st env).1.1 in
  let tr := (generateReport r st env).2 in
  logged InfoLevel tr = reportLines doc
  /\ (forall StatusCode,
        http env = Response StatusCode -> 200 <= StatusCode < 300 ->
        posted tr = [doc]
        /\ logged DebugLevel tr = [SendOKLine StatusCode]
        /\ logged WarnLevel tr = []
        /\ logged ErrorLevel tr = [])
  /\ (http env = RequestError ->
      posted tr = []
      /\ logged ErrorLevel tr = [RequestFailedLine]
      /\ logged WarnLevel tr = []
      /\ logged DebugLevel tr = []).
Proof.
  cbv zeta.
  apply (generateReport_remote_outcomes remoteReporter scenarioStats
           (tickAt Second idleRuntime (Response 204))).
  - discriminate.
  - reflexivity.
Defined.

(** ** Floating point: magnitudes and signs *)

(** Shifting to the format exponent keeps the magnitude: the number of
    digits of the mantissa plus the exponent does not go down. *)
Lemma shr_fexp_magnitude (mx : positive) (ex : Z) (lx : location) :
  emin < Z.pos (digits2_pos mx) + ex ->
  exists m1,
    shr_m (fst (shr_fexp prec emax (Z.pos mx) ex lx)) = Z.pos m1
    /\ Z.pos (digits2_pos mx) + ex
       <= Z.pos (digits2_pos m1) + snd (shr_fexp prec emax (Z.pos mx) ex lx).
Proof.
  intros Hd. unfold shr_fexp, shr, fexp. cbn [Zdigits2].
  pose proof (digits2_pos_bounds mx) as [Hlo _].
  set (d := Z.pos (digits2_pos mx)) in *.
  destruct (Z.max (d + ex - prec) emin - ex) as [|n|n] eqn:Hn; cbn [fst snd].
  - rewrite shr_record_of_loc_m. exists mx. split; [reflexivity|]. fold d. lia.
  - rewrite iter_pos_shr_1_m by (rewrite shr_record_of_loc_m; lia).
    rewrite shr_record_of_loc_m.
    assert (Hnd : Z.pos n <= d - 1) by (unfold prec in *; lia).
    assert (Hq : 2 ^ (d - 1 - Z.pos n) <= Z.pos mx / 2 ^ Z.pos n).
    { apply Z.div_le_lower_bound; [lia|].
      rewrite <- Z.pow_add_r by lia.
      replace (Z.pos n + (d - 1 - Z.pos n)) with (d - 1) by lia. exact Hlo. }
    assert (H1 : 0 < 2 ^ (d - 1 - Z.pos n)) by (apply Z.pow_pos_nonneg; lia).
    destruct (Z.pos mx / 2 ^ Z.pos n) as [|m1|m1] eqn:Hm1; try lia.
    exists m1. split; [reflexivity|].
    pose proof (digits2_pos_bounds m1) as [_ Hhi].
    assert (Hlt : 2 ^ (d - 1 - Z.pos n) < 2 ^ Z.pos (digits2_pos m1)) by lia.
    apply Z.pow_lt_mono_r_iff in Hlt; lia.
  - rewrite shr_record_of_loc_m. exists mx. split; [reflexivity|]. fold d. lia.
Qed.

(** Rounding a positive mantissa gives a finite number of the same sign
    that is not smaller in magnitude than the smallest number with as many
    digits, or an infinity of the same sign. *)
Lemma binary_round_aux_magnitude (s : bool) (mx : positive) (ex : Z) (lx : location) :
  emin < Z.pos (digits2_pos mx) + ex ->
  (exists m e,
     binary_round_aux prec emax s (Z.pos mx) ex lx = S754_finite s m e
     /\ Z.pos (digits2_pos mx) + ex <= Z.pos (digits2_pos m) + e)
  \/ binary_round_aux prec emax s (Z.pos mx) ex lx = S754_infinity s.
Proof.
  intros Hd. unfold binary_round_aux.
  destruct (shr_fexp_magnitude mx ex lx Hd) as (m1 & Hm1 & Hmag1).
  destruct (shr_fexp prec emax (Z.pos mx) ex lx) as [mrs' e']. cbn [fst snd] in *.
  assert (Hr : Z.pos m1 <= round_nearest_even (shr_m mrs') (loc_of_shr_record mrs'))
    by (rewrite <- Hm1; apply round_nearest_even_ge).
  destruct (round_nearest_even (shr_m mrs') (loc_of_shr_record mrs'))
    as [|m2|m2] eqn:Hm2; try lia.
  pose proof (digits2_pos_mono m1 m2 Hr) as Hmono.
  assert (Hd2 : emin < Z.pos (digits2_pos m2) + e') by lia.
  destruct (shr_fexp_magnitude m2 e' loc_Exact Hd2) as (m3 & Hm3 & Hmag3).
  destruct (shr_fexp prec emax (Z.pos m2) e' loc_Exact) as [mrs'' e''].
  cbn [fst snd] in *. rewrite Hm3.
  destruct (e'' <=? emax - prec); [|right; reflexivity].
  left. exists m3, e''. split; [reflexivity|lia].
Qed.

(** The sign given to the rounding is the sign of its result and nothing
    else. *)
Lemma binary_round_aux_opp (mx ex : Z) (lx : location) :
  binary_round_aux prec emax true mx ex lx
  = SFopp (binary_round_aux prec emax false mx ex lx).
Proof.
  unfold binary_round_aux.
  destruct (shr_fexp prec emax mx ex lx) as [mrs' e'].
  destruct (shr_fexp prec emax _ e' loc_Exact) as [mrs'' e''].
  destruct (shr_m mrs''); try reflexivity.
  destruct (e'' <=? emax - prec); reflexivity.
Qed.

Lemma digits2_pos_iter_xO (m d : positive) :
  Z.pos (digits2_pos (Pos.iter xO m d)) = Z.pos (digits2_pos m) + Z.pos d.
Proof.
  induction d as [|d IH] using Pos.peano_ind.
  - cbn [Pos.iter digits2_pos]. lia.
  - rewrite Pos.iter_succ. cbn [digits2_pos]. lia.
Qed.

(** A positive [int64] converts to a finite float of magnitude at least 1. *)
Lemma float64_of_Z_magnitude (z : Z) :
  0 < z < 2 ^ 63 ->
  exists m e,
    Prim2SF (float64_of_Z z) = S754_finite false m e
    /\ 1 <= Z.pos (digits2_pos m) + e.
Proof.
  intros Hz. destruct (float64_of_Z_pos z Hz) as (m & e & Hfin).
  exists m, e. split; [exact Hfin|].
  rewrite float64_of_Z_spec in Hfin by lia.
  destruct z as [|p|p]; try lia.
  cbn [binary_normalize] in Hfin. unfold binary_round, shl_align in Hfin.
  destruct (fexp prec emax (Z.pos (digits2_pos p) + 0) - 0) as [|d|d] eqn:Hd.
  - destruct (binary_round_aux_magnitude false p 0 loc_Exact) as [(m' & e' & Heq & Hmag)|Heq];
      [change emin with (-1074); lia| |congruence].
    rewrite Heq in Hfin. injection Hfin as <- <-. lia.
  - destruct (binary_round_aux_magnitude false p 0 loc_Exact) as [(m' & e' & Heq & Hmag)|Heq];
      [change emin with (-1074); lia| |congruence].
    rewrite Heq in Hfin. injection Hfin as <- <-. lia.
  - change (PosDef.Pos.iter xO p d) with (Pos.iter xO p d) in Hfin.
    set (ex := fexp prec emax (Z.pos (digits2_pos p) + 0)) in *.
    assert (Hex : ex = Z.neg d) by lia.
    destruct (binary_round_aux_magnitude false (Pos.iter xO p d) ex loc_Exact)
      as [(m' & e' & Heq & Hmag)|Heq].
    + rewrite digits2_pos_iter_xO. change emin with (-1074). lia.
    + rewrite Heq in Hfin. injection Hfin as <- <-.
      rewrite digits2_pos_iter_xO in Hmag. lia.
    + congruence.
Qed.

(** The quotient of two positive finite numbers whose magnitudes are not
    too far apart is positive: it does not underflow to zero. *)
Lemma SF64div_pos (m1 : positive) (e1 : Z) (m2 : positive) (e2 : Z) :
  emin + prec <= Z.pos (digits2_pos m1) + e1 - (Z.pos (digits2_pos m2) + e2) ->
  (exists m e, SF64div (S754_finite false m1 e1) (S754_finite false m2 e2)
               = S754_finite false m e)
  \/ SF64div (S754_finite false m1 e1) (S754_finite false m2 e2)
     = S754_infinity false.
Proof.
  intros Hmag. cbn [SF64div SFdiv xorb]. unfold SFdiv_core_binary.
  cbn [Zdigits2].
  set (d1 := Z.pos (digits2_pos m1)) in *.
  set (d2 := Z.pos (digits2_pos m2)) in *.
  set (e' := Z.min _ _).
  assert (He' : e' <= d1 + e1 - (d2 + e2) - prec /\ e' <= e1 - e2
                /\ (e' = d1 + e1 - (d2 + e2) - prec \/ e' = e1 - e2)).
  { subst e'. unfold fexp. change (IntDef.Z.min) with Z.min. lia. }
  destruct He' as (He'1 & He'2 & He'3).
  assert (Hs : d2 - d1 + prec <= e1 - e2 - e') by lia.
  pose proof (digits2_pos_bounds m1) as [Hlo1 _].
  pose proof (digits2_pos_bounds m2) as [_ Hhi2].
  fold d1 in Hlo1. fold d2 in Hhi2.
  assert (Hd1 : 1 <= d1) by (subst d1; lia).
  assert (Hd2 : 1 <= d2) by (subst d2; lia).
  set (sh := e1 - e2 - e') in *.
  set (m' := match sh with
             | 0 => Z.pos m1
             | Z.pos _ => IntDef.Z.shiftl (Z.pos m1) sh
             | Z.neg _ => 0
             end).
  assert (Hm' : m' = Z.pos m1 * 2 ^ sh).
  { subst m'. destruct sh as [|p|p] eqn:Hsh.
    - lia.
    - change IntDef.Z.shiftl with Z.shiftl. rewrite Z.shiftl_mul_pow2 by lia. reflexivity.
    - unfold prec in *. lia. }
  assert (Hsh0 : 0 <= sh) by (unfold prec in *; lia).
  change IntDef.Z.div_eucl with Z.div_eucl.
  destruct (Z.div_eucl m' (Z.pos m2)) as [q r] eqn:Hqr.
  assert (Hq : q = m' / Z.pos m2) by (unfold Z.div; rewrite Hqr; reflexivity).
  assert (Hqlo : 2 ^ (d1 - 1 + sh - d2) <= q).
  { rewrite Hq, Hm'. apply Z.div_le_lower_bound; [lia|].
    apply Z.le_trans with (2 ^ d2 * 2 ^ (d1 - 1 + sh - d2)).
    - apply Z.mul_le_mono_nonneg_r; [apply Z.pow_nonneg; lia|lia].
    - rewrite <- Z.pow_add_r by (unfold prec in *; lia).
      replace (d2 + (d1 - 1 + sh - d2)) with ((d1 - 1) + sh) by lia.
      rewrite Z.pow_add_r by lia.
      apply Z.mul_le_mono_nonneg_r; [apply Z.pow_nonneg; lia|exact Hlo1]. }
  assert (Hpos : 0 < 2 ^ (d1 - 1 + sh - d2))
    by (apply Z.pow_pos_nonneg; unfold prec in *; lia).
  destruct q as [|pq|pq]; try lia.
  destruct (binary_round_aux_magnitude false pq e' (new_location (Z.pos m2) r))
    as [(m & e & Heq & _)|Heq]; [|eauto|auto].
  pose proof (digits2_pos_bounds pq) as [_ Hhiq].
  assert (Hlt : 2 ^ (d1 - 1 + sh - d2) < 2 ^ Z.pos (digits2_pos pq)) by lia.
  apply Z.pow_lt_mono_r_iff in Hlt; [|lia|lia].
  change emin with (-1074) in *. change prec with 53 in *. lia.
Qed.

Lemma binary_round_pos (s : bool) (p : positive) (ex : Z) :
  emin <= ex ->
  (exists m e, binary_round prec emax s p ex = S754_finite s m e)
  \/ binary_round prec emax s p ex = S754_infinity s.
Proof.
  intros Hex. unfold binary_round, shl_align.
  destruct (fexp prec emax (Z.pos (digits2_pos p) + ex) - ex) as [|d|d] eqn:Hd.
  - apply binary_round_aux_pos. lia.
  - apply binary_round_aux_pos. lia.
  - apply binary_round_aux_pos.
    change (PosDef.Pos.iter xO p d) with (Pos.iter xO p d).
    rewrite digits2_pos_iter_xO. unfold fexp in *. lia.
Qed.

Lemma binary_round_opp (p : positive) (ex : Z) :
  binary_round prec emax true p ex = SFopp (binary_round prec emax false p ex).
Proof.
  unfold binary_round.
  destruct (shl_align p ex (fexp prec emax (Z.pos (digits2_pos p) + ex))) as [mz ez].
  apply binary_round_aux_opp.
Qed.

Lemma SFopp_positive (x : spec_float) :
  positive_float x -> negative_float (SFopp x).
Proof.
  intros [(m & e & ->)| ->]; unfold negative_float; cbn; eauto.
Qed.

Lemma SFopp_nonneg (x : spec_float) :
  nonneg_float x -> negative_float (SFopp x).
Proof.
  intros [->|[(m & e & ->)| ->]]; unfold negative_float; cbn; eauto.
Qed.

(** The exponent of a finite [float64] is at least [emin]. *)
Lemma Prim2SF_finite_exp (x : float) (s : bool) (m : positive) (e : Z) :
  Prim2SF x = S754_finite s m e -> emin <= e.
Proof.
  intros Hx. pose proof (Prim2SF_valid x) as Hv. rewrite Hx in Hv.
  cbn in Hv. unfold bounded, canonical_mantissa, fexp in Hv.
  apply andb_prop in Hv as [Hc _]. apply Z.eqb_eq in Hc. lia.
Qed.

(** The sum of two floats at or above zero, one of them above zero, is
    above zero. *)
Lemma add_positive (a b : float) :
  nonneg_float (Prim2SF a) -> nonneg_float (Prim2SF b) ->
  positive_float (Prim2SF a) \/ positive_float (Prim2SF b) ->
  positive_float (Prim2SF (a + b)).
Proof.
  intros Ha Hb Hpos. rewrite FloatAxioms.add_spec.
  pose proof (Prim2SF_finite_exp a) as Hea.
  pose proof (Prim2SF_finite_exp b) as Heb.
  unfold positive_float in *.
  destruct Ha as [Ha|[(ma & ea & Ha)|Ha]], Hb as [Hb|[(mb & eb & Hb)|Hb]];
    rewrite Ha, Hb in *; cbn [SF64add SFadd]; eauto.
  - destruct Hpos as [[(m & e & H)|H]|[(m & e & H)|H]]; discriminate.
  - specialize (Hea _ _ _ eq_refl). specialize (Heb _ _ _ eq_refl).
    cbn [cond_Zopp Z.add binary_normalize].
    apply binary_round_pos. change IntDef.Z.min with Z.min. lia.
Qed.

(** The sum of two floats each of which is plus zero or carries the minus
    sign is not above zero. *)
Lemma add_not_positive (a b : float) :
  Prim2SF a = S754_zero false \/ negative_float (Prim2SF a) ->
  Prim2SF b = S754_zero false \/ negative_float (Prim2SF b) ->
  (0 <? a + b)%float = false.
Proof.
  intros Ha Hb.
  rewrite FloatAxioms.ltb_spec, FloatAxioms.add_spec.
  change (Prim2SF 0) with (S754_zero false).
  pose proof (Prim2SF_finite_exp a) as Hea.
  pose proof (Prim2SF_finite_exp b) as Heb.
  unfold negative_float in *.
  destruct Ha as [Ha|[Ha|[(ma & ea & Ha)|Ha]]],
           Hb as [Hb|[Hb|[(mb & eb & Hb)|Hb]]];
    rewrite Ha, Hb in *; cbn [SF64add SFadd]; try reflexivity.
  specialize (Hea _ _ _ eq_refl). specialize (Heb _ _ _ eq_refl).
  cbn [cond_Zopp].
  match goal with
  | |- context [binary_normalize _ _ (- Z.pos ?x + - Z.pos ?y) ?e _] =>
      change (binary_normalize prec emax (- Z.pos x + - Z.pos y) e false)
        with (binary_round prec emax true (x + y) e)
  end.
  rewrite binary_round_opp.
  destruct (binary_round_pos false
              (fst (shl_align ma ea (IntDef.Z.min ea eb))
               + fst (shl_align mb eb (IntDef.Z.min ea eb)))
              (IntDef.Z.min ea eb)) as [(m & e & ->)| ->];
    [change IntDef.Z.min with Z.min; lia| |]; reflexivity.
Qed.

(** [float64(-p)] is [-float64(p)]. *)
Lemma float64_of_Z_neg (p : positive) :
  Z.pos p < 2 ^ 63 ->
  Prim2SF (float64_of_Z (Z.neg p)) = SFopp (Prim2SF (float64_of_Z (Z.pos p))).
Proof.
  intros Hp.
  assert (Heq : float64_of_Z (Z.neg p) = (- float64_of_Z (Z.pos p))%float).
  { apply Prim2SF_inj. rewrite FloatAxioms.opp_spec.
    unfold float64_of_Z at 1. cbn [binary_normalize].
    rewrite binary_round_opp.
    change (binary_round prec emax false p 0)
      with (binary_normalize prec emax (Z.pos p) 0 false).
    rewrite <- (float64_of_Z_spec (Z.pos p)) by lia.
    rewrite <- FloatAxioms.opp_spec, SF2Prim_Prim2SF. reflexivity. }
  rewrite Heq. apply FloatAxioms.opp_spec.
Qed.

(** The nanoseconds below a second, as seconds: above zero when there are
    some, plus zero when there are none, with the minus sign when the
    count is negative. *)
Lemma rem_seconds_positive (r : Z) :
  0 < r < 2 ^ 63 ->
  positive_float (Prim2SF (float64_of_Z r / 1000000000)).
Proof.
  intros Hr. rewrite FloatAxioms.div_spec.
  change (Prim2SF 1000000000) with (S754_finite false 8388608000000000 (-23)).
  destruct (float64_of_Z_magnitude r Hr) as (m & e & -> & Hmag).
  apply SF64div_pos.
  change (Z.pos (digits2_pos 8388608000000000)) with 53.
  change emin with (-1074). change prec with 53. lia.
Qed.

Lemma rem_seconds_negative (p : positive) :
  Z.pos p < 2 ^ 63 ->
  negative_float (Prim2SF (float64_of_Z (Z.neg p) / 1000000000)).
Proof.
  intros Hp. rewrite FloatAxioms.div_spec, float64_of_Z_neg by exact Hp.
  change (Prim2SF 1000000000) with (S754_finite false 8388608000000000 (-23)).
  destruct (float64_of_Z_pos (Z.pos p) ltac:(lia)) as (m & e & ->).
  cbn [SFopp negb SF64div SFdiv xorb].
  pose proof (SF64div_nonneg (S754_finite false m e) 8388608000000000 (-23)
                ltac:(eauto)) as Hq.
  cbn [SF64div SFdiv xorb] in Hq.
  destruct (SFdiv_core_binary prec emax (Z.pos m) e (Z.pos 8388608000000000) (-23))
    as [[mz ez] lz].
  rewrite binary_round_aux_opp. apply SFopp_nonneg. exact Hq.
Qed.

(** The uptime is above zero exactly when the duration is. *)
Lemma Seconds_positive (d : Duration) :
  in_int64 d -> (0 <? Seconds d)%float = (0 <? d).
Proof.
  unfold in_int64, int64_min, int64_max. intros Hd. unfold Seconds.
  assert (HS : Second = 1000000000) by reflexivity.
  destruct (Z.ltb_spec 0 d) as [Hpos|Hneg].
  - pose proof (Z.quot_rem' d Second) as Hqr.
    pose proof (Z.rem_bound_pos d Second ltac:(lia) ltac:(lia)) as Hr.
    pose proof (Z.quot_pos d Second ltac:(lia) ltac:(lia)) as Hq.
    assert (Hq63 : Z.quot d Second < 2 ^ 63) by lia.
    assert (Hsum : positive_float
                     (Prim2SF (float64_of_Z (Z.quot d Second)
                               + float64_of_Z (Z.rem d Second) / 1000000000))).
    { apply add_positive.
      - destruct (float64_of_Z_nonneg (Z.quot d Second) ltac:(lia)) as [H|H];
          unfold nonneg_float; auto.
      - destruct (Z.eq_dec (Z.rem d Second) 0) as [->|Hne].
        + left. reflexivity.
        + destruct (rem_seconds_positive (Z.rem d Second) ltac:(lia)) as [H|H];
            unfold nonneg_float; auto.
      - destruct (Z.eq_dec (Z.rem d Second) 0) as [Hz|Hne].
        + left. left. apply float64_of_Z_pos. lia.
        + right. apply rem_seconds_positive. lia. }
    rewrite FloatAxioms.ltb_spec. change (Prim2SF 0) with (S754_zero false).
    destruct Hsum as [(m & e & ->)| ->]; reflexivity.
  - apply add_not_positive.
    + destruct (Z.quot d Second) as [|q|q] eqn:Hq.
      * left. reflexivity.
      * pose proof (Z.quot_opp_l (- d) Second ltac:(lia)) as Ho.
        pose proof (Z.quot_pos (- d) Second ltac:(lia) ltac:(lia)).
        rewrite Z.opp_involutive in Ho. lia.
      * right. rewrite float64_of_Z_neg.
        -- apply SFopp_positive. left. apply float64_of_Z_pos.
           pose proof (Z.quot_rem' d Second). 
           pose proof (Z.rem_bound_pos_neg d Second ltac:(lia) ltac:(lia)). lia.
        -- pose proof (Z.quot_rem' d Second). 
           pose proof (Z.rem_bound_pos_neg d Second ltac:(lia) ltac:(lia)). lia.
    + pose proof (Z.rem_bound_pos_neg d Second ltac:(lia) ltac:(lia)) as Hr.
      destruct (Z.rem d Second) as [|r|r] eqn:Hrem.
      * left. reflexivity.
      * lia.
      * right. apply rem_seconds_negative. lia.
Qed.

(** ** Floating point: finite results *)

Lemma shr_fexp_magnitude_le (mx : positive) (ex : Z) (lx : location) (m1 : positive) :
  emin < Z.pos (digits2_pos mx) + ex ->
  shr_m (fst (shr_fexp prec emax (Z.pos mx) ex lx)) = Z.pos m1 ->
  Z.pos (digits2_pos m1) + snd (shr_fexp prec emax (Z.pos mx) ex lx)
  <= Z.pos (digits2_pos mx) + ex.
Proof.
  intros Hd. unfold shr_fexp, shr, fexp. cbn [Zdigits2].
  pose proof (digits2_pos_bounds mx) as [_ Hhi].
  set (d := Z.pos (digits2_pos mx)) in *.
  destruct (Z.max (d + ex - prec) emin - ex) as [|n|n] eqn:Hn; cbn [fst snd].
  - rewrite shr_record_of_loc_m. intros [= <-]. fold d. lia.
  - rewrite iter_pos_shr_1_m by (rewrite shr_record_of_loc_m; lia).
    rewrite shr_record_of_loc_m. intros Hm1.
    assert (Hnd : Z.pos n <= d - 1) by (unfold prec in *; lia).
    assert (H2n : 0 < 2 ^ Z.pos n) by (apply Z.pow_pos_nonneg; lia).
    assert (Hmul : Z.pos m1 * 2 ^ Z.pos n <= Z.pos mx).
    { rewrite <- Hm1, Z.mul_comm. apply Z.mul_div_le. lia. }
    assert (Hlt : Z.pos m1 < 2 ^ (d - Z.pos n)).
    { apply Z.mul_lt_mono_pos_r with (2 ^ Z.pos n); [lia|].
      rewrite <- Z.pow_add_r by lia.
      replace (d - Z.pos n + Z.pos n) with d by lia. lia. }
    pose proof (digits2_pos_le m1 (d - Z.pos n) ltac:(lia) Hlt). lia.
  - rewrite shr_record_of_loc_m. intros [= <-]. fold d. lia.
Qed.

Lemma digits2_pos_succ_le (a b : positive) :
  Z.pos b <= Z.pos a + 1 ->
  Z.pos (digits2_pos b) <= Z.pos (digits2_pos a) + 1.
Proof.
  intros Hb. pose proof (digits2_pos_bounds a) as [_ Hhi].
  apply digits2_pos_le; [lia|].
  rewrite Z.pow_add_r, Z.pow_1_r by lia. lia.
Qed.

(** Rounding a positive mantissa whose magnitude is in the range of the
    format gives a finite number of the same sign, of the same magnitude
    or the next. *)
Lemma binary_round_aux_bounds (s : bool) (mx : positive) (ex : Z) (lx : location) :
  emin < Z.pos (digits2_pos mx) + ex ->
  ex <= emax - prec ->
  Z.pos (digits2_pos mx) + ex <= emax - 1 ->
  exists m e,
    binary_round_aux prec emax s (Z.pos mx) ex lx = S754_finite s m e
    /\ Z.pos (digits2_pos mx) + ex <= Z.pos (digits2_pos m) + e
       <= Z.pos (digits2_pos mx) + ex + 1.
Proof.
  intros Hd Hex Hmag. unfold binary_round_aux.
  destruct (shr_fexp_magnitude mx ex lx Hd) as (m1 & Hm1 & Hlo1).
  pose proof (shr_fexp_magnitude_le mx ex lx m1 Hd Hm1) as Hhi1.
  pose proof (shr_fexp_exp mx ex lx) as He1.
  destruct (shr_fexp prec emax (Z.pos mx) ex lx) as [mrs' e']. cbn [fst snd] in *.
  assert (Hr : Z.pos m1 <= round_nearest_even (shr_m mrs') (loc_of_shr_record mrs'))
    by (rewrite <- Hm1; apply round_nearest_even_ge).
  assert (Hr' : round_nearest_even (shr_m mrs') (loc_of_shr_record mrs') <= Z.pos m1 + 1)
    by (rewrite <- Hm1; apply round_nearest_even_le).
  destruct (round_nearest_even (shr_m mrs') (loc_of_shr_record mrs'))
    as [|m2|m2] eqn:Hm2; try lia.
  pose proof (digits2_pos_mono m1 m2 Hr) as Hmono.
  pose proof (digits2_pos_succ_le m1 m2 Hr') as Hsucc.
  assert (Hd2 : emin < Z.pos (digits2_pos m2) + e') by lia.
  destruct (shr_fexp_magnitude m2 e' loc_Exact Hd2) as (m3 & Hm3 & Hlo3).
  pose proof (shr_fexp_magnitude_le m2 e' loc_Exact m3 Hd2 Hm3) as Hhi3.
  pose proof (shr_fexp_exp m2 e' loc_Exact) as He3.
  destruct (shr_fexp prec emax (Z.pos m2) e' loc_Exact) as [mrs'' e''].
  cbn [fst snd] in *. rewrite Hm3.
  assert (He'' : e'' <= emax - prec).
  { unfold fexp in *. change emin with (-1074) in *.
    change prec with 53 in *. change emax with 1024 in *. lia. }
  apply Z.leb_le in He''. rewrite He''.
  exists m3, e''. split; [reflexivity|lia].
Qed.

(** A positive [int64] converts to a float between 1 and 2^64. *)
Lemma float64_of_Z_magnitude_in (z : Z) :
  0 < z < 2 ^ 63 -> magnitude_in 1 64 (Prim2SF (float64_of_Z z)).
Proof.
  intros Hz. rewrite float64_of_Z_spec by lia.
  destruct z as [|p|p]; try lia.
  cbn [binary_normalize]. unfold binary_round, shl_align.
  pose proof (digits2_pos_le p 63 ltac:(lia) ltac:(lia)) as Hdp.
  assert (Hd1 : 1 <= Z.pos (digits2_pos p)) by lia.
  unfold magnitude_in.
  destruct (fexp prec emax (Z.pos (digits2_pos p) + 0) - 0) as [|d|d] eqn:Hd.
  - destruct (binary_round_aux_bounds false p 0 loc_Exact) as (m & e & -> & Hm);
      [change emin with (-1074); lia|change emax with 1024; change prec with 53; lia
      |change emax with 1024; lia|].
    exists m, e. split; [reflexivity|lia].
  - destruct (binary_round_aux_bounds false p 0 loc_Exact) as (m & e & -> & Hm);
      [change emin with (-1074); lia|change emax with 1024; change prec with 53; lia
      |change emax with 1024; lia|].
    exists m, e. split; [reflexivity|lia].
  - change (PosDef.Pos.iter xO p d) with (Pos.iter xO p d).
    set (ex := fexp prec emax (Z.pos (digits2_pos p) + 0)) in *.
    assert (Hex : ex = Z.neg d) by lia.
    destruct (binary_round_aux_bounds false (Pos.iter xO p d) ex loc_Exact)
      as (m & e & -> & Hm).
    + rewrite digits2_pos_iter_xO. change emin with (-1074). lia.
    + change emax with 1024. change prec with 53. lia.
    + rewrite digits2_pos_iter_xO. change emax with 1024. lia.
    + rewrite digits2_pos_iter_xO in Hm. exists m, e. split; [reflexivity|lia].
Qed.

(** The quotient of two positive finite floats, when it is in the range of
    the format. *)
Lemma SF64div_magnitude_in (lo1 hi1 lo2 hi2 : Z) (x y : spec_float) :
  magnitude_in lo1 hi1 x -> magnitude_in lo2 hi2 y ->
  emin + prec <= lo1 - hi2 -> hi1 - lo2 <= emax - 2 ->
  magnitude_in (lo1 - hi2) (hi1 - lo2 + 2) (SF64div x y).
Proof.
  intros (m1 & e1 & -> & Hm1) (m2 & e2 & -> & Hm2) Hlo Hhi.
  cbn [SF64div SFdiv xorb]. unfold SFdiv_core_binary.
  cbn [Zdigits2].
  set (d1 := Z.pos (digits2_pos m1)) in *.
  set (d2 := Z.pos (digits2_pos m2)) in *.
  set (e' := Z.min _ _).
  assert (He' : e' <= d1 + e1 - (d2 + e2) - prec /\ e' <= e1 - e2
                /\ (e' = d1 + e1 - (d2 + e2) - prec \/ e' = e1 - e2)).
  { subst e'. unfold fexp. change (IntDef.Z.min) with Z.min. lia. }
  destruct He' as (He'1 & He'2 & He'3).
  pose proof (digits2_pos_bounds m1) as [Hlo1 Hhi1].
  pose proof (digits2_pos_bounds m2) as [Hlo2 Hhi2].
  fold d1 in Hlo1, Hhi1. fold d2 in Hlo2, Hhi2.
  assert (Hd1 : 1 <= d1) by (subst d1; lia).
  assert (Hd2 : 1 <= d2) by (subst d2; lia).
  set (sh := e1 - e2 - e') in *.
  assert (Hsh : d2 - d1 + prec <= sh) by lia.
  assert (Hsh0 : 0 <= sh) by (unfold prec in *; lia).
  set (m' := match sh with
             | 0 => Z.pos m1
             | Z.pos _ => IntDef.Z.shiftl (Z.pos m1) sh
             | Z.neg _ => 0
             end).
  assert (Hm' : m' = Z.pos m1 * 2 ^ sh).
  { subst m'. destruct sh as [|p|p] eqn:Hshp.
    - lia.
    - change IntDef.Z.shiftl with Z.shiftl. rewrite Z.shiftl_mul_pow2 by lia. reflexivity.
    - lia. }
  change IntDef.Z.div_eucl with Z.div_eucl.
  destruct (Z.div_eucl m' (Z.pos m2)) as [q r] eqn:Hqr.
  assert (Hq : q = m' / Z.pos m2) by (unfold Z.div; rewrite Hqr; reflexivity).
  assert (H2sh : 0 < 2 ^ sh) by (apply Z.pow_pos_nonneg; lia).
  assert (Hqlo : 2 ^ (d1 - 1 + sh - d2) <= q).
  { rewrite Hq, Hm'. apply Z.div_le_lower_bound; [lia|].
    apply Z.le_trans with (2 ^ d2 * 2 ^ (d1 - 1 + sh - d2)).
    - apply Z.mul_le_mono_nonneg_r; [apply Z.pow_nonneg; lia|lia].
    - rewrite <- Z.pow_add_r by (unfold prec in *; lia).
      replace (d2 + (d1 - 1 + sh - d2)) with ((d1 - 1) + sh) by lia.
      rewrite Z.pow_add_r by lia.
      apply Z.mul_le_mono_nonneg_r; [apply Z.pow_nonneg; lia|exact Hlo1]. }
  assert (Hqhi : q < 2 ^ (d1 + sh - d2 + 1)).
  { rewrite Hq, Hm'. apply Z.div_lt_upper_bound; [lia|].
    apply Z.lt_le_trans with (2 ^ d1 * 2 ^ sh).
    - apply Z.mul_lt_mono_pos_r; lia.
    - rewrite <- Z.pow_add_r by lia.
      apply Z.le_trans with (2 ^ (d2 - 1) * 2 ^ (d1 + sh - d2 + 1)).
      + rewrite <- Z.pow_add_r by (unfold prec in *; lia).
        apply Z.pow_le_mono_r; lia.
      + apply Z.mul_le_mono_nonneg_r; [apply Z.pow_nonneg; unfold prec in *; lia|lia]. }
  assert (Hpos : 0 < 2 ^ (d1 - 1 + sh - d2))
    by (apply Z.pow_pos_nonneg; unfold prec in *; lia).
  destruct q as [|pq|pq]; try lia.
  pose proof (digits2_pos_bounds pq) as [_ Hhiq].
  assert (Hdq : d1 + sh - d2 <= Z.pos (digits2_pos pq)).
  { assert (Hlt : 2 ^ (d1 - 1 + sh - d2) < 2 ^ Z.pos (digits2_pos pq)) by lia.
    apply Z.pow_lt_mono_r_iff in Hlt; lia. }
  pose proof (digits2_pos_le pq (d1 + sh - d2 + 1)
                ltac:(unfold prec in *; lia) Hqhi) as Hdq'.
  destruct (binary_round_aux_bounds false pq e' (new_location (Z.pos m2) r))
    as (m & e & -> & Hm).
  - change emin with (-1074) in *. change prec with 53 in *. lia.
  - lia.
  - lia.
  - exists m, e. split; [reflexivity|]. lia.
Qed.

(** The product of two positive finite floats, when it is in the range of
    the format. *)
Lemma SF64mul_magnitude_in (lo1 hi1 lo2 hi2 : Z) (x y : spec_float) :
  magnitude_in lo1 hi1 x -> magnitude_in lo2 hi2 y ->
  emin + 1 < lo1 + lo2 -> hi1 + hi2 <= emax - prec ->
  magnitude_in (lo1 + lo2 - 1) (hi1 + hi2 + 1) (SF64mul x y).
Proof.
  intros (m1 & e1 & -> & Hm1) (m2 & e2 & -> & Hm2) Hlo Hhi.
  cbn [SF64mul SFmul xorb].
  pose proof (digits2_pos_bounds m1) as [Hlo1 Hhi1].
  pose proof (digits2_pos_bounds m2) as [Hlo2 Hhi2].
  set (d1 := Z.pos (digits2_pos m1)) in *.
  set (d2 := Z.pos (digits2_pos m2)) in *.
  assert (Hd1 : 1 <= d1) by (subst d1; lia).
  assert (Hd2 : 1 <= d2) by (subst d2; lia).
  assert (Hplo : 2 ^ (d1 + d2 - 2) <= Z.pos (m1 * m2)).
  { rewrite Pos2Z.inj_mul.
    replace (d1 + d2 - 2) with ((d1 - 1) + (d2 - 1)) by lia.
    rewrite Z.pow_add_r by lia.
    apply Z.mul_le_mono_nonneg; try lia; apply Z.pow_nonneg; lia. }
  assert (Hphi : Z.pos (m1 * m2) < 2 ^ (d1 + d2)).
  { rewrite Pos2Z.inj_mul, Z.pow_add_r by lia.
    apply Z.mul_lt_mono_nonneg; lia. }
  pose proof (digits2_pos_bounds (m1 * m2)) as [_ Hhip].
  assert (Hdlo : d1 + d2 - 1 <= Z.pos (digits2_pos (m1 * m2))).
  { assert (Hlt : 2 ^ (d1 + d2 - 2) < 2 ^ Z.pos (digits2_pos (m1 * m2))) by lia.
    apply Z.pow_lt_mono_r_iff in Hlt; lia. }
  pose proof (digits2_pos_le (m1 * m2) (d1 + d2) ltac:(lia) Hphi) as Hdhi.
  destruct (binary_round_aux_bounds false (m1 * m2) (e1 + e2) loc_Exact)
    as (m & e & -> & Hm).
  - lia.
  - lia.
  - change emax with 1024 in *. change prec with 53 in *. lia.
  - exists m, e. split; [reflexivity|]. lia.
Qed.

(** ** The floats of a sample *)

Lemma finite_nonneg_zero (x : float) :
  Prim2SF x = S754_zero false -> finite_nonneg x = true.
Proof.
  intros Hx. unfold finite_nonneg.
  rewrite FloatAxioms.leb_spec, FloatAxioms.ltb_spec, Hx. reflexivity.
Qed.

Lemma finite_nonneg_magnitude (lo hi : Z) (x : float) :
  magnitude_in lo hi (Prim2SF x) -> finite_nonneg x = true.
Proof.
  intros (m & e & Hx & _). unfold finite_nonneg.
  rewrite FloatAxioms.leb_spec, FloatAxioms.ltb_spec, Hx. reflexivity.
Qed.

Lemma magnitude_in_weaken (lo hi lo' hi' : Z) (x : spec_float) :
  magnitude_in lo hi x -> lo' <= lo -> hi <= hi' -> magnitude_in lo' hi' x.
Proof.
  intros (m & e & -> & Hm) Hlo Hhi. exists m, e. split; [reflexivity|lia].
Qed.

(** Dividing by 1024, by 1000000 and multiplying by 10 and by 100. *)
Lemma div_1024_magnitude (lo hi : Z) (x : float) :
  magnitude_in lo hi (Prim2SF x) -> -1000 <= lo -> hi <= 1000 ->
  magnitude_in (lo - 11) (hi - 9) (Prim2SF (x / 1024)).
Proof.
  intros Hx Hlo Hhi. rewrite FloatAxioms.div_spec.
  replace (hi - 9) with (hi - 11 + 2) by lia.
  apply SF64div_magnitude_in; [exact Hx| | |].
  - exists 4503599627370496%positive, (-42). split; [reflexivity|].
    change (Z.pos (digits2_pos 4503599627370496)) with 53. lia.
  - change emin with (-1074). change prec with 53. lia.
  - change emax with 1024. lia.
Qed.

Lemma div_1000000_magnitude (lo hi : Z) (x : float) :
  magnitude_in lo hi (Prim2SF x) -> -1000 <= lo -> hi <= 1000 ->
  magnitude_in (lo - 20) (hi - 18) (Prim2SF (x / 1000000)).
Proof.
  intros Hx Hlo Hhi. rewrite FloatAxioms.div_spec.
  replace (hi - 18) with (hi - 20 + 2) by lia.
  apply SF64div_magnitude_in; [exact Hx| | |].
  - exists 8589934592000000%positive, (-33). split; [reflexivity|].
    change (Z.pos (digits2_pos 8589934592000000)) with 53. lia.
  - change emin with (-1074). change prec with 53. lia.
  - change emax with 1024. lia.
Qed.

Lemma mul_10_magnitude (lo hi : Z) (x : float) :
  magnitude_in lo hi (Prim2SF x) -> -1000 <= lo -> hi <= 900 ->
  magnitude_in (lo + 3) (hi + 5) (Prim2SF (x * 10)).
Proof.
  intros Hx Hlo Hhi. rewrite FloatAxioms.mul_spec.
  replace (lo + 3) with (lo + 4 - 1) by lia.
  replace (hi + 5) with (hi + 4 + 1) by lia.
  apply SF64mul_magnitude_in; [exact Hx| | |].
  - exists 5629499534213120%positive, (-49). split; [reflexivity|].
    change (Z.pos (digits2_pos 5629499534213120)) with 53. lia.
  - change emin with (-1074). lia.
  - change emax with 1024. change prec with 53. lia.
Qed.

Lemma mul_100_magnitude (lo hi : Z) (x : float) :
  magnitude_in lo hi (Prim2SF x) -> -1000 <= lo -> hi <= 900 ->
  magnitude_in (lo + 6) (hi + 8) (Prim2SF (x * 100)).
Proof.
  intros Hx Hlo Hhi. rewrite FloatAxioms.mul_spec.
  replace (lo + 6) with (lo + 7 - 1) by lia.
  replace (hi + 8) with (hi + 7 + 1) by lia.
  apply SF64mul_magnitude_in; [exact Hx| | |].
  - exists 7036874417766400%positive, (-46). split; [reflexivity|].
    change (Z.pos (digits2_pos 7036874417766400)) with 53. lia.
  - change emin with (-1074). lia.
  - change emax with 1024. change prec with 53. lia.
Qed.

(** [float64(bytes) / 1024 / 1024] for a positive [int64]. *)
Lemma megabytes_magnitude (bytes : Z) :
  0 < bytes < 2 ^ 63 ->
  magnitude_in (-21) 46 (Prim2SF (float64_of_Z bytes / 1024 / 1024)).
Proof.
  intros Hb.
  pose proof (float64_of_Z_magnitude_in bytes Hb) as H0.
  pose proof (div_1024_magnitude 1 64 _ H0 ltac:(lia) ltac:(lia)) as H1.
  pose proof (div_1024_magnitude _ _ _ H1 ltac:(lia) ltac:(lia)) as H2.
  exact H2.
Qed.

Lemma megabytes_finite (bytes : Z) :
  0 <= bytes < 2 ^ 63 ->
  finite_nonneg (float64_of_Z bytes / 1024 / 1024) = true.
Proof.
  intros Hb. destruct (Z.eq_dec bytes 0) as [->|Hne].
  - reflexivity.
  - eapply finite_nonneg_magnitude, megabytes_magnitude. lia.
Qed.

Lemma memoryUsage_finite (alloc sys : Z) :
  0 <= alloc < 2 ^ 63 -> 0 < sys < 2 ^ 63 ->
  finite_nonneg
    (float64_of_Z alloc / 1024 / 1024 / (float64_of_Z sys / 1024 / 1024) * 100)
  = true.
Proof.
  intros Ha Hs.
  pose proof (megabytes_magnitude sys Hs) as Htotal.
  destruct (Z.eq_dec alloc 0) as [->|Hne].
  - apply finite_nonneg_zero.
    rewrite FloatAxioms.mul_spec, FloatAxioms.div_spec.
    change (Prim2SF (float64_of_Z 0 / 1024 / 1024)) with (S754_zero false).
    destruct Htotal as (m & e & -> & _). reflexivity.
  - pose proof (megabytes_magnitude alloc ltac:(lia)) as Hused.
    pose proof (SF64div_magnitude_in _ _ _ _ _ _ Hused Htotal
                  ltac:(change emin with (-1074); change prec with 53; lia)
                  ltac:(change emax with 1024; lia)) as Hratio.
    rewrite <- FloatAxioms.div_spec in Hratio.
    eapply finite_nonneg_magnitude.
    exact (mul_100_magnitude _ _ _ Hratio ltac:(lia) ltac:(lia)).
Qed.

Lemma cpuUsage_finite (goroutines cpus : Z) :
  0 <= goroutines < 2 ^ 63 -> 1 <= cpus < 2 ^ 63 ->
  finite_nonneg
    (let cpuUsage := (float64_of_Z goroutines / float64_of_Z cpus * 10)%float in
     let cpuUsage := if (100 <? cpuUsage)%float then 100%float else cpuUsage in
     if (cpuUsage <? 0)%float then 0%float else cpuUsage) = true.
Proof.
  intros Hg Hc. cbv zeta.
  set (x := (float64_of_Z goroutines / float64_of_Z cpus * 10)%float).
  assert (Hx : finite_nonneg x = true).
  { subst x.
    pose proof (float64_of_Z_magnitude_in cpus ltac:(lia)) as Hcpus.
    destruct (Z.eq_dec goroutines 0) as [->|Hne].
    - apply finite_nonneg_zero.
      rewrite FloatAxioms.mul_spec, FloatAxioms.div_spec.
      change (Prim2SF (float64_of_Z 0)) with (S754_zero false).
      destruct Hcpus as (m & e & -> & _). reflexivity.
    - pose proof (float64_of_Z_magnitude_in goroutines ltac:(lia)) as Hgo.
      pose proof (SF64div_magnitude_in _ _ _ _ _ _ Hgo Hcpus
                    ltac:(change emin with (-1074); change prec with 53; lia)
                    ltac:(change emax with 1024; lia)) as Hratio.
      rewrite <- FloatAxioms.div_spec in Hratio.
      eapply finite_nonneg_magnitude.
      exact (mul_10_magnitude _ _ _ Hratio ltac:(lia) ltac:(lia)). }
  destruct (100 <? x)%float.
  - reflexivity.
  - destruct (x <? 0)%float; [reflexivity|exact Hx].
Qed.

Lemma gcPauseMs_finite (ns : Z) :
  0 <= ns < 2 ^ 63 -> finite_nonneg (float64_of_Z ns / 1000000) = true.
Proof.
  intros Hns. destruct (Z.eq_dec ns 0) as [->|Hne].
  - reflexivity.
  - eapply finite_nonneg_magnitude.
    exact (div_1000000_magnitude 1 64 _
             (float64_of_Z_magnitude_in ns ltac:(lia)) ltac:(lia) ltac:(lia)).
Qed.

Lemma index_bounds (a : list Z) (i : Z) :
  Forall (fun ns => 0 <= ns < 2 ^ 63) a -> 0 <= index a i < 2 ^ 63.
Proof.
  intros Ha. unfold index.
  destruct (nth_in_or_default (Z.to_nat i) a 0) as [Hin| ->]; [|lia].
  rewrite List.Forall_forall in Ha. exact (Ha _ Hin).
Qed.

Lemma sampleSystemStats_finite (rt : Runtime) :
  0 <= NumGoroutine rt < 2 ^ 63 ->
  1 <= NumCPU rt < 2 ^ 63 ->
  0 <= Alloc (ReadMemStats rt) < 2 ^ 63 ->
  0 < Sys (ReadMemStats rt) < 2 ^ 63 ->
  Forall (fun ns => 0 <= ns < 2 ^ 63) (PauseNs (ReadMemStats rt)) ->
  finite_sample (sampleSystemStats rt).
Proof.
  intros Hg Hc Ha Hs Hp. unfold finite_sample, sampleSystemStats. cbv zeta.
  cbn [CPUUsage MemoryUsage MemoryUsageMB MemoryTotalMB GCPauseMs].
  split; [|split; [|split; [|split]]].
  - exact (cpuUsage_finite _ _ Hg Hc).
  - exact (memoryUsage_finite _ _ Ha Hs).
  - exact (megabytes_finite _ Ha).
  - apply megabytes_finite. lia.
  - destruct (0 <? NumGC (ReadMemStats rt)); [|reflexivity].
    apply gcPauseMs_finite, index_bounds, Hp.
Qed.

(** X7: the memory percentage [memoryUsageMB / memoryTotalMB * 100] of a
    fresh sample is a finite number at or above zero exactly when
    [memStats.Sys] is not zero: the division is not guarded, and with
    [Sys = 0] the percentage is a NaN or plus infinity. The two megabyte
    figures are finite numbers at or above zero in either case. *)
Theorem sampleSystemStats_MemoryUsage_finite_iff (rt : Runtime) :
  0 <= Alloc (ReadMemStats rt) < 2 ^ 63 ->
  0 <= Sys (ReadMemStats rt) < 2 ^ 63 ->
  finite_nonneg (MemoryUsage (sampleSystemStats rt)) = (0 <? Sys (ReadMemStats rt))
  /\ finite_nonneg (MemoryUsageMB (sampleSystemStats rt)) = true
  /\ finite_nonneg (MemoryTotalMB (sampleSystemStats rt)) = true.
Proof.
  intros Ha Hs. unfold sampleSystemStats. cbv zeta.
  cbn [MemoryUsage MemoryUsageMB MemoryTotalMB].
  split; [|split; apply megabytes_finite; assumption].
  destruct (Z.ltb_spec 0 (Sys (ReadMemStats rt))) as [Hpos|Hzero].
  - apply memoryUsage_finite; [assumption|lia].
  - replace (Sys (ReadMemStats rt)) with 0 by lia.
    change (float64_of_Z 0 / 1024 / 1024)%float with 0%float.
    unfold finite_nonneg.
    rewrite FloatAxioms.leb_spec, FloatAxioms.ltb_spec, FloatAxioms.mul_spec,
      FloatAxioms.div_spec.
    change (Prim2SF 0) with (S754_zero false).
    change (Prim2SF 100) with (S754_finite false 7036874417766400 (-46)).
    change (Prim2SF infinity) with (S754_infinity false).
    destruct (Z.eq_dec (Alloc (ReadMemStats rt)) 0) as [->|Hne].
    + reflexivity.
    + destruct (megabytes_magnitude (Alloc (ReadMemStats rt)) ltac:(lia))
        as (m & e & -> & _).
      reflexivity.
Qed.

Lemma sampleSystemStats_MemoryUsage_finite_iff_witness :
  finite_nonneg (MemoryUsage (sampleSystemStats idleRuntime))
  = (0 <? Sys (ReadMemStats idleRuntime))
  /\ finite_nonneg (MemoryUsageMB (sampleSystemStats idleRuntime)) = true
  /\ finite_nonneg (MemoryTotalMB (sampleSystemStats idleRuntime)) = true.
Proof.
  apply (sampleSystemStats_MemoryUsage_finite_iff idleRuntime); cbn; lia.
Defined.

Lemma generateReport_system_stats
  (r : Reporter) (st : Stats) (env : Tick ReportData) :
  system_stats (generateReport r st env).1.1 = (collectSystemStats r env).1.1.
Proof.
  unfold generateReport.
  destruct (collectSystemStats r env) as [[systemStats r'] sampling].
  reflexivity.
Qed.

Lemma NewReporter_finite_sample (config : Report) (now : Time) (mip : string) :
  finite_sample (lastCPUStats (NewReporter config now mip)).
Proof. repeat split. Qed.

(** X8: when the runtime reports at least one core, a goroutine count
    and memory figures within [int64], a total memory that is not zero
    and pauses within [int64], every float of the system statistics in
    the document (the CPU and memory percentages, the two megabyte
    figures, the pause) is a finite number at or above zero, and so is
    every float the sample cache holds afterwards, provided it was so
    before, as it is in a new reporter. *)
Theorem generateReport_sample_finite
  (r : Reporter) (st : Stats) (env : Tick ReportData) :
  0 <= NumGoroutine (runtime env) < 2 ^ 63 ->
  1 <= NumCPU (runtime env) < 2 ^ 63 ->
  0 <= Alloc (ReadMemStats (runtime env)) < 2 ^ 63 ->
  0 < Sys (ReadMemStats (runtime env)) < 2 ^ 63 ->
  Forall (fun ns => 0 <= ns < 2 ^ 63) (PauseNs (ReadMemStats (runtime env))) ->
  finite_sample (lastCPUStats r) ->
  finite_sample (system_stats (generateReport r st env).1.1)
  /\ finite_sample (lastCPUStats (generateReport r st env).1.2)
  /\ (30 * Second <= Since (clock_cache env) (lastCPUTime r) ->
      system_stats (generateReport r st env).1.1 = sampleSystemStats (runtime env)).
Proof.
  intros Hg Hc Ha Hs Hp Hcache.
  pose proof (sampleSystemStats_finite (runtime env) Hg Hc Ha Hs Hp) as Hsample.
  rewrite generateReport_system_stats, generateReport_reporter.
  split; [|split].
  - unfold collectSystemStats.
    destruct (Since (clock_cache env) (lastCPUTime r) <? 30 * Second); assumption.
  - unfold collectSystemStats.
    destruct (Since (clock_cache env) (lastCPUTime r) <? 30 * Second); assumption.
  - intros Hstale. rewrite collectSystemStats_stale by exact Hstale. reflexivity.
Qed.

Lemma generateReport_sample_finite_witness :
  let r := localReporter in
  let env := tickAt Second busyRuntime (Response 200) in
  finite_sample (system_stats (generateReport r scenarioStats env).1.1)
  /\ finite_sample (lastCPUStats (generateReport r scenarioStats env).1.2)
  /\ (30 * Second <= Since (clock_cache env) (lastCPUTime r) ->
      system_stats (generateReport r scenarioStats env).1.1
      = sampleSystemStats (runtime env)).
Proof.
  cbv zeta.
  apply (generateReport_sample_finite localReporter scenarioStats
           (tickAt Second busyRuntime (Response 200))).
  - cbn. lia.
  - cbn. lia.
  - cbn. lia.
  - cbn. lia.
  - cbn [tickAt runtime busyRuntime ReadMemStats busyMemStats PauseNs].
    apply Forall_app. split.
    + repeat constructor; lia.
    + apply List.Forall_forall. intros ns Hns. apply repeat_spec in Hns.
      subst ns. lia.
  - apply NewReporter_finite_sample.
Defined.

(** ** Floating point: the uptime and the rates are finite *)

Lemma shl_align_digits (m : positive) (e e' : Z) :
  e' <= e ->
  Z.pos (digits2_pos (fst (shl_align m e e'))) + e' = Z.pos (digits2_pos m) + e
  /\ Z.pos (fst (shl_align m e e')) = Z.pos m * 2 ^ (e - e').
Proof.
  intros He. unfold shl_align.
  destruct (e' - e) as [|d|d] eqn:Hd; cbn [fst]; try lia.
  - replace (e - e') with 0 by lia. split; lia.
  - change (PosDef.Pos.iter xO m d) with (Pos.iter xO m d).
    rewrite digits2_pos_iter_xO, iter_xO_mul.
    replace (e - e') with (Z.pos d) by lia. split; lia.
Qed.

(** Rounding a positive integer mantissa at an exponent, as the sum of two
    floats does. *)
Lemma binary_round_bounds (s : bool) (p : positive) (ex : Z) :
  emin < Z.pos (digits2_pos p) + ex ->
  ex <= emax - prec ->
  Z.pos (digits2_pos p) + ex <= emax - 1 ->
  exists m e,
    binary_round prec emax s p ex = S754_finite s m e
    /\ Z.pos (digits2_pos p) + ex <= Z.pos (digits2_pos m) + e
       <= Z.pos (digits2_pos p) + ex + 1.
Proof.
  intros Hd Hex Hmag. unfold binary_round, shl_align.
  destruct (fexp prec emax (Z.pos (digits2_pos p) + ex) - ex) as [|d|d] eqn:Hfd.
  - apply binary_round_aux_bounds; assumption.
  - apply binary_round_aux_bounds; assumption.
  - change (PosDef.Pos.iter xO p d) with (Pos.iter xO p d).
    set (ex' := fexp prec emax (Z.pos (digits2_pos p) + ex)) in *.
    assert (Hex' : ex' = ex - Z.pos d) by lia.
    destruct (binary_round_aux_bounds s (Pos.iter xO p d) ex' loc_Exact)
      as (m & e & -> & Hm).
    + rewrite digits2_pos_iter_xO. lia.
    + lia.
    + rewrite digits2_pos_iter_xO. lia.
    + rewrite digits2_pos_iter_xO in Hm. exists m, e. split; [reflexivity|lia].
Qed.

(** The sum of two positive finite floats, when it is in the range of the
    format. *)
Lemma SF64add_magnitude_in (lo1 hi1 lo2 hi2 : Z) (a b : float) :
  magnitude_in lo1 hi1 (Prim2SF a) -> magnitude_in lo2 hi2 (Prim2SF b) ->
  Z.max hi1 hi2 <= emax - prec ->
  magnitude_in (Z.max lo1 lo2) (Z.max hi1 hi2 + 2) (Prim2SF (a + b)).
Proof.
  intros (m1 & e1 & Ha & Hm1) (m2 & e2 & Hb & Hm2) Hhi.
  pose proof (Prim2SF_finite_exp a _ _ _ Ha) as He1.
  pose proof (Prim2SF_finite_exp b _ _ _ Hb) as He2.
  rewrite FloatAxioms.add_spec, Ha, Hb. cbn [SF64add SFadd cond_Zopp].
  change IntDef.Z.min with Z.min.
  set (ez := Z.min e1 e2).
  destruct (shl_align_digits m1 e1 ez ltac:(lia)) as [Hd1 Hv1].
  destruct (shl_align_digits m2 e2 ez ltac:(lia)) as [Hd2 Hv2].
  set (p1 := fst (shl_align m1 e1 ez)) in *.
  set (p2 := fst (shl_align m2 e2 ez)) in *.
  change (Z.pos p1 + Z.pos p2) with (Z.pos (p1 + p2)).
  cbn [binary_normalize].
  pose proof (digits2_pos_mono p1 (p1 + p2) ltac:(lia)) as Hge1.
  pose proof (digits2_pos_mono p2 (p1 + p2) ltac:(lia)) as Hge2.
  assert (Hle : Z.pos (digits2_pos (p1 + p2))
                <= Z.max (Z.pos (digits2_pos p1)) (Z.pos (digits2_pos p2)) + 1).
  { pose proof (digits2_pos_bounds p1) as [_ Hh1].
    pose proof (digits2_pos_bounds p2) as [_ Hh2].
    apply digits2_pos_le; [lia|].
    set (dmax := Z.max (Z.pos (digits2_pos p1)) (Z.pos (digits2_pos p2))).
    assert (H1 : 2 ^ Z.pos (digits2_pos p1) <= 2 ^ dmax)
      by (apply Z.pow_le_mono_r; lia).
    assert (H2 : 2 ^ Z.pos (digits2_pos p2) <= 2 ^ dmax)
      by (apply Z.pow_le_mono_r; lia).
    rewrite Z.pow_add_r, Z.pow_1_r by lia. rewrite Pos2Z.inj_add. lia. }
  destruct (binary_round_bounds false (p1 + p2) ez) as (m & e & -> & Hm).
  - change emin with (-1074) in *. lia.
  - change emax with 1024 in *. change prec with 53 in *. lia.
  - change emax with 1024 in *. change prec with 53 in *. lia.
  - exists m, e. split; [reflexivity|]. lia.
Qed.

(** The uptime of a positive duration is a finite number between a
    nanosecond and 2^66 seconds. *)
Lemma Seconds_magnitude (d : Duration) :
  0 < d <= int64_max -> magnitude_in (-29) 66 (Prim2SF (Seconds d)).
Proof.
  unfold int64_max. intros Hd. unfold Seconds.
  assert (HS : Second = 1000000000) by reflexivity.
  pose proof (Z.quot_rem' d Second) as Hqr.
  pose proof (Z.rem_bound_pos d Second ltac:(lia) ltac:(lia)) as Hr.
  pose proof (Z.quot_pos d Second ltac:(lia) ltac:(lia)) as Hq.
  assert (Hrem : forall r, 0 < r < 2 ^ 63 ->
            magnitude_in (-29) 36 (Prim2SF (float64_of_Z r / 1000000000))).
  { intros r Hr0. rewrite FloatAxioms.div_spec.
    replace 36 with (64 - 30 + 2) by lia. replace (-29) with (1 - 30) by lia.
    apply SF64div_magnitude_in.
    - apply float64_of_Z_magnitude_in. exact Hr0.
    - exists 8388608000000000%positive, (-23). split; [reflexivity|].
      change (Z.pos (digits2_pos 8388608000000000)) with 53. lia.
    - change emin with (-1074). change prec with 53. lia.
    - change emax with 1024. lia. }
  destruct (Z.eq_dec (Z.quot d Second) 0) as [Hq0|Hq0];
    destruct (Z.eq_dec (Z.rem d Second) 0) as [Hr0|Hr0].
  - lia.
  - rewrite Hq0. specialize (Hrem (Z.rem d Second) ltac:(lia)).
    rewrite FloatAxioms.add_spec.
    change (Prim2SF (float64_of_Z 0)) with (S754_zero false).
    destruct Hrem as (m & e & Heq & Hm). rewrite Heq. cbn [SF64add SFadd].
    exists m, e. split; [reflexivity|lia].
  - rewrite Hr0.
    change (float64_of_Z 0 / 1000000000)%float with 0%float.
    rewrite FloatAxioms.add_spec. change (Prim2SF 0) with (S754_zero false).
    destruct (float64_of_Z_magnitude_in (Z.quot d Second) ltac:(lia))
      as (m & e & Heq & Hm).
    rewrite Heq. cbn [SF64add SFadd]. exists m, e. split; [reflexivity|lia].
  - pose proof (SF64add_magnitude_in 1 64 (-29) 36 _ _
                  (float64_of_Z_magnitude_in (Z.quot d Second) ltac:(lia))
                  (Hrem (Z.rem d Second) ltac:(lia))
                  ltac:(change emax with 1024; change prec with 53; lia)) as Hsum.
    eapply magnitude_in_weaken; [exact Hsum|lia|lia].
Qed.

(** A byte count that does not wrap, over a positive uptime that comes
    from a duration, is a finite rate at or above zero. *)
Lemma rate_finite (bytes : Z) (d : Duration) :
  0 <= bytes < 2 ^ 60 -> 0 < d <= int64_max ->
  finite_nonneg (float64_of_Z (int64_mul bytes 8) / (Seconds d * 1000000)) = true.
Proof.
  intros Hb Hd. rewrite int64_mul_8 by exact Hb.
  pose proof (Seconds_magnitude d Hd) as Hu.
  assert (Hden : magnitude_in (-10) 87 (Prim2SF (Seconds d * 1000000))).
  { rewrite FloatAxioms.mul_spec.
    replace (-10) with (-29 + 20 - 1) by lia. replace 87 with (66 + 20 + 1) by lia.
    apply SF64mul_magnitude_in; [exact Hu| | |].
    - exists 8589934592000000%positive, (-33). split; [reflexivity|].
      change (Z.pos (digits2_pos 8589934592000000)) with 53. lia.
    - change emin with (-1074). lia.
    - change emax with 1024. change prec with 53. lia. }
  destruct (Z.eq_dec bytes 0) as [->|Hne].
  - apply finite_nonneg_zero. rewrite FloatAxioms.div_spec.
    change (Prim2SF (float64_of_Z (0 * 8))) with (S754_zero false).
    destruct Hden as (m & e & -> & _). reflexivity.
  - pose proof (SF64div_magnitude_in _ _ _ _ _ _
                  (float64_of_Z_magnitude_in (bytes * 8) ltac:(lia)) Hden
                  ltac:(change emin with (-1074); change prec with 53; lia)
                  ltac:(change emax with 1024; lia)) as Hrate.
    rewrite <- FloatAxioms.div_spec in Hrate.
    eapply finite_nonneg_magnitude. exact Hrate.
Qed.

(** ** Uptime and bandwidth by the clock *)

Lemma Since_in_int64 (now t : Time) : in_int64 (Since now t).
Proof. unfold Since, Sub, in_int64, int64_min, int64_max. lia. Qed.

Lemma Since_positive (now t : Time) : (0 <? Since now t) = (t <? now).
Proof.
  unfold Since, Sub, int64_min, int64_max.
  destruct (Z.ltb_spec t now), (Z.ltb_spec 0 (Z.max (- 2 ^ 63) (Z.min (2 ^ 63 - 1) (now - t))));
    try reflexivity; lia.
Qed.

Lemma Seconds_whole (k : Z) :
  0 <= k < 2 ^ 63 -> Seconds (k * Second) = float64_of_Z k.
Proof.
  intros Hk. unfold Seconds.
  rewrite Z.quot_mul, Z.rem_mul by (unfold Second; lia).
  change (float64_of_Z 0 / 1000000000)%float with 0%float.
  apply Prim2SF_inj. rewrite FloatAxioms.add_spec.
  change (Prim2SF 0) with (S754_zero false).
  destruct (float64_of_Z_nonneg k Hk) as [->|(m & e & ->)]; reflexivity.
Qed.

(** X9: the guard [uptime > 0] of [generateReport] holds exactly when the
    clock reads later than the start time. At a clock reading at or before
    the start time every bandwidth of the document is zero; later, the
    total bandwidth is the quotient; and an uptime of [k] whole seconds is
    reported as [float64(k)]. *)
Theorem generateReport_uptime (r : Reporter) (st : Stats) (env : Tick ReportData) :
  let doc := (generateReport r st env).1.1 in
  (0 <? uptime_seconds (total_stats doc))%float = (startTime r <? clock_uptime env)
  /\ (clock_uptime env <= startTime r ->
      bandwidth_mbps (total_stats doc) = 0%float
      /\ forall ip entry,
           source_ip_stats doc !! ip = Some entry -> BandwidthMbps entry = 0%float)
  /\ (startTime r < clock_uptime env ->
      bandwidth_mbps (total_stats doc) =
      (float64_of_Z (int64_mul (bytesSent st) 8)
       / (uptime_seconds (total_stats doc) * 1000000))%float)
  /\ (forall k,
        0 <= k <= 9223372036 -> clock_uptime env = startTime r + k * Second ->
        uptime_seconds (total_stats doc) = float64_of_Z k).
Proof.
  cbv zeta.
  assert (Hsign : (0 <? Seconds (Since (clock_uptime env) (startTime r)))%float
                  = (startTime r <? clock_uptime env)).
  { rewrite Seconds_positive by apply Since_in_int64. apply Since_positive. }
  rewrite generateReport_total_stats, generateReport_source_ip_stats. cbv zeta.
  cbn [uptime_seconds bandwidth_mbps]. rewrite Hsign.
  split; [reflexivity|]. split; [|split].
  - intros Hclock.
    replace (startTime r <? clock_uptime env) with false
      by (symmetry; apply Z.ltb_ge; exact Hclock).
    split; [reflexivity|].
    intros ip entry. rewrite copySourceIPStats_lookup.
    destruct (sourceIPStats st !! ip) as [stats|]; [|discriminate].
    cbn [fmap option_fmap option_map]. intros [= <-]. cbn [BandwidthMbps].
    rewrite Hsign.
    replace (startTime r <? clock_uptime env) with false
      by (symmetry; apply Z.ltb_ge; exact Hclock).
    reflexivity.
  - intros Hclock.
    replace (startTime r <? clock_uptime env) with true
      by (symmetry; apply Z.ltb_lt; exact Hclock).
    reflexivity.
  - intros k Hk ->.
    replace (Since (startTime r + k * Second) (startTime r)) with (k * Second).
    + apply Seconds_whole. lia.
    + unfold Since, Sub, int64_min, int64_max, Second. lia.
Qed.

(** X10: as long as the byte counters are below 2^60 (so that [bytes * 8]
    does not wrap) every bandwidth of the document is a finite number at
    or above zero, never negative, never a NaN or an infinity, whatever
    the clock reads; once the clock reads later than the start time the
    uptime is a finite number above zero. *)
Theorem generateReport_bandwidth_finite
  (r : Reporter) (st : Stats) (env : Tick ReportData) :
  0 <= bytesSent st < 2 ^ 60 ->
  let doc := (generateReport r st env).1.1 in
  finite_nonneg (bandwidth_mbps (total_stats doc)) = true
  /\ (forall ip stats,
        sourceIPStats st !! ip = Some stats ->
        BytesSent stats < 2 ^ 60 ->
        exists entry,
          source_ip_stats doc !! ip = Some entry
          /\ finite_nonneg (BandwidthMbps entry) = true)
  /\ (startTime r < clock_uptime env ->
      (0 <? uptime_seconds (total_stats doc))%float = true
      /\ finite_nonneg (uptime_seconds (total_stats doc)) = true).
Proof.
  intros Hbytes. cbv zeta.
  rewrite generateReport_total_stats, generateReport_source_ip_stats. cbv zeta.
  cbn [bandwidth_mbps uptime_seconds].
  set (d := Since (clock_uptime env) (startTime r)).
  pose proof (Since_in_int64 (clock_uptime env) (startTime r)) as Hd. fold d in Hd.
  pose proof (Seconds_positive d Hd) as Hsign.
  assert (Hpos : (0 <? Seconds d)%float = true -> 0 < d <= int64_max).
  { rewrite Hsign. intros H. apply Z.ltb_lt in H. unfold in_int64 in Hd. lia. }
  split; [|split].
  - destruct (0 <? Seconds d)%float eqn:Hu; [|reflexivity].
    apply rate_finite; auto.
  - intros ip stats Hip Hlt. rewrite copySourceIPStats_lookup, Hip.
    cbn [fmap option_fmap option_map].
    eexists. split; [reflexivity|]. cbn [BandwidthMbps].
    destruct (0 <? Seconds d)%float eqn:Hu; [|reflexivity].
    destruct (0 <? BytesSent stats) eqn:Hb; [|reflexivity].
    apply Z.ltb_lt in Hb. cbn [andb].
    apply rate_finite; [lia|auto].
  - intros Hclock.
    assert (Hd0 : 0 < d).
    { pose proof (Since_positive (clock_uptime env) (startTime r)) as Hs.
      fold d in Hs. apply Z.ltb_lt. rewrite Hs. apply Z.ltb_lt. exact Hclock. }
    split.
    + rewrite Hsign. apply Z.ltb_lt. exact Hd0.
    + eapply finite_nonneg_magnitude, Seconds_magnitude.
      unfold in_int64 in Hd. lia.
Qed.

Lemma generateReport_bandwidth_finite_witness :
  let doc := (generateReport localReporter scenarioStats
                (tickAt Second idleRuntime (Response 200))).1.1 in
  finite_nonneg (bandwidth_mbps (total_stats doc)) = true
  /\ (forall ip stats,
        sourceIPStats scenarioStats !! ip = Some stats ->
        BytesSent stats < 2 ^ 60 ->
        exists entry,
          source_ip_stats doc !! ip = Some entry
          /\ finite_nonneg (BandwidthMbps entry) = true)
  /\ (startTime localReporter < clock_uptime (tickAt Second idleRuntime (Response 200)) ->
      (0 <? uptime_seconds (total_stats doc))%float = true
      /\ finite_nonneg (uptime_seconds (total_stats doc)) = true).
Proof.
  cbv zeta.
  apply (generateReport_bandwidth_finite localReporter scenarioStats
           (tickAt Second idleRuntime (Response 200))).
  cbn. lia.
Defined.

(** ** Lock discipline *)











(** ** Invariants of the life cycle *)

Lemma generateReport_report_events
  (r : Reporter) (st : Stats) (env : Tick ReportData) :
  List.filter (fun e => negb (is_report_event e)) (generateReport r st env).2 = [].
Proof.
  rewrite generateReport_events. cbv zeta.
  rewrite !List.filter_app, collectSystemStats_filter by reflexivity.
  cbn [List.filter app is_report_event negb].
  destruct (marshals env (generateReport r st env).1.1); [|reflexivity].
  rewrite List.filter_app.
  assert (Hlines : forall lines,
            Forall (fun ln => match ln with
                              | StartedLine _ | StoppedLine => False
                              | _ => True
                              end) lines ->
            List.filter (fun e : event ReportData => negb (is_report_event e))
                        (map (Log InfoLevel) lines) = []).
  { induction 1 as [|ln lines Hln _ IH]; [reflexivity|].
    cbn [map List.filter]. destruct ln; try contradiction; exact IH. }
  rewrite Hlines, app_nil_r.
  - destruct (String.eqb (reportURL r) EmptyString); [reflexivity|].
    destruct (http env) as [| |c]; cbn; try reflexivity.
    destruct ((200 <=? c) && (c <? 300)); reflexivity.
  - unfold reportLines. repeat apply Forall_app_2; repeat constructor.
    apply List.Forall_forall. intros ln Hln.
    apply in_map_iff in Hln as ([ip stats] & <- & _). exact I.
Qed.

Lemma generateReport_same_config
  (r : Reporter) (st : Stats) (env : Tick ReportData) :
  same_config r (generateReport r st env).1.2
  /\ ((generateReport r st env).1.2 = r
      \/ lastCPUTime (generateReport r st env).1.2 = clock_store env
         /\ lastCPUStats (generateReport r st env).1.2
            = sampleSystemStats (runtime env)).
Proof.
  rewrite generateReport_reporter. unfold collectSystemStats, same_config.
  destruct (Since (clock_cache env) (lastCPUTime r) <? 30 * Second);
    cbn; auto 10.
Qed.




Lemma generateReport_marshals_once
  (r : Reporter) (st : Stats) (env : Tick ReportData) :
  List.filter is_marshal (generateReport r st env).2
  = [Marshal (generateReport r st env).1.1].
Proof.
  rewrite generateReport_events at 1. cbv zeta.
  rewrite !List.filter_app, collectSystemStats_filter by reflexivity.
  cbn [List.filter app is_marshal]. f_equal.
  destruct (marshals env (generateReport r st env).1.1); [|reflexivity].
  rewrite List.filter_app, filter_Log, app_nil_r by reflexivity.
  destruct (String.eqb (reportURL r) EmptyString); [reflexivity|].
  destruct (http env) as [| |c]; cbn; try reflexivity.
  destruct ((200 <=? c) && (c <? 300)); reflexivity.
Qed.

Lemma exec_pending (w w' : world) (a : action) :
  well_formed w ->
  exec w a = Some w' ->
  (nat_of_bool (is_report a) + pending w' = nat_of_bool (is_tick a) + pending w)%nat
  /\ length (List.filter is_marshal (output w'))
     = (length (List.filter is_marshal (output w)) + nat_of_bool (is_report a))%nat.
Proof.
  unfold pending, well_formed.
  destruct w as [c l cancel n tk rdy r out].
  cbn [caller loop cancelled wg ticking tick_ready].
  intros (Hc & _) Hexec.
  destruct a; cbn [exec with_caller caller loop cancelled wg ticking tick_ready
                     reporter output] in Hexec;
    exec_guard Hexec; pc_facts; unfold with_caller;
    cbn [caller loop cancelled wg ticking tick_ready output is_report is_tick
         nat_of_bool];
    rewrite ?List.filter_app, ?length_app, ?generateReport_marshals_once;
    cbn [List.filter is_marshal length];
    try subst l; try subst rdy; try subst c; cbn [loop_pc_eqb];
    try (split; lia);
    try (destruct Hc as [-> _]);
    destruct rdy; try destruct l; try congruence; cbn [loop_pc_eqb]; split; lia.
Qed.

Lemma run_pending (acts : list action) (w w' : world) :
  well_formed w ->
  run w acts = Some w' ->
  (length (List.filter is_report acts) + pending w'
   = length (List.filter is_tick acts) + pending w)%nat
  /\ length (List.filter is_marshal (output w'))
     = (length (List.filter is_marshal (output w))
        + length (List.filter is_report acts))%nat.
Proof.
  revert w. induction acts as [|a acts IH]; intros w Hw Hrun; cbn [run] in Hrun.
  - injection Hrun as <-. cbn. lia.
  - destruct (exec w a) as [w1|] eqn:Hexec; [|discriminate].
    destruct (exec_pending w w1 a Hw Hexec) as [Hp Hm].
    destruct (IH w1 (exec_well_formed w w1 a Hw Hexec) Hrun) as [Hp' Hm'].
    cbn [List.filter].
    destruct (is_report a), (is_tick a); cbn [nat_of_bool length] in *; lia.
Qed.

(** X14: every report answers a tick. Along every run the reports made,
    plus the ticks that wait (at most one in the channel of the ticker and
    one taken by [select]), are the ticks that arrived; every report
    serializes exactly one document; when [Stop] has returned at most one
    tick is left, in the channel. *)
Theorem reports_bounded_by_ticks (r : Reporter) (acts : list action) (w : world) :
  run (boot r) acts = Some w ->
  (length (List.filter is_report acts) + pending w
   = length (List.filter is_tick acts))%nat
  /\ (length (List.filter is_report acts) <= length (List.filter is_tick acts))%nat
  /\ length (List.filter is_marshal (output w))
     = length (List.filter is_report acts)
  /\ (caller w = Stopped ->
      length (List.filter is_report acts) = length (List.filter is_tick acts)
      \/ (tick_ready w = true
          /\ S (length (List.filter is_report acts))
             = length (List.filter is_tick acts))).
Proof.
  intros Hrun.
  destruct (run_pending acts (boot r) w (boot_well_formed r) Hrun) as [Hp Hm].
  change (pending (boot r)) with 0%nat in Hp.
  change (output (boot r)) with (@nil (event ReportData)) in Hm.
  cbn [List.filter length] in Hm.
  split; [lia|]. split; [lia|]. split; [lia|].
  intros Hstop.
  pose proof (run_well_formed acts (boot r) w (boot_well_formed r) Hrun) as Hw.
  destruct Hw as (Hpc & _). rewrite Hstop in Hpc. destruct Hpc as [Hl _].
  unfold pending in Hp. rewrite Hl in Hp. cbn [loop_pc_eqb] in Hp.
  destruct (tick_ready w); [right; split; [reflexivity|lia]|left; lia].
Qed.

Lemma reports_bounded_by_ticks_witness :
  (length (List.filter is_report lastTickRun) + pending lastTickWorld
   = length (List.filter is_tick lastTickRun))%nat
  /\ (length (List.filter is_report lastTickRun)
      <= length (List.filter is_tick lastTickRun))%nat
  /\ length (List.filter is_marshal (output lastTickWorld))
     = length (List.filter is_report lastTickRun)
  /\ (caller lastTickWorld = Stopped ->
      length (List.filter is_report lastTickRun)
      = length (List.filter is_tick lastTickRun)
      \/ (tick_ready lastTickWorld = true
          /\ S (length (List.filter is_report lastTickRun))
             = length (List.filter is_tick lastTickRun))).
Proof.
  apply (reports_bounded_by_ticks remoteReporter lastTickRun lastTickWorld).
  vm_compute. reflexivity.
Defined.

Lemma exec_same_config (w w' : world) (a : action) :
  exec w a = Some w' ->
  same_config (reporter w) (reporter w')
  /\ (reporter w' = reporter w
      \/ exists st env,
           a = GenerateReport st env
           /\ lastCPUTime (reporter w') = clock_store env
           /\ lastCPUStats (reporter w') = sampleSystemStats (runtime env)).
Proof.
  intros Hexec.
  destruct a; cbn [exec with_caller] in Hexec; exec_guard Hexec;
    cbn [reporter]; try (split; [repeat split|left; reflexivity]).
  destruct (generateReport_same_config (reporter w) st env) as [Hc [Hr|Hr]].
  - split; [exact Hc|left; exact Hr].
  - split; [exact Hc|right; eauto].
Qed.

(** X15: along every run the interval, the start time, the URL and the
    management IP of the reporter stay what they were; the sample cache
    holds what it held at first or what a report of the run sampled from
    the runtime, with the clock reading of that report. *)
Theorem run_same_config (r : Reporter) (acts : list action) (w : world) :
  run (boot r) acts = Some w ->
  same_config r (reporter w)
  /\ (lastCPUTime (reporter w) = lastCPUTime r
      /\ lastCPUStats (reporter w) = lastCPUStats r
      \/ exists st env,
           In (GenerateReport st env) acts
           /\ lastCPUTime (reporter w) = clock_store env
           /\ lastCPUStats (reporter w) = sampleSystemStats (runtime env)).
Proof.
  change r with (reporter (boot r)) at 2 3 4.
  generalize (boot r). clear r.
  induction acts as [|a acts IH]; intros w0 Hrun; cbn [run] in Hrun.
  - injection Hrun as <-. split; [repeat split|left; split; reflexivity].
  - destruct (exec w0 a) as [w1|] eqn:Hexec; [|discriminate].
    destruct (exec_same_config w0 w1 a Hexec) as [Hc Hr].
    destruct (IH w1 Hrun) as [Hc' Hr'].
    split.
    + unfold same_config in *. intuition congruence.
    + destruct Hr' as [[Ht Hs]|(st & env & Hin & Ht & Hs)].
      * destruct Hr as [Hr|(st & env & -> & Ht1 & Hs1)].
        -- left. rewrite Hr in Ht, Hs. auto.
        -- right. exists st, env. split; [left; reflexivity|]. split; congruence.
      * right. exists st, env. split; [right; exact Hin|]. auto.
Qed.

Lemma run_same_config_witness :
  same_config remoteReporter (reporter lastTickWorld)
  /\ (lastCPUTime (reporter lastTickWorld) = lastCPUTime remoteReporter
      /\ lastCPUStats (reporter lastTickWorld) = lastCPUStats remoteReporter
      \/ exists st env,
           In (GenerateReport st env) lastTickRun
           /\ lastCPUTime (reporter lastTickWorld) = clock_store env
           /\ lastCPUStats (reporter lastTickWorld) = sampleSystemStats (runtime env)).
Proof.
  apply (run_same_config remoteReporter lastTickRun lastTickWorld).
  vm_compute. reflexivity.
Defined.

Lemma exec_life_cycle_lines (r : Reporter) (w w' : world) (a : action) :
  exec w a = Some w' ->
  reportURL (reporter w) = reportURL r ->
  List.filter (fun e => negb (is_report_event e)) (output w)
  = life_cycle_lines r (caller w) ->
  List.filter (fun e => negb (is_report_event e)) (output w')
  = life_cycle_lines r (caller w').
Proof.
  intros Hexec Hurl Hout.
  destruct w as [c l cancel n tk rdy r0 out].
  cbn [caller output reporter] in *.
  destruct a; cbn [exec with_caller caller loop cancelled wg ticking tick_ready
                     reporter output] in Hexec;
    exec_guard Hexec; pc_facts; unfold with_caller; cbn [caller output];
    rewrite ?List.filter_app, ?generateReport_report_events, ?app_nil_r, ?Hout;
    try subst c; try reflexivity.
  cbn. rewrite Hurl. reflexivity.
Qed.

Lemma exec_log_ends (w w' : world) (a : action) :
  well_formed w ->
  exec w a = Some w' ->
  (caller w' = Stopped -> last (output w') = Some (Log InfoLevel StoppedLine))
  /\ (caller w' = BeforeStart -> output w' = []).
Proof.
  unfold well_formed.
  destruct w as [c l cancel n tk rdy r out].
  cbn [caller loop cancelled wg ticking tick_ready].
  intros (Hc & Hn & Htk & Hrdy) Hexec.
  destruct a; cbn [exec with_caller caller loop cancelled wg ticking tick_ready
                     reporter output] in Hexec;
    exec_guard Hexec; pc_facts; unfold with_caller; cbn [caller output];
    (split; intros Hpc); try discriminate Hpc; try apply last_snoc;
    subst c; destruct Hc as [Hl Hcancel]; subst; try discriminate;
    try congruence.
Qed.

(** X16: [Start] logs its line exactly once, with or without the URL as
    the reporter has one, and by the time it returns; [Stop] logs its line
    exactly once, after that of [Start], and it is the last event of the
    program; before [Start] nothing is logged at all. *)
Theorem Start_Stop_log_lines (r : Reporter) (acts : list action) (w : world) :
  run (boot r) acts = Some w ->
  List.filter (fun e => negb (is_report_event e)) (output w)
  = life_cycle_lines r (caller w)
  /\ (caller w = Stopped -> last (output w) = Some (Log InfoLevel StoppedLine))
  /\ (caller w = BeforeStart -> output w = []).
Proof.
  assert (H : forall acts w0 w1,
            run w0 acts = Some w1 ->
            well_formed w0 ->
            reportURL (reporter w0) = reportURL r ->
            List.filter (fun e => negb (is_report_event e)) (output w0)
            = life_cycle_lines r (caller w0) ->
            (caller w0 = Stopped -> last (output w0) = Some (Log InfoLevel StoppedLine)) ->
            (caller w0 = BeforeStart -> output w0 = []) ->
            List.filter (fun e => negb (is_report_event e)) (output w1)
            = life_cycle_lines r (caller w1)
            /\ (caller w1 = Stopped -> last (output w1) = Some (Log InfoLevel StoppedLine))
            /\ (caller w1 = BeforeStart -> output w1 = [])).
  { clear. induction acts as [|a acts IH];
      intros w0 w1 Hrun Hw Hurl Hout Hlast Hfirst; cbn [run] in Hrun.
    - injection Hrun as <-. auto.
    - destruct (exec w0 a) as [w'|] eqn:Hexec; [|discriminate].
      destruct (exec_log_ends w0 w' a Hw Hexec) as [Hlast' Hfirst'].
      apply (IH w' w1 Hrun); auto.
      + exact (exec_well_formed w0 w' a Hw Hexec).
      + destruct (exec_same_config w0 w' a Hexec) as [(_ & _ & Hu & _) _].
        congruence.
      + exact (exec_life_cycle_lines r w0 w' a Hexec Hurl Hout). }
  intros Hrun.
  apply (H acts (boot r) w Hrun); try reflexivity; try discriminate.
  apply boot_well_formed.
Qed.

Lemma Start_Stop_log_lines_witness :
  List.filter (fun e => negb (is_report_event e)) (output lastTickWorld)
  = life_cycle_lines remoteReporter (caller lastTickWorld)
  /\ (caller lastTickWorld = Stopped ->
      last (output lastTickWorld) = Some (Log InfoLevel StoppedLine))
  /\ (caller lastTickWorld = BeforeStart -> output lastTickWorld = []).
Proof.
  apply (Start_Stop_log_lines remoteReporter lastTickRun lastTickWorld).
  vm_compute. reflexivity.
Defined.

(** X17: in every world a run reaches, the counter of [wg] is 0 or 1, and
    1 exactly while the goroutine of [reportLoop] lives; the ticker runs
    exactly while the goroutine is in its loop, so the deferred
    [ticker.Stop()] leaves no ticker behind; the goroutine has returned
    only if the context was cancelled; there is a goroutine as soon as
    [Start] has been called; no tick can be ready before
    [time.NewTicker]. *)
Theorem reportLoop_invariants (r : Reporter) (acts : list action) (w : world) :
  run (boot r) acts = Some w ->
  0 <= wg w <= 1
  /\ (wg w = 1 <-> loop w = Entered \/ loop w = AtSelect \/ loop w = InReport)
  /\ (ticking w = true <-> loop w = AtSelect \/ loop w = InReport)
  /\ (loop w = Returned -> cancelled w = true)
  /\ (loop w = NoGoroutine <-> caller w = BeforeStart)
  /\ (tick_ready w = true -> loop w <> NoGoroutine /\ loop w <> Entered).
Proof.
  intros Hrun.
  pose proof (run_well_formed acts (boot r) w (boot_well_formed r) Hrun) as Hw.
  unfold well_formed in Hw. destruct Hw as (Hc & Hn & Htk & Hrdy).
  rewrite Hn, Htk.
  destruct (caller w), (loop w); intuition (try discriminate; try lia; try congruence).
Qed.

Lemma reportLoop_invariants_witness :
  let w := lastTickWorld in
  0 <= wg w <= 1
  /\ (wg w = 1 <-> loop w = Entered \/ loop w = AtSelect \/ loop w = InReport)
  /\ (ticking w = true <-> loop w = AtSelect \/ loop w = InReport)
  /\ (loop w = Returned -> cancelled w = true)
  /\ (loop w = NoGoroutine <-> caller w = BeforeStart)
  /\ (tick_ready w = true -> loop w <> NoGoroutine /\ loop w <> Entered).
Proof.
  cbv zeta.
  apply (reportLoop_invariants remoteReporter lastTickRun lastTickWorld).
  vm_compute. reflexivity.
Defined.

(** ** The older sampler *)

(** X18: the older [collectSystemStats] agrees with the newer sample on the
    CPU count, the memory figures, the goroutine count and the collection
    count. Its index into the pause buffer, [NumGC % 256], is in bounds
    and is the slot after the one the newer version reads: a slot that has
    been written only once the buffer has wrapped ([NumGC >= 256]). *)
Theorem Legacy_collectSystemStats_slot (rt : Runtime) :
  wf_MemStats (ReadMemStats rt) ->
  let memStats := ReadMemStats rt in
  let old := Legacy.collectSystemStats rt in
  let new := sampleSystemStats rt in
  Legacy.CPUCount old = CPUCount new
  /\ Legacy.MemoryUsageMB old = MemoryUsageMB new
  /\ Legacy.MemoryTotalMB old = MemoryTotalMB new
  /\ Legacy.GoroutineCount old = GoroutineCount new
  /\ Legacy.GCCount old = GCCount new
  /\ 0 <= NumGC memStats mod 256 < 256
  /\ (exists ns,
        PauseNs memStats !! Z.to_nat (NumGC memStats mod 256) = Some ns
        /\ Legacy.GCPauseMs old = (float64_of_Z ns / 1000000)%float)
  /\ NumGC memStats mod 256 = (uint32_add (NumGC memStats) 255 mod 256 + 1) mod 256
  /\ initialized (NumGC memStats) (NumGC memStats mod 256)
     = (256 <=? NumGC memStats).
Proof.
  intros [Hgc Hlen]. cbv zeta.
  do 5 (split; [reflexivity|]).
  assert (Hslot : 0 <= NumGC (ReadMemStats rt) mod 256 < 256)
    by (apply Z.mod_pos_bound; lia).
  split; [exact Hslot|]. split; [|split].
  - assert (Hlt : (Z.to_nat (NumGC (ReadMemStats rt) mod 256)
                   < length (PauseNs (ReadMemStats rt)))%nat)
      by (rewrite Hlen; lia).
    apply lookup_lt_is_Some_2 in Hlt as [ns Hns].
    exists ns. split; [exact Hns|].
    cbn [Legacy.collectSystemStats Legacy.GCPauseMs]. unfold index.
    rewrite (nth_lookup_Some _ _ _ _ Hns). reflexivity.
  - rewrite pause_slot.
    rewrite Z.add_mod_idemp_l by lia. f_equal. lia.
  - unfold initialized.
    destruct (256 <=? NumGC (ReadMemStats rt)) eqn:Hwrap.
    + apply Z.leb_le in Hwrap. apply andb_true_iff.
      split; [apply Z.leb_le|apply Z.ltb_lt]; lia.
    + apply Z.leb_gt in Hwrap. rewrite Z.mod_small by lia.
      apply andb_false_iff. right. apply Z.ltb_ge. lia.
Qed.

Lemma Legacy_collectSystemStats_slot_witness :
  let memStats := busyMemStats in
  let old := Legacy.collectSystemStats busyRuntime in
  let new := sampleSystemStats busyRuntime in
  Legacy.CPUCount old = CPUCount new
  /\ Legacy.MemoryUsageMB old = MemoryUsageMB new
  /\ Legacy.MemoryTotalMB old = MemoryTotalMB new
  /\ Legacy.GoroutineCount old = GoroutineCount new
  /\ Legacy.GCCount old = GCCount new
  /\ 0 <= NumGC memStats mod 256 < 256
  /\ (exists ns,
        PauseNs memStats !! Z.to_nat (NumGC memStats mod 256) = Some ns
        /\ Legacy.GCPauseMs old = (float64_of_Z ns / 1000000)%float)
  /\ NumGC memStats mod 256 = (uint32_add (NumGC memStats) 255 mod 256 + 1) mod 256
  /\ initialized (NumGC memStats) (NumGC memStats mod 256)
     = (256 <=? NumGC memStats).
Proof.
  cbv zeta.
  apply (Legacy_collectSystemStats_slot busyRuntime).
  split; [cbn; lia|reflexivity].
Defined.

(** ** The older and the newer reporter: delivery and the log *)






